(** * Cocos engine fragments: render-stage registry, render window,
      render pipeline flags and the script/native conversion layer

    A shallow embedding of

    - the render-stage registry   ([addStage], [stageID], [stageIDs]),
    - [RenderWindow.resize] and [RenderWindow.destroy],
    - [RenderPipeline::isOcclusionQueryEnabled],
    - [jsb_conversions.cpp]: the conversions of vectors, matrices, sizes,
      rectangles, colours, quaternions, transforms, viewports, blend
      functions, resource and font descriptions in both directions, of
      vectors and maps of scalars, the [seval_to_ccvalue] and
      [ccvalue_to_seval] families with the maps keyed by integers, and
      the three unimplemented stubs,

    followed by the properties established about them.

    Conventions.  JavaScript numbers and C++ [double]s are IEEE-754 binary64
    values, C++ [float]s are binary32 values; both are represented by the
    Standard Library's [spec_float] in canonical form.  JavaScript objects
    used as string-keyed tables and C++ [unordered_map]s are finite maps.
    C++ functions with an out-pointer take the pointee's current value and
    return the new one next to the [bool] result.  A [std::string] handed
    over as [key.c_str()] is read up to its first NUL character. *)

From Stdlib Require Import ZArith Lia Bool Ascii String List DecimalString.
From Stdlib Require Import Floats.SpecFloat.
From Stdlib Require DecimalPos DecimalZ.
From stdpp Require Import gmap strings list sorting.

#[local] Set Warnings "-register-all,-clear-no-such-hyp".
#[local] Open Scope Z_scope.

(* ===================================================================== *)
(** * Numbers *)
(* ===================================================================== *)

(** IEEE-754 binary64 ([double], and every JavaScript number) and binary32
    ([float]).  A value is well formed when [valid_binary] holds for the
    format's precision and exponent bound. *)
Definition double : Type := spec_float.
Definition float : Type := spec_float.

Definition valid_double (x : double) : bool := valid_binary 53 1024 x.
Definition valid_float (x : float) : bool := valid_binary 24 128 x.

(** Round-to-nearest-even conversion of a finite value to a given format;
    zeros, infinities and NaN are format independent. *)
Definition round_to (prec emax : Z) (x : spec_float) : spec_float :=
  match x with
  | S754_finite s m e => binary_round prec emax s m e
  | _ => x
  end.

(** [static_cast<float>(double)], which is what [se::Value::toFloat]
    applies to the stored number. *)
Definition toFloat (d : double) : float := round_to 24 128 d.

(** The implicit [float] to [double] promotion performed when a [float] is
    stored in a [se::Value] ([se::Value(float)], [setFloat]). *)
Definition double_of_float (f : float) : double := round_to 53 1024 f.

(** Integer literals used at [double] and at [float] type. *)
Definition double_of_Z (z : Z) : double := binary_normalize 53 1024 z 0 false.
Definition float_of_Z (z : Z) : float := binary_normalize 24 128 z 0 false.

(** JavaScript's [a > b] on numbers ([false] as soon as one side is NaN). *)
Definition js_gt (a b : double) : bool := SFltb b a.

(** The integer casts of [se::Value] ([toInt32], [toUint8], [toUint16]):
    [static_cast]s from the stored [double].  C++ leaves them undefined
    when the truncated value is not representable, so they are kept as
    parameters of the development. *)
Class IntegerCasts := {
  toInt32 : double -> Z;
  toUint8 : double -> Z;
  toUint16 : double -> Z
}.

(** Two's complement wrap-around to a signed 32-bit integer (JavaScript's
    [ToInt32] on an integral value). *)
Definition wrap_int32 (z : Z) : Z := (z + 2 ^ 31) mod 2 ^ 32 - 2 ^ 31.

(** JavaScript's [x << n]: the shift count is taken modulo 32 and the
    result is a signed 32-bit integer. *)
Definition js_shl (x n : Z) : Z := wrap_int32 (Z.shiftl (wrap_int32 x) (Z.land n 31)).

(** JavaScript's [a | b] on integral operands. *)
Definition js_or (a b : Z) : Z := wrap_int32 (Z.lor (wrap_int32 a) (wrap_int32 b)).

(** Number of bits set among the 32 bits of a 32-bit value. *)
Definition popcount32 (z : Z) : nat :=
  length (filter (fun i => Z.testbit z (Z.of_nat i) = true) (seq 0 32)).

(** C's narrowing of an integer to [GLubyte] (an [unsigned char]). *)
Definition to_GLubyte (z : Z) : Z := z mod 256.

(* ===================================================================== *)
(** * Outcomes of a call *)
(* ===================================================================== *)

(** Build switches: [NDEBUG] compiles [assert] out; [CCASSERT] is only
    active when [COCOS2D_DEBUG > 0] (and then expands to an [assert]). *)
Class BuildConfig := {
  NDEBUG : bool;
  COCOS2D_DEBUG : bool
}.

(** A call either returns, or is aborted by a failed assertion, or runs into
    behaviour C++ does not define (a null dereference, reading the wrong
    member of [se::Value]'s union). *)
Inductive outcome (A : Type) : Type :=
  | Returned (a : A)
  | Aborted
  | UndefinedBehaviour.
Arguments Returned {A} a.
Arguments Aborted {A}.
Arguments UndefinedBehaviour {A}.

#[global] Instance outcome_ret : MRet outcome := fun A a => Returned a.
#[global] Instance outcome_bind : MBind outcome := fun A B f m =>
  match m with
  | Returned a => f a
  | Aborted => Aborted
  | UndefinedBehaviour => UndefinedBehaviour
  end.

(** [assert(cond)]: aborts when the condition fails, unless compiled out. *)
Definition assert_ {cfg : BuildConfig} (cond : bool) : outcome unit :=
  if cond then Returned tt else if NDEBUG then Returned tt else Aborted.

(** Modelled from the spec: the macro [CCASSERT(cond, msg)], defined
    outside the files modelled here; it is the debug-build assertion, an
    [assert] that is only compiled in when [COCOS2D_DEBUG > 0]. *)
Definition CCASSERT {cfg : BuildConfig} (cond : bool) : outcome unit :=
  if COCOS2D_DEBUG then assert_ cond else Returned tt.

(* ===================================================================== *)
(** * C strings *)
(* ===================================================================== *)

(** [s.c_str()] as a callee taking a [const char*] reads it: a
    [std::string] may hold NUL characters, the C string ends before the
    first of them. *)
Fixpoint c_str (s : string) : string :=
  match s with
  | EmptyString => EmptyString
  | String.String c rest =>
      if Ascii.eqb c Ascii.zero then EmptyString else String.String c (c_str rest)
  end.

(** The range of a C [int]. *)
Definition INT_MIN : Z := - 2 ^ 31.
Definition INT_MAX : Z := 2 ^ 31 - 1.

(* ===================================================================== *)
(** * Render-stage registry (JavaScript) *)
(* ===================================================================== *)

(** The members every object literal inherits from [Object.prototype]:
    [_name2stageID[name]] is not [undefined] for these names even when the
    registry has no entry of its own. *)
Definition ObjectPrototype : list string :=
  [ "constructor"; "hasOwnProperty"; "isPrototypeOf"; "propertyIsEnumerable";
    "toLocaleString"; "toString"; "valueOf"; "__proto__";
    "__defineGetter__"; "__defineSetter__"; "__lookupGetter__";
    "__lookupSetter__" ]%string.

(** What reading [_name2stageID[name]] can produce besides [undefined]. *)
Inductive StageEntry : Type :=
  | StageNumber (id : Z)
  | Inherited (member : string).

(** Module state: [_stageOffset] and the own properties of [_name2stageID]. *)
Record Registry : Type := {
  _stageOffset : Z;
  _name2stageID : gmap string Z
}.

Definition initial_registry : Registry :=
  {| _stageOffset := 0; _name2stageID := ∅ |}.

(** [_name2stageID[name]]; [None] is [undefined]. *)
Definition name2stageID_get (st : Registry) (name : string) : option StageEntry :=
  match _name2stageID st !! name with
  | Some id => Some (StageNumber id)
  | None => if bool_decide (name ∈ ObjectPrototype) then Some (Inherited name) else None
  end.

Definition addStage (name : string) (st : Registry) : Registry :=
  match name2stageID_get st name with
  | Some _ => st
  | None =>
      let stageID := js_shl 1 (_stageOffset st) in
      {| _stageOffset := _stageOffset st + 1;
         _name2stageID := <[name := stageID]> (_name2stageID st) |}
  end.

Definition stageID (name : string) (st : Registry) : StageEntry :=
  match name2stageID_get st name with
  | None => StageNumber (-1)
  | Some id => id
  end.

(** [key |= id]: a number is or-ed in; an inherited member (a function or
    object) converts to 0 under [ToInt32]. *)
Definition stageIDs (nameList : list string) (st : Registry) : Z :=
  foldl (fun key name =>
           match name2stageID_get st name with
           | Some (StageNumber id) => js_or key id
           | Some (Inherited _) => js_or key 0
           | None => key
           end) 0 nameList.

(** A sequence of [addStage] calls, first call first. *)
Definition addStages (names : list string) (st : Registry) : Registry :=
  foldl (fun s name => addStage name s) st names.

(** A name is registered when the registry holds an entry for it. *)
Definition registered (st : Registry) (name : string) : Prop :=
  is_Some (_name2stageID st !! name).

(* ===================================================================== *)
(** * Render pipeline (C++) *)
(* ===================================================================== *)

(** Modelled from the spec: the graphics device, declared outside the
    files modelled here, as far as the pipeline consults it: its
    capability record with the occlusion-query support flag. *)
Record DeviceCaps : Type := { supportQuery : bool }.
Record Device : Type := { getCapabilities : DeviceCaps }.

(** The fields of [RenderPipeline] read or written by the members below;
    [_device] is a pointer, [None] standing for [nullptr]. *)
Record RenderPipeline : Type := {
  _device : option Device;
  _clusterEnabled : bool;
  _bloomEnabled : bool;
  _occlusionQueryEnabled : bool
}.

(** [_occlusionQueryEnabled && _device->getCapabilities().supportQuery];
    [&&] only dereferences [_device] when the flag is set. *)
Definition isOcclusionQueryEnabled (p : RenderPipeline) : outcome bool :=
  if _occlusionQueryEnabled p then
    match _device p with
    | Some d => Returned (supportQuery (getCapabilities d))
    | None => UndefinedBehaviour
    end
  else Returned false.

Definition setOcclusionQueryEnabled (enable : bool) (p : RenderPipeline) : RenderPipeline :=
  {| _device := _device p;
     _clusterEnabled := _clusterEnabled p;
     _bloomEnabled := _bloomEnabled p;
     _occlusionQueryEnabled := enable |}.

(* ===================================================================== *)
(** * Render window (TypeScript) *)
(* ===================================================================== *)

(** Modelled from the spec: the GFX objects (textures, render passes,
    framebuffers), declared outside the files modelled here, with their
    resize, destroy and initialize operations.  They are referred to by
    identity and the calls made on them are recorded. *)
Definition GFXTexture : Type := nat.
Definition GFXRenderPass : Type := nat.
Definition GFXFramebuffer : Type := nat.

Record GFXFramebufferInfo : Type := {
  fbi_renderPass : option GFXRenderPass;
  fbi_colorTextures : list (option GFXTexture);
  fbi_depthStencilTexture : option GFXTexture
}.

Inductive GFXCall : Type :=
  | TextureResize (tex : GFXTexture) (width height : double)
  | FramebufferDestroy (fb : GFXFramebuffer)
  | FramebufferInitialize (fb : GFXFramebuffer) (info : GFXFramebufferInfo).

Record RenderWindow : Type := {
  _title : string;
  _width : double;
  _height : double;
  _nativeWidth : double;
  _nativeHeight : double;
  _renderPass : option GFXRenderPass;
  _colorTextures : list (option GFXTexture);
  _depthStencilTexture : option GFXTexture;
  _swapchainBufferIndices : Z;
  _shouldSyncSizeWithSwapchain : bool;
  _poolHandle : Z
}.

(** Modelled from the spec: the handle-pool memory manager, declared
    outside the files modelled here.  The two pools consulted by [resize]:
    [RenderWindowPool.get(handle, RenderWindowView.FRAMEBUFFER)] and
    [FramebufferPool.get(handle)] ([None] when the slot holds nothing). *)
Record Pools : Type := {
  RenderWindowPool_get_FRAMEBUFFER : Z -> Z;
  FramebufferPool_get : Z -> option GFXFramebuffer
}.

(** The first loop of [resize]: every present colour texture is resized. *)
Fixpoint resize_colorTextures (texs : list (option GFXTexture)) (width height : double)
    (needRebuild : bool) : list GFXCall * bool :=
  match texs with
  | [] => ([], needRebuild)
  | Some colorTex :: rest =>
      let '(calls, nb) := resize_colorTextures rest width height true in
      (TextureResize colorTex width height :: calls, nb)
  | None :: rest => resize_colorTextures rest width height needRebuild
  end.

(** [resize(width, height)]: the new window state and the GFX calls made,
    in order. *)
Definition resize (pools : Pools) (this : RenderWindow) (width height : double)
    : RenderWindow * list GFXCall :=
  let this1 :=
    {| _title := _title this; _width := width; _height := height;
       _nativeWidth := _nativeWidth this; _nativeHeight := _nativeHeight this;
       _renderPass := _renderPass this; _colorTextures := _colorTextures this;
       _depthStencilTexture := _depthStencilTexture this;
       _swapchainBufferIndices := _swapchainBufferIndices this;
       _shouldSyncSizeWithSwapchain := _shouldSyncSizeWithSwapchain this;
       _poolHandle := _poolHandle this |} in
  if js_gt width (_nativeWidth this) || js_gt height (_nativeHeight this) then
    let this2 :=
      {| _title := _title this1; _width := _width this1; _height := _height this1;
         _nativeWidth := width; _nativeHeight := height;
         _renderPass := _renderPass this1; _colorTextures := _colorTextures this1;
         _depthStencilTexture := _depthStencilTexture this1;
         _swapchainBufferIndices := _swapchainBufferIndices this1;
         _shouldSyncSizeWithSwapchain := _shouldSyncSizeWithSwapchain this1;
         _poolHandle := _poolHandle this1 |} in
    let needRebuild := false in
    let '(calls1, needRebuild) :=
      match _depthStencilTexture this2 with
      | Some ds => ([TextureResize ds width height], true)
      | None => ([], needRebuild)
      end in
    let '(calls2, needRebuild) :=
      resize_colorTextures (_colorTextures this2) width height needRebuild in
    let framebuffer :=
      FramebufferPool_get pools (RenderWindowPool_get_FRAMEBUFFER pools (_poolHandle this2)) in
    let calls3 :=
      match framebuffer with
      | Some fb =>
          if needRebuild then
            [ FramebufferDestroy fb;
              FramebufferInitialize fb
                {| fbi_renderPass := _renderPass this2;
                   fbi_colorTextures := _colorTextures this2;
                   fbi_depthStencilTexture := _depthStencilTexture this2 |} ]
          else []
      | None => []
      end in
    (this2, calls1 ++ calls2 ++ calls3)
  else (this1, []).

(* ===================================================================== *)
(** * Scripting values ([se::Value], [se::Object]) *)
(* ===================================================================== *)

Module se.

(** Modelled from the spec: the scripting runtime's value type
    ([se::Value], [se::Object]), which the files modelled here only use: an
    opaque tagged value with kind tests, property get by name, enumeration
    of own keys and array length and element access.  A scripting value
    is tagged with its runtime kind.  An object is either a plain object,
    given by the properties [getProperty] resolves in the order
    [getAllKeys] reports them, or an array, given by its elements. *)
Inductive Value : Type :=
  | Undefined
  | Null
  | Number (d : double)
  | Boolean (b : bool)
  | String (s : string)
  | Obj (o : Object)
with Object : Type :=
  | PlainObject (props : list (string * Value))
  | ArrayObject (elems : list Value).

Definition isNullOrUndefined (v : Value) : bool :=
  match v with Undefined | Null => true | _ => false end.
Definition isNumber (v : Value) : bool :=
  match v with Number _ => true | _ => false end.
Definition isBoolean (v : Value) : bool :=
  match v with Boolean _ => true | _ => false end.
Definition isString (v : Value) : bool :=
  match v with String _ => true | _ => false end.
Definition isObject (v : Value) : bool :=
  match v with Obj _ => true | _ => false end.

(** [toObject] reads the object member of the value's union; on a value
    of another kind that is not defined. *)
Definition toObject (v : Value) : outcome Object :=
  match v with Obj o => Returned o | _ => UndefinedBehaviour end.

Definition isArray (o : Object) : bool :=
  match o with ArrayObject _ => true | PlainObject _ => false end.

(** The key under which an array holds its [i]-th element. *)
Definition index_key (i : nat) : string :=
  DecimalString.NilEmpty.string_of_uint (Nat.to_uint i).

Fixpoint assoc (name : string) (props : list (string * Value)) : option Value :=
  match props with
  | [] => None
  | (k, v) :: rest => if String.eqb k name then Some v else assoc name rest
  end.

(** [obj->getProperty(name, &out)]: [None] when it returns [false]. *)
Definition getProperty (o : Object) (name : string) : option Value :=
  match o with
  | PlainObject props => assoc name props
  | ArrayObject elems =>
      match List.find (fun i => String.eqb (index_key i) name) (seq 0 (length elems)) with
      | Some i => elems !! i
      | None =>
          if String.eqb name "length"
          then Some (Number (double_of_Z (Z.of_nat (length elems))))
          else None
      end
  end.

(** [obj->getAllKeys(&allKeys)]. *)
Definition getAllKeys (o : Object) : list string :=
  match o with
  | PlainObject props => map fst props
  | ArrayObject elems => map index_key (seq 0 (length elems))
  end.

(** [obj->getArrayLength(&len)]: [None] when it returns [false]. *)
Definition getArrayLength (o : Object) : option nat :=
  match o with
  | ArrayObject elems => Some (length elems)
  | PlainObject _ => None
  end.

(** [obj->getArrayElement(i, &out)]; reading past the end of a
    JavaScript array gives [undefined]. *)
Definition getArrayElement (o : Object) (i : nat) : option Value :=
  match o with
  | ArrayObject elems => Some (default Undefined (elems !! i))
  | PlainObject _ => None
  end.

(** [se::Object::createArrayObject(length, rooted)]. *)
Definition createArrayObject (len : nat) : Object :=
  ArrayObject (replicate len Undefined).

(** [obj->setArrayElement(i, v)]; writing past the end extends the
    array. *)
Definition setArrayElement (o : Object) (i : nat) (v : Value) : Object :=
  match o with
  | ArrayObject elems =>
      if decide (i < length elems)%nat
      then ArrayObject (<[i := v]> elems)
      else ArrayObject (elems ++ replicate (i - length elems) Undefined ++ [v])
  | PlainObject props => PlainObject (props ++ [(index_key i, v)])
  end.

(** Nesting depth of a value: the bound on the recursion of
    [seval_to_ccvalue]. *)
Fixpoint depth (v : Value) : nat :=
  match v with
  | Obj o => S (depth_obj o)
  | _ => O
  end
with depth_obj (o : Object) : nat :=
  match o with
  | PlainObject props =>
      (fix go (l : list (string * Value)) : nat :=
         match l with
         | [] => O
         | (_, x) :: l' => Nat.max (depth x) (go l')
         end) props
  | ArrayObject elems =>
      (fix go (l : list Value) : nat :=
         match l with
         | [] => O
         | x :: l' => Nat.max (depth x) (go l')
         end) elems
  end.

End se.

(* ===================================================================== *)
(** * Native value types ([cocos2d::...]) *)
(* ===================================================================== *)

Module cocos2d.

(** Modelled from the spec: the native value types crossing the
    boundary, declared outside the files modelled here; each is a flat
    record of numeric or text fields, named as the conversions access
    them. *)
Record Vec2 : Type := { x : float; y : float }.
Definition Vec2_ZERO : Vec2 := {| x := float_of_Z 0; y := float_of_Z 0 |}.

(** [Mat4]: the array [float m[16]]. *)
Record Mat4 : Type := { m : list float }.
Definition Mat4_IDENTITY : Mat4 :=
  {| m := map float_of_Z [1;0;0;0; 0;1;0;0; 0;0;1;0; 0;0;0;1] |}.

Record Size : Type := { width : float; height : float }.

Record Color3B : Type := { r : Z; g : Z; b : Z }.
Definition Color3B_WHITE : Color3B := {| r := 255; g := 255; b := 255 |}.
Definition Color3B_BLACK : Color3B := {| r := 0; g := 0; b := 0 |}.
Definition Color3B_BLUE : Color3B := {| r := 0; g := 0; b := 255 |}.

(** The alignment enumerations; a cast from an arbitrary [int] may fall
    outside the named enumerators. *)
Inductive TextHAlignment : Type :=
  | LEFT | CENTER | RIGHT | TextHAlignment_other (i : Z).
Inductive TextVAlignment : Type :=
  | TOP | VCENTER | BOTTOM | TextVAlignment_other (i : Z).

Definition TextHAlignment_of_int (i : Z) : TextHAlignment :=
  match i with 0 => LEFT | 1 => CENTER | 2 => RIGHT | _ => TextHAlignment_other i end.
Definition TextVAlignment_of_int (i : Z) : TextVAlignment :=
  match i with 0 => TOP | 1 => VCENTER | 2 => BOTTOM | _ => TextVAlignment_other i end.

Record FontShadow : Type := {
  _shadowEnabled : bool;
  _shadowOffset : Size;
  _shadowBlur : float;
  _shadowOpacity : float
}.

Record FontStroke : Type := {
  _strokeEnabled : bool;
  _strokeColor : Color3B;
  _strokeAlpha : Z;
  _strokeSize : float
}.

Record FontDefinition : Type := {
  _fontName : string;
  _fontSize : Z;
  _alignment : TextHAlignment;
  _vertAlignment : TextVAlignment;
  _dimensions : Size;
  _fontFillColor : Color3B;
  _shadow : FontShadow;
  _stroke : FontStroke
}.

(** [cocos2d::Value], the generic tagged value; [NONE] is the tag of
    [Value::Null] and of a default-constructed value. *)
Inductive Value : Type :=
  | NONE
  | BYTE (c : Z)
  | INTEGER (i : Z)
  | UNSIGNED (u : Z)
  | FLOAT (f : float)
  | DOUBLE (d : double)
  | BOOLEAN (b : bool)
  | STRING (s : string)
  | VECTOR (l : list Value)
  | MAP (m : gmap string Value)
  | INT_KEY_MAP (m : gmap Z Value).

Definition Value_Null : Value := NONE.

(** [unordered_map::emplace]: inserts only if the key is not yet there. *)
Definition emplace `{Countable K} {A} (k : K) (v : A) (map : gmap K A) : gmap K A :=
  match map !! k with
  | Some _ => map
  | None => <[k := v]> map
  end.

End cocos2d.

(* ===================================================================== *)
(** * Accessors of [se::Value] and [se::Object] used by the conversions *)
(* ===================================================================== *)

Module seval.

(** [obj->getProperty(name, &out)]: the [bool] result and the new
    content of [out], which is only written on success. *)
Definition getProperty (obj : se.Object) (name : string) (out : se.Value)
    : bool * se.Value :=
  match se.getProperty obj name with
  | Some v => (true, v)
  | None => (false, out)
  end.

(** The typed readers of [se::Value].  Each conversion calls them only
    behind the matching kind test; the value given for other kinds is
    never observed. *)
Definition toNumber (v : se.Value) : double :=
  match v with
  | se.Number d => d
  | se.Boolean true => double_of_Z 1
  | _ => double_of_Z 0
  end.
Definition toBoolean (v : se.Value) : bool :=
  match v with se.Boolean b => b | _ => false end.
Definition toString (v : se.Value) : string :=
  match v with se.String s => s | _ => EmptyString end.

End seval.

(** Modelled from the spec: the macro [JSB_PRECONDITION3(condition,
    ret_value, failure_expr)], defined outside the files modelled here.  It
    checks the condition and, if it is false, performs the fallback
    assignment and returns [ret_value] at once; otherwise execution goes on
    with the statements [k] that follow. *)
Definition JSB_PRECONDITION3 {R T : Type} (condition : bool) (ret_value : R) (fallback : T)
    (k : outcome (R * T)) : outcome (R * T) :=
  if condition then k else Returned (ret_value, fallback).

(* ===================================================================== *)
(** * Script to native conversions ([jsb_conversions.cpp]) *)
(* ===================================================================== *)

Section Conversions.
Context {cfg : BuildConfig} {casts : IntegerCasts}.
Import cocos2d.

Definition seval_to_Vec2 (v : se.Value) (pt : Vec2) : outcome (bool * Vec2) :=
  _ ← assert_ (se.isObject v);
  obj ← se.toObject v;
  let '(ok, x) := seval.getProperty obj "x" se.Undefined in
  JSB_PRECONDITION3 (ok && se.isNumber x) false Vec2_ZERO (
  let '(ok, y) := seval.getProperty obj "y" se.Undefined in
  JSB_PRECONDITION3 (ok && se.isNumber y) false Vec2_ZERO (
  Returned (true, {| x := toFloat (seval.toNumber x);
                     y := toFloat (seval.toNumber y) |}))).

(** The element loop of [seval_to_Mat4], over the indices still to do. *)
Fixpoint seval_to_Mat4_loop (obj : se.Object) (indices : list nat) (mat : Mat4)
    : outcome (bool * Mat4) :=
  match indices with
  | [] => Returned (true, mat)
  | i :: rest =>
      match se.getArrayElement obj i with
      | None => Returned (false, Mat4_IDENTITY)
      | Some tmp =>
          if se.isNumber tmp
          then seval_to_Mat4_loop obj rest
                 {| m := <[i := toFloat (seval.toNumber tmp)]> (m mat) |}
          else Returned (false, Mat4_IDENTITY)
      end
  end.

Definition seval_to_Mat4 (v : se.Value) (mat : Mat4) : outcome (bool * Mat4) :=
  _ ← assert_ (se.isObject v);
  obj ← se.toObject v;
  JSB_PRECONDITION3 (se.isArray obj) false Mat4_IDENTITY (
  match se.getArrayLength obj with
  | None => Returned (false, Mat4_IDENTITY)
  | Some len =>
      if negb (len =? 16)%nat
      then Returned (false, Mat4_IDENTITY)
      else seval_to_Mat4_loop obj (seq 0 len) mat
  end).

Definition seval_to_Color3B (v : se.Value) (color : Color3B) : outcome (bool * Color3B) :=
  _ ← assert_ (se.isObject v);
  obj ← se.toObject v;
  let '(ok, r) := seval.getProperty obj "r" se.Undefined in
  JSB_PRECONDITION3 (ok && se.isNumber r) false Color3B_BLACK (
  let '(ok, g) := seval.getProperty obj "g" se.Undefined in
  JSB_PRECONDITION3 (ok && se.isNumber g) false Color3B_BLACK (
  let '(ok, b) := seval.getProperty obj "b" se.Undefined in
  JSB_PRECONDITION3 (ok && se.isNumber b) false Color3B_BLACK (
  Returned (true, {| r := to_GLubyte (toUint16 (seval.toNumber r));
                     g := to_GLubyte (toUint16 (seval.toNumber g));
                     b := to_GLubyte (toUint16 (seval.toNumber b)) |})))).

(** The shadow block of [seval_to_FontDefinition]; [shadow] already has
    [_shadowEnabled] reset to [false]. *)
Definition seval_to_FontDefinition_shadow (obj : se.Object) (tmp tmp2 : se.Value)
    (shadow : FontShadow) : FontShadow * se.Value * se.Value :=
  let '(ok, tmp) := seval.getProperty obj "shadowEnabled" tmp in
  if ok && se.isBoolean tmp then
    let enabled := seval.toBoolean tmp in
    if enabled then
      (* default shadow values *)
      let offset := {| width := float_of_Z 5; height := float_of_Z 5 |} in
      let blur := float_of_Z 1 in
      let opacity := float_of_Z 1 in
      (* shadow offset *)
      let '(okx, tmp) := seval.getProperty obj "shadowOffsetX" tmp in
      let '(oky, tmp2) :=
        if okx && se.isNumber tmp
        then seval.getProperty obj "shadowOffsetY" tmp2 else (false, tmp2) in
      let offset :=
        if okx && se.isNumber tmp && oky && se.isNumber tmp2
        then {| width := toFloat (seval.toNumber tmp);
                height := toFloat (seval.toNumber tmp2) |}
        else offset in
      (* shadow blur *)
      let '(ok, tmp) := seval.getProperty obj "shadowBlur" tmp in
      let blur := if ok && se.isNumber tmp then toFloat (seval.toNumber tmp) else blur in
      (* shadow intensity *)
      let '(ok, tmp) := seval.getProperty obj "shadowOpacity" tmp in
      let opacity := if ok && se.isNumber tmp then toFloat (seval.toNumber tmp) else opacity in
      ({| _shadowEnabled := enabled; _shadowOffset := offset;
          _shadowBlur := blur; _shadowOpacity := opacity |}, tmp, tmp2)
    else
      ({| _shadowEnabled := enabled; _shadowOffset := _shadowOffset shadow;
          _shadowBlur := _shadowBlur shadow;
          _shadowOpacity := _shadowOpacity shadow |}, tmp, tmp2)
  else (shadow, tmp, tmp2).

(** The stroke block of [seval_to_FontDefinition]; [stroke] already has
    [_strokeEnabled] reset to [false]. *)
Definition seval_to_FontDefinition_stroke (obj : se.Object) (tmp : se.Value)
    (stroke : FontStroke) : outcome FontStroke :=
  let '(ok, tmp) := seval.getProperty obj "strokeEnabled" tmp in
  if ok && se.isBoolean tmp then
    let enabled := seval.toBoolean tmp in
    if enabled then
      (* default stroke values *)
      let size := float_of_Z 1 in
      let color := Color3B_BLUE in
      (* stroke color *)
      let '(ok, tmp) := seval.getProperty obj "strokeStyle" tmp in
      color ← (if ok && se.isObject tmp
               then '(_, c) ← seval_to_Color3B tmp color; mret c
               else mret color);
      (* stroke size *)
      let '(ok, tmp) := seval.getProperty obj "lineWidth" tmp in
      let size := if ok && se.isNumber tmp then toFloat (seval.toNumber tmp) else size in
      (* stroke alpha *)
      let '(ok, tmp) := seval.getProperty obj "strokeAlpha" tmp in
      let alpha :=
        if ok && se.isNumber tmp then toUint8 (seval.toNumber tmp)
        else _strokeAlpha stroke in
      mret {| _strokeEnabled := enabled; _strokeColor := color;
              _strokeAlpha := alpha; _strokeSize := size |}
    else
      mret {| _strokeEnabled := enabled; _strokeColor := _strokeColor stroke;
              _strokeAlpha := _strokeAlpha stroke; _strokeSize := _strokeSize stroke |}
  else mret stroke.

Definition seval_to_FontDefinition (v : se.Value) (ret : FontDefinition)
    : outcome (bool * FontDefinition) :=
  _ ← assert_ (se.isObject v);
  obj ← se.toObject v;
  (* default values *)
  let defautlFontName := "Arial"%string in
  let defaultFontSize := 32 in
  let defaultTextAlignment := LEFT in
  let defaultTextVAlignment := TOP in
  (* by default shadow and stroke are off *)
  let shadow :=
    {| _shadowEnabled := false; _shadowOffset := _shadowOffset (_shadow ret);
       _shadowBlur := _shadowBlur (_shadow ret);
       _shadowOpacity := _shadowOpacity (_shadow ret) |} in
  let stroke :=
    {| _strokeEnabled := false; _strokeColor := _strokeColor (_stroke ret);
       _strokeAlpha := _strokeAlpha (_stroke ret);
       _strokeSize := _strokeSize (_stroke ret) |} in
  (* white text by default *)
  let fontFillColor := Color3B_WHITE in
  let tmp := se.Undefined in
  let tmp2 := se.Undefined in
  (* font name *)
  let '(ok, tmp) := seval.getProperty obj "fontName" tmp in
  let fontName :=
    if ok && se.isString tmp then
      if String.eqb (seval.toString tmp) EmptyString
      then defautlFontName else seval.toString tmp
    else defautlFontName in
  (* font size *)
  let '(ok, tmp) := seval.getProperty obj "fontSize" tmp in
  let fontSize :=
    if ok && se.isNumber tmp then toInt32 (seval.toNumber tmp) else defaultFontSize in
  (* font alignment horizontal *)
  let '(ok, tmp) := seval.getProperty obj "textAlign" tmp in
  let alignment :=
    if ok && se.isNumber tmp then TextHAlignment_of_int (toInt32 (seval.toNumber tmp))
    else defaultTextAlignment in
  (* font alignment vertical *)
  let '(ok, tmp) := seval.getProperty obj "verticalAlign" tmp in
  let vertAlignment :=
    if ok && se.isNumber tmp then TextVAlignment_of_int (toInt32 (seval.toNumber tmp))
    else defaultTextVAlignment in
  (* font fill color *)
  let '(ok, tmp) := seval.getProperty obj "fillStyle" tmp in
  fontFillColor ← (if ok && se.isObject tmp
                   then '(_, c) ← seval_to_Color3B tmp fontFillColor; mret c
                   else mret fontFillColor);
  (* font rendering box dimensions *)
  let '(okw, tmp) := seval.getProperty obj "boundingWidth" tmp in
  let '(okh, tmp2) :=
    if okw && se.isNumber tmp
    then seval.getProperty obj "boundingHeight" tmp2 else (false, tmp2) in
  let dimensions :=
    if okw && se.isNumber tmp && okh && se.isNumber tmp2
    then {| width := toFloat (seval.toNumber tmp);
            height := toFloat (seval.toNumber tmp2) |}
    else _dimensions ret in
  (* shadow *)
  let '(shadow, tmp, tmp2) := seval_to_FontDefinition_shadow obj tmp tmp2 shadow in
  (* stroke *)
  stroke ← seval_to_FontDefinition_stroke obj tmp stroke;
  Returned (true,
    {| _fontName := fontName; _fontSize := fontSize;
       _alignment := alignment; _vertAlignment := vertAlignment;
       _dimensions := dimensions; _fontFillColor := fontFillColor;
       _shadow := shadow; _stroke := stroke |}).

(** The three unimplemented conversions: [assert(false); return true;].
    The native types are third-party and the output is never touched, so
    the out-parameter's type is left open. *)
Definition seval_to_TTFConfig {TTFConfig : Type} (v : se.Value) (ret : TTFConfig)
    : outcome (bool * TTFConfig) :=
  _ ← assert_ false;
  Returned (true, ret).

Definition seval_to_b2Vec2 {b2Vec2 : Type} (v : se.Value) (ret : b2Vec2)
    : outcome (bool * b2Vec2) :=
  _ ← assert_ false;
  Returned (true, ret).

Definition seval_to_b2AABB {b2AABB : Type} (v : se.Value) (ret : b2AABB)
    : outcome (bool * b2AABB) :=
  _ ← assert_ false;
  Returned (true, ret).

End Conversions.

(* ===================================================================== *)
(** * Generic tagged values ([seval_to_ccvalue] and its companions) *)
(* ===================================================================== *)

(** [seval_to_ccvalue], [seval_to_ccvaluemap] and [seval_to_ccvaluevector]
    call each other.  Their bodies are first written against the function
    they recurse through; the knot is tied below by recursion on the
    nesting depth of the scripting value. *)
Section ccvalue_bodies.
Context {cfg : BuildConfig}.
Import cocos2d.

Variable seval_to_ccvalue : se.Value -> Value -> outcome (bool * Value).

(** The loop [for (const auto& key : allKeys)] of [seval_to_ccvaluemap];
    [ccvalue] is the local that every iteration converts into. *)
Fixpoint seval_to_ccvaluemap_loop (obj : se.Object) (allKeys : list string)
    (value : se.Value) (ccvalue : Value) (dict : gmap string Value)
    : outcome (bool * gmap string Value) :=
  match allKeys with
  | [] => Returned (true, dict)
  | key :: rest =>
      let '(ok, value) := seval.getProperty obj (c_str key) value in
      JSB_PRECONDITION3 ok false ∅ (
      '(ok, ccvalue) ← seval_to_ccvalue value ccvalue;
      JSB_PRECONDITION3 ok false ∅ (
      seval_to_ccvaluemap_loop obj rest value ccvalue (emplace key ccvalue dict)))
  end.

Definition seval_to_ccvaluemap_body (v : se.Value) (ret : gmap string Value)
    : outcome (bool * gmap string Value) :=
  if se.isNullOrUndefined v then Returned (true, ∅)
  else
    _ ← assert_ (se.isObject v);
    JSB_PRECONDITION3 (negb (se.isNullOrUndefined v)) false ∅ (
    obj ← se.toObject v;
    seval_to_ccvaluemap_loop obj (se.getAllKeys obj) se.Undefined NONE ret).

(** The loop [for (uint32_t i = 0; i < len; ++i)] of
    [seval_to_ccvaluevector]. *)
Fixpoint seval_to_ccvaluevector_loop (obj : se.Object) (indices : list nat)
    (ccvalue : Value) (ret : list Value) : outcome (bool * list Value) :=
  match indices with
  | [] => Returned (true, ret)
  | i :: rest =>
      match se.getArrayElement obj i with
      | Some value =>
          '(ok, ccvalue) ← seval_to_ccvalue value ccvalue;
          JSB_PRECONDITION3 ok false [] (
          seval_to_ccvaluevector_loop obj rest ccvalue (ret ++ [ccvalue]))
      | None => seval_to_ccvaluevector_loop obj rest ccvalue ret
      end
  end.

Definition seval_to_ccvaluevector_body (v : se.Value) (ret : list Value)
    : outcome (bool * list Value) :=
  _ ← assert_ (se.isObject v);
  obj ← se.toObject v;
  JSB_PRECONDITION3 (se.isArray obj) false [] (
  let len := default O (se.getArrayLength obj) in
  seval_to_ccvaluevector_loop obj (seq 0 len) NONE ret).

Definition seval_to_ccvalue_body (v : se.Value) (ret : Value) : outcome (bool * Value) :=
  let ok := true in
  if se.isObject v then
    jsobj ← se.toObject v;
    if negb (se.isArray jsobj) then
      (* It's a normal js object. *)
      '(ok, dictVal) ← seval_to_ccvaluemap_body v ∅;
      JSB_PRECONDITION3 ok false Value_Null (
      Returned (ok, MAP dictVal))
    else
      (* It's a js array object. *)
      '(ok, arrVal) ← seval_to_ccvaluevector_body v [];
      JSB_PRECONDITION3 ok false Value_Null (
      Returned (ok, VECTOR arrVal))
  else if se.isString v then Returned (ok, STRING (seval.toString v))
  else if se.isNumber v then Returned (ok, DOUBLE (seval.toNumber v))
  else if se.isBoolean v then Returned (ok, BOOLEAN (seval.toBoolean v))
  else
    _ ← CCASSERT false;
    Returned (ok, ret).

End ccvalue_bodies.

Section ccvalue.
Context {cfg : BuildConfig}.
Import cocos2d.

(** [seval_to_ccvalue] with a bound on the depth of its recursion. *)
Fixpoint seval_to_ccvalue_upto (bound : nat) (v : se.Value) (ret : Value)
    : outcome (bool * Value) :=
  match bound with
  | O => UndefinedBehaviour
  | S bound' => seval_to_ccvalue_body (seval_to_ccvalue_upto bound') v ret
  end.

(** The recursion of [seval_to_ccvalue v] is exactly as deep as [v] is
    nested (see [seval_to_ccvalue_unfold] below). *)
Definition seval_to_ccvalue (v : se.Value) (ret : Value) : outcome (bool * Value) :=
  seval_to_ccvalue_upto (S (se.depth v)) v ret.

Definition seval_to_ccvaluemap : se.Value -> gmap string Value -> outcome (bool * gmap string Value) :=
  seval_to_ccvaluemap_body seval_to_ccvalue.

Definition seval_to_ccvaluevector : se.Value -> list Value -> outcome (bool * list Value) :=
  seval_to_ccvaluevector_body seval_to_ccvalue.

Definition isdigit (c : ascii) : bool :=
  (48 <=? N_of_ascii c)%N && (N_of_ascii c <=? 57)%N.

Fixpoint isNumberString (str : string) : bool :=
  match str with
  | EmptyString => true
  | String.String c rest => if negb (isdigit c) then false else isNumberString rest
  end.

(** C's [isspace] in the "C" locale. *)
Definition isspace (c : ascii) : bool :=
  let n := N_of_ascii c in ((n =? 32) || ((9 <=? n) && (n <=? 13)))%N.

Fixpoint atoi_digits (s : string) (acc : Z) : Z :=
  match s with
  | String.String c rest =>
      if isdigit c
      then atoi_digits rest (10 * acc + (Z.of_N (N_of_ascii c) - 48))
      else acc
  | EmptyString => acc
  end.

(** The number a text denotes for C's [atoi]: optional white space, an
    optional sign, then the longest run of decimal digits (none: 0). *)
Fixpoint atoi_value (s : string) : Z :=
  match s with
  | String.String c rest =>
      if isspace c then atoi_value rest
      else if Ascii.eqb c "-" then - atoi_digits rest 0
      else if Ascii.eqb c "+" then atoi_digits rest 0
      else atoi_digits s 0
  | EmptyString => 0
  end.

(** C's [atoi], whose result is an [int]: C leaves its behaviour
    undefined when the number the text denotes does not fit. *)
Definition atoi (s : string) : outcome Z :=
  let z := atoi_value s in
  if (INT_MIN <=? z) && (z <=? INT_MAX) then Returned z else UndefinedBehaviour.

(** The key loop of [seval_to_ccvaluemapintkey]; [warnings] collects the
    keys as [CCLOGWARN] prints them (the [%s] of [key.c_str()]), latest
    last. *)
Fixpoint seval_to_ccvaluemapintkey_loop (obj : se.Object) (allKeys : list string)
    (value : se.Value) (ccvalue : Value) (dict : gmap Z Value) (warnings : list string)
    : outcome (bool * gmap Z Value) * list string :=
  match allKeys with
  | [] => (Returned (true, dict), warnings)
  | key :: rest =>
      let '(ok, value) := seval.getProperty obj (c_str key) value in
      if negb ok then (Returned (false, ∅), warnings)
      else if negb (isNumberString key) then
        seval_to_ccvaluemapintkey_loop obj rest value ccvalue dict (warnings ++ [c_str key])
      else
        match atoi (c_str key) with
        | Returned intKey =>
            match seval_to_ccvalue value ccvalue with
            | Returned (ok, ccvalue) =>
                if negb ok then (Returned (false, ∅), warnings)
                else seval_to_ccvaluemapintkey_loop obj rest value ccvalue
                       (emplace intKey ccvalue dict) warnings
            | Aborted => (Aborted, warnings)
            | UndefinedBehaviour => (UndefinedBehaviour, warnings)
            end
        | Aborted => (Aborted, warnings)
        | UndefinedBehaviour => (UndefinedBehaviour, warnings)
        end
  end.

(** The result of the call together with the keys it warned about. *)
Definition seval_to_ccvaluemapintkey (v : se.Value) (ret : gmap Z Value)
    : outcome (bool * gmap Z Value) * list string :=
  if se.isNullOrUndefined v then (Returned (true, ∅), [])
  else
    match assert_ (se.isObject v) with
    | Returned _ =>
        match se.toObject v with
        | Returned obj =>
            seval_to_ccvaluemapintkey_loop obj (se.getAllKeys obj) se.Undefined NONE ret []
        | Aborted => (Aborted, [])
        | UndefinedBehaviour => (UndefinedBehaviour, [])
        end
    | Aborted => (Aborted, [])
    | UndefinedBehaviour => (UndefinedBehaviour, [])
    end.

End ccvalue.

(* ===================================================================== *)
(** * Native to script conversions *)
(* ===================================================================== *)

(** [v.m[i]] for [i] below 16. *)
Definition Mat4_at (v : cocos2d.Mat4) (i : nat) : float :=
  default (S754_zero false) (cocos2d.m v !! i).

Definition Mat4_to_seval (v : cocos2d.Mat4) (ret : se.Value) : bool * se.Value :=
  let obj := se.createArrayObject 16 in
  let obj :=
    foldl (fun obj i => se.setArrayElement obj i (se.Number (double_of_float (Mat4_at v i))))
          obj (seq 0 16) in
  (true, se.Obj obj).

(* ===================================================================== *)
(** * Render window: [destroy] *)
(* ===================================================================== *)

(** Modelled from the spec: [NULL_HANDLE], the handle that refers to
    nothing, declared with the pools outside the files modelled here; it
    is the number 0, which a condition takes for false. *)
Definition NULL_HANDLE : Z := 0.

(** The [destroy()] calls a window makes on the GFX objects it owns. *)
Inductive GFXDestroyCall : Type :=
  | TextureDestroy (tex : GFXTexture)
  | FramebufferDestroyed (fb : GFXFramebuffer).

(** The loop of [destroy] over the colour textures. *)
Fixpoint destroy_colorTextures (texs : list (option GFXTexture)) : list GFXDestroyCall :=
  match texs with
  | [] => []
  | Some colorTexture :: rest => TextureDestroy colorTexture :: destroy_colorTextures rest
  | None :: rest => destroy_colorTextures rest
  end.

(** [destroy()]: the new window state, the calls made in order, and
    whether the call ended in a [TypeError] (the framebuffer of a non-null
    handle not resolving, [destroy] is then called on nothing and the
    handle is not reset). *)
Definition destroy (pools : Pools) (this : RenderWindow)
    : RenderWindow * list GFXDestroyCall * bool :=
  let calls1 :=
    match _depthStencilTexture this with
    | Some ds => [TextureDestroy ds]
    | None => []
    end in
  let calls2 := destroy_colorTextures (_colorTextures this) in
  let this1 :=
    {| _title := _title this; _width := _width this; _height := _height this;
       _nativeWidth := _nativeWidth this; _nativeHeight := _nativeHeight this;
       _renderPass := _renderPass this; _colorTextures := [];
       _depthStencilTexture := None;
       _swapchainBufferIndices := _swapchainBufferIndices this;
       _shouldSyncSizeWithSwapchain := _shouldSyncSizeWithSwapchain this;
       _poolHandle := _poolHandle this |} in
  if negb (_poolHandle this1 =? 0) then
    match FramebufferPool_get pools
            (RenderWindowPool_get_FRAMEBUFFER pools (_poolHandle this1)) with
    | Some fb =>
        ({| _title := _title this1; _width := _width this1; _height := _height this1;
            _nativeWidth := _nativeWidth this1; _nativeHeight := _nativeHeight this1;
            _renderPass := _renderPass this1; _colorTextures := _colorTextures this1;
            _depthStencilTexture := _depthStencilTexture this1;
            _swapchainBufferIndices := _swapchainBufferIndices this1;
            _shouldSyncSizeWithSwapchain := _shouldSyncSizeWithSwapchain this1;
            _poolHandle := NULL_HANDLE |},
         calls1 ++ calls2 ++ [FramebufferDestroyed fb], false)
    | None => (this1, calls1 ++ calls2, true)
    end
  else (this1, calls1 ++ calls2, false).

(* ===================================================================== *)
(** * Building scripting objects *)
(* ===================================================================== *)

Module seobj.

(** Modelled from the spec: [se::Object::createPlainObject(rooted)], a
    new object with no property of its own. *)
Definition createPlainObject : se.Object := se.PlainObject [].

(** Modelled from the spec: assignment to a named property of a script
    object.  An existing property keeps its place and gets the new value,
    a new one is added last. *)
Fixpoint props_set (name : string) (v : se.Value) (props : list (string * se.Value))
    : list (string * se.Value) :=
  match props with
  | [] => [(name, v)]
  | (k, old) :: rest =>
      if String.eqb k name then (k, v) :: rest else (k, old) :: props_set name v rest
  end.

(** Modelled from the spec: [obj->setProperty(name, v)].  The
    conversions only call it on plain objects; named properties of arrays
    are not represented. *)
Definition setProperty (obj : se.Object) (name : string) (v : se.Value) : se.Object :=
  match obj with
  | se.PlainObject props => se.PlainObject (props_set name v props)
  | se.ArrayObject elems => se.ArrayObject elems
  end.

(** Modelled from the spec: the [se::Value] constructors from native
    scalars; every number is stored as a [double]. *)
Definition of_float (f : float) : se.Value := se.Number (double_of_float f).
Definition of_double (d : double) : se.Value := se.Number d.
Definition of_int (i : Z) : se.Value := se.Number (double_of_Z i).
Definition of_bool (b : bool) : se.Value := se.Boolean b.
Definition of_string (s : string) : se.Value := se.String s.

End seobj.

(** Modelled from the spec: the typed readers of [se::Value] when a
    conversion applies them without testing the kind first.  They are
    defined outside the files modelled here; each asserts that the value
    is a number (a boolean counts as 1 or 0) before it reads the number
    out of the value's union, so on any other kind the call is aborted
    or, with assertions compiled out, reads the wrong union member. *)
Definition toNumber_unguarded {cfg : BuildConfig} (v : se.Value) : outcome double :=
  match v with
  | se.Number d => Returned d
  | se.Boolean b => Returned (double_of_Z (if b then 1 else 0))
  | _ => _ ← assert_ false; UndefinedBehaviour
  end.

(** Modelled from the spec: likewise [toString] behind no more than an
    [assert]. *)
Definition toString_unguarded {cfg : BuildConfig} (v : se.Value) : outcome string :=
  match v with
  | se.String s => Returned s
  | _ => _ ← assert_ false; UndefinedBehaviour
  end.

(** Modelled from the spec: the cast [toUint32] of [se::Value], a
    parameter like the casts of [IntegerCasts]. *)
Class UnsignedCasts := {
  toUint32 : double -> Z
}.

(* ===================================================================== *)
(** * Further native value types *)
(* ===================================================================== *)

(** The other value-object types crossing the boundary are declared
    outside the files modelled here; each is given with the fields the
    conversions access. *)
Module Vec3.
(** Modelled from the spec: [cocos2d::Vec3]. *)
Record t : Type := { x : float; y : float; z : float }.
(** Modelled from the spec: the constant [Vec3::ZERO]. *)
Definition ZERO : t := {| x := float_of_Z 0; y := float_of_Z 0; z := float_of_Z 0 |}.
End Vec3.

Module Vec4.
(** Modelled from the spec: [cocos2d::Vec4]. *)
Record t : Type := { x : float; y : float; z : float; w : float }.
(** Modelled from the spec: the constant [Vec4::ZERO]. *)
Definition ZERO : t :=
  {| x := float_of_Z 0; y := float_of_Z 0; z := float_of_Z 0; w := float_of_Z 0 |}.
End Vec4.

(** Modelled from the spec: [cocos2d::Size::ZERO]. *)
Definition Size_ZERO : cocos2d.Size :=
  {| cocos2d.width := float_of_Z 0; cocos2d.height := float_of_Z 0 |}.

Module Rect.
(** Modelled from the spec: [cocos2d::Rect]. *)
Record t : Type := { origin : cocos2d.Vec2; size : cocos2d.Size }.
(** Modelled from the spec: the constant [Rect::ZERO]. *)
Definition ZERO : t := {| origin := cocos2d.Vec2_ZERO; size := Size_ZERO |}.
End Rect.

Module Color4B.
(** Modelled from the spec: [cocos2d::Color4B]; [BLACK] is opaque. *)
Record t : Type := { r : Z; g : Z; b : Z; a : Z }.
(** Modelled from the spec: the constant [Color4B::BLACK]. *)
Definition BLACK : t := {| r := 0; g := 0; b := 0; a := 255 |}.
End Color4B.

Module Color4F.
(** Modelled from the spec: [cocos2d::Color4F]; [BLACK] is opaque. *)
Record t : Type := { r : float; g : float; b : float; a : float }.
(** Modelled from the spec: the constant [Color4F::BLACK]. *)
Definition BLACK : t :=
  {| r := float_of_Z 0; g := float_of_Z 0; b := float_of_Z 0; a := float_of_Z 1 |}.
End Color4F.

Module Quaternion.
(** Modelled from the spec: [cocos2d::Quaternion]. *)
Record t : Type := { x : float; y : float; z : float; w : float }.
(** Modelled from the spec: the constant [Quaternion::ZERO]. *)
Definition ZERO : t :=
  {| x := float_of_Z 0; y := float_of_Z 0; z := float_of_Z 0; w := float_of_Z 0 |}.
End Quaternion.

Module Acceleration.
(** Modelled from the spec: [cocos2d::Acceleration]. *)
Record t : Type := { x : double; y : double; z : double; timestamp : double }.
End Acceleration.

Module AffineTransform.
(** Modelled from the spec: [cocos2d::AffineTransform]. *)
Record t : Type := { a : float; b : float; c : float; d : float; tx : float; ty : float }.
End AffineTransform.

Module Viewport.
(** Modelled from the spec: [cocos2d::experimental::Viewport]. *)
Record t : Type := { _left : float; _bottom : float; _width : float; _height : float }.
End Viewport.

Module ResourceData.
(** Modelled from the spec: [cocos2d::ResourceData]. *)
Record t : Type := { type : Z; file : string; plist : string }.
End ResourceData.

Module BlendFunc.
(** Modelled from the spec: [cocos2d::BlendFunc], two GL factors. *)
Record t : Type := { src : Z; dst : Z }.
(** Modelled from the spec: [BlendFunc::DISABLE], that is [{GL_ONE, GL_ZERO}]. *)
Definition DISABLE : t := {| src := 1; dst := 0 |}.
End BlendFunc.

(* ===================================================================== *)
(** * Further script to native conversions *)
(* ===================================================================== *)

Section MoreConversions.
Context {cfg : BuildConfig} {casts : IntegerCasts} {ucasts : UnsignedCasts}.

Definition seval_to_std_string (v : se.Value) (ret : string) : bool * string :=
  if se.isString v then (true, seval.toString v) else (false, EmptyString).

Definition seval_to_Vec3 (v : se.Value) (pt : Vec3.t) : outcome (bool * Vec3.t) :=
  _ ← assert_ (se.isObject v);
  obj ← se.toObject v;
  let '(ok, x) := seval.getProperty obj "x" se.Undefined in
  JSB_PRECONDITION3 (ok && se.isNumber x) false Vec3.ZERO (
  let '(ok, y) := seval.getProperty obj "y" se.Undefined in
  JSB_PRECONDITION3 (ok && se.isNumber y) false Vec3.ZERO (
  let '(ok, z) := seval.getProperty obj "z" se.Undefined in
  JSB_PRECONDITION3 (ok && se.isNumber z) false Vec3.ZERO (
  Returned (true, {| Vec3.x := toFloat (seval.toNumber x);
                     Vec3.y := toFloat (seval.toNumber y);
                     Vec3.z := toFloat (seval.toNumber z) |})))).

Definition seval_to_Vec4 (v : se.Value) (pt : Vec4.t) : outcome (bool * Vec4.t) :=
  _ ← assert_ (se.isObject v);
  let pt := Vec4.ZERO in
  obj ← se.toObject v;
  let '(ok, x) := seval.getProperty obj "x" se.Undefined in
  JSB_PRECONDITION3 (ok && se.isNumber x) false Vec4.ZERO (
  let '(ok, y) := seval.getProperty obj "y" se.Undefined in
  JSB_PRECONDITION3 (ok && se.isNumber y) false Vec4.ZERO (
  let '(ok, z) := seval.getProperty obj "z" se.Undefined in
  JSB_PRECONDITION3 (ok && se.isNumber z) false Vec4.ZERO (
  let '(ok, w) := seval.getProperty obj "w" se.Undefined in
  JSB_PRECONDITION3 (ok && se.isNumber w) false Vec4.ZERO (
  Returned (true, {| Vec4.x := toFloat (seval.toNumber x);
                     Vec4.y := toFloat (seval.toNumber y);
                     Vec4.z := toFloat (seval.toNumber z);
                     Vec4.w := toFloat (seval.toNumber w) |}))))).

Definition seval_to_Size (v : se.Value) (size : cocos2d.Size) : outcome (bool * cocos2d.Size) :=
  _ ← assert_ (se.isObject v);
  obj ← se.toObject v;
  let '(ok, width) := seval.getProperty obj "width" se.Undefined in
  JSB_PRECONDITION3 (ok && se.isNumber width) false Size_ZERO (
  let '(ok, height) := seval.getProperty obj "height" se.Undefined in
  JSB_PRECONDITION3 (ok && se.isNumber height) false Size_ZERO (
  Returned (true, {| cocos2d.width := toFloat (seval.toNumber width);
                     cocos2d.height := toFloat (seval.toNumber height) |}))).

Definition seval_to_Rect (v : se.Value) (rect : Rect.t) : outcome (bool * Rect.t) :=
  _ ← assert_ (se.isObject v);
  obj ← se.toObject v;
  let '(ok, x) := seval.getProperty obj "x" se.Undefined in
  JSB_PRECONDITION3 (ok && se.isNumber x) false Rect.ZERO (
  let '(ok, y) := seval.getProperty obj "y" se.Undefined in
  JSB_PRECONDITION3 (ok && se.isNumber y) false Rect.ZERO (
  let '(ok, width) := seval.getProperty obj "width" se.Undefined in
  JSB_PRECONDITION3 (ok && se.isNumber width) false Rect.ZERO (
  let '(ok, height) := seval.getProperty obj "height" se.Undefined in
  JSB_PRECONDITION3 (ok && se.isNumber height) false Rect.ZERO (
  Returned (true,
    {| Rect.origin := {| cocos2d.x := toFloat (seval.toNumber x);
                         cocos2d.y := toFloat (seval.toNumber y) |};
       Rect.size := {| cocos2d.width := toFloat (seval.toNumber width);
                       cocos2d.height := toFloat (seval.toNumber height) |} |}))))).

(** The check made after reading "a" tests [b] once more; [a] itself is
    then read whatever its kind. *)
Definition seval_to_Color4B (v : se.Value) (color : Color4B.t) : outcome (bool * Color4B.t) :=
  _ ← assert_ (se.isObject v);
  obj ← se.toObject v;
  let '(ok, r) := seval.getProperty obj "r" se.Undefined in
  JSB_PRECONDITION3 (ok && se.isNumber r) false Color4B.BLACK (
  let '(ok, g) := seval.getProperty obj "g" se.Undefined in
  JSB_PRECONDITION3 (ok && se.isNumber g) false Color4B.BLACK (
  let '(ok, b) := seval.getProperty obj "b" se.Undefined in
  JSB_PRECONDITION3 (ok && se.isNumber b) false Color4B.BLACK (
  let '(ok, a) := seval.getProperty obj "a" se.Undefined in
  JSB_PRECONDITION3 (ok && se.isNumber b) false Color4B.BLACK (
  an ← toNumber_unguarded a;
  Returned (true, {| Color4B.r := to_GLubyte (toUint16 (seval.toNumber r));
                     Color4B.g := to_GLubyte (toUint16 (seval.toNumber g));
                     Color4B.b := to_GLubyte (toUint16 (seval.toNumber b));
                     Color4B.a := to_GLubyte (toUint16 an) |}))))).

(** Division of two [float]s. *)
Definition float_div (a b : float) : float := SFdiv 24 128 a b.

Definition seval_to_Color4F (v : se.Value) (color : Color4F.t) : outcome (bool * Color4F.t) :=
  _ ← assert_ (se.isObject v);
  obj ← se.toObject v;
  let '(ok, r) := seval.getProperty obj "r" se.Undefined in
  JSB_PRECONDITION3 (ok && se.isNumber r) false Color4F.BLACK (
  let '(ok, g) := seval.getProperty obj "g" se.Undefined in
  JSB_PRECONDITION3 (ok && se.isNumber g) false Color4F.BLACK (
  let '(ok, b) := seval.getProperty obj "b" se.Undefined in
  JSB_PRECONDITION3 (ok && se.isNumber b) false Color4F.BLACK (
  let '(ok, a) := seval.getProperty obj "a" se.Undefined in
  JSB_PRECONDITION3 (ok && se.isNumber b) false Color4F.BLACK (
  an ← toNumber_unguarded a;
  Returned (true,
    {| Color4F.r := float_div (toFloat (seval.toNumber r)) (float_of_Z 255);
       Color4F.g := float_div (toFloat (seval.toNumber g)) (float_of_Z 255);
       Color4F.b := float_div (toFloat (seval.toNumber b)) (float_of_Z 255);
       Color4F.a := float_div (toFloat an) (float_of_Z 255) |}))))).

(** [seval_to_Quaternion] stores each field as soon as it has been
    checked; [ret] is threaded through the checks. *)
Definition seval_to_Quaternion (v : se.Value) (ret : Quaternion.t)
    : outcome (bool * Quaternion.t) :=
  _ ← assert_ (se.isObject v);
  obj ← se.toObject v;
  let '(ok, tmp) := seval.getProperty obj "x" se.Undefined in
  JSB_PRECONDITION3 (ok && se.isNumber tmp) false Quaternion.ZERO (
  let ret := {| Quaternion.x := toFloat (seval.toNumber tmp); Quaternion.y := Quaternion.y ret;
                Quaternion.z := Quaternion.z ret; Quaternion.w := Quaternion.w ret |} in
  let '(ok, tmp) := seval.getProperty obj "y" tmp in
  JSB_PRECONDITION3 (ok && se.isNumber tmp) false Quaternion.ZERO (
  let ret := {| Quaternion.x := Quaternion.x ret; Quaternion.y := toFloat (seval.toNumber tmp);
                Quaternion.z := Quaternion.z ret; Quaternion.w := Quaternion.w ret |} in
  let '(ok, tmp) := seval.getProperty obj "z" tmp in
  JSB_PRECONDITION3 (ok && se.isNumber tmp) false Quaternion.ZERO (
  let ret := {| Quaternion.x := Quaternion.x ret; Quaternion.y := Quaternion.y ret;
                Quaternion.z := toFloat (seval.toNumber tmp); Quaternion.w := Quaternion.w ret |} in
  let '(ok, tmp) := seval.getProperty obj "w" tmp in
  JSB_PRECONDITION3 (ok && se.isNumber tmp) false Quaternion.ZERO (
  let ret := {| Quaternion.x := Quaternion.x ret; Quaternion.y := Quaternion.y ret;
                Quaternion.z := Quaternion.z ret; Quaternion.w := toFloat (seval.toNumber tmp) |} in
  Returned (true, ret))))).

Definition Acceleration_zeroed : Acceleration.t :=
  {| Acceleration.x := double_of_Z 0; Acceleration.y := double_of_Z 0;
     Acceleration.z := double_of_Z 0; Acceleration.timestamp := double_of_Z 0 |}.

Definition seval_to_Acceleration (v : se.Value) (ret : Acceleration.t)
    : outcome (bool * Acceleration.t) :=
  _ ← assert_ (se.isObject v);
  obj ← se.toObject v;
  let '(ok, tmp) := seval.getProperty obj "x" se.Undefined in
  JSB_PRECONDITION3 (ok && se.isNumber tmp) false Acceleration_zeroed (
  let ret := {| Acceleration.x := seval.toNumber tmp; Acceleration.y := Acceleration.y ret;
                Acceleration.z := Acceleration.z ret;
                Acceleration.timestamp := Acceleration.timestamp ret |} in
  let '(ok, tmp) := seval.getProperty obj "y" tmp in
  JSB_PRECONDITION3 (ok && se.isNumber tmp) false Acceleration_zeroed (
  let ret := {| Acceleration.x := Acceleration.x ret; Acceleration.y := seval.toNumber tmp;
                Acceleration.z := Acceleration.z ret;
                Acceleration.timestamp := Acceleration.timestamp ret |} in
  let '(ok, tmp) := seval.getProperty obj "z" tmp in
  JSB_PRECONDITION3 (ok && se.isNumber tmp) false Acceleration_zeroed (
  let ret := {| Acceleration.x := Acceleration.x ret; Acceleration.y := Acceleration.y ret;
                Acceleration.z := seval.toNumber tmp;
                Acceleration.timestamp := Acceleration.timestamp ret |} in
  let '(ok, tmp) := seval.getProperty obj "timestamp" tmp in
  JSB_PRECONDITION3 (ok && se.isNumber tmp) false Acceleration_zeroed (
  let ret := {| Acceleration.x := Acceleration.x ret; Acceleration.y := Acceleration.y ret;
                Acceleration.z := Acceleration.z ret;
                Acceleration.timestamp := seval.toNumber tmp |} in
  Returned (true, ret))))).

Definition Viewport_ZERO : Viewport.t :=
  {| Viewport._left := float_of_Z 0; Viewport._bottom := float_of_Z 0;
     Viewport._width := float_of_Z 0; Viewport._height := float_of_Z 0 |}.

Definition seval_to_Viewport (v : se.Value) (ret : Viewport.t) : outcome (bool * Viewport.t) :=
  _ ← assert_ (se.isObject v);
  obj ← se.toObject v;
  let '(ok, tmp) := seval.getProperty obj "left" se.Undefined in
  JSB_PRECONDITION3 (ok && se.isNumber tmp) false Viewport_ZERO (
  let ret := {| Viewport._left := toFloat (seval.toNumber tmp);
                Viewport._bottom := Viewport._bottom ret;
                Viewport._width := Viewport._width ret;
                Viewport._height := Viewport._height ret |} in
  let '(ok, tmp) := seval.getProperty obj "bottom" tmp in
  JSB_PRECONDITION3 (ok && se.isNumber tmp) false Viewport_ZERO (
  let ret := {| Viewport._left := Viewport._left ret;
                Viewport._bottom := toFloat (seval.toNumber tmp);
                Viewport._width := Viewport._width ret;
                Viewport._height := Viewport._height ret |} in
  let '(ok, tmp) := seval.getProperty obj "width" tmp in
  JSB_PRECONDITION3 (ok && se.isNumber tmp) false Viewport_ZERO (
  let ret := {| Viewport._left := Viewport._left ret;
                Viewport._bottom := Viewport._bottom ret;
                Viewport._width := toFloat (seval.toNumber tmp);
                Viewport._height := Viewport._height ret |} in
  let '(ok, tmp) := seval.getProperty obj "height" tmp in
  JSB_PRECONDITION3 (ok && se.isNumber tmp) false Viewport_ZERO (
  let ret := {| Viewport._left := Viewport._left ret;
                Viewport._bottom := Viewport._bottom ret;
                Viewport._width := Viewport._width ret;
                Viewport._height := toFloat (seval.toNumber tmp) |} in
  Returned (true, ret))))).

(** [static cocos2d::ResourceData ZERO;], default constructed. *)
Definition ResourceData_ZERO : ResourceData.t :=
  {| ResourceData.type := 0; ResourceData.file := EmptyString;
     ResourceData.plist := EmptyString |}.

Definition seval_to_ResourceData (v : se.Value) (ret : ResourceData.t)
    : outcome (bool * ResourceData.t) :=
  _ ← assert_ (se.isObject v);
  obj ← se.toObject v;
  let '(ok, tmp) := seval.getProperty obj "type" se.Undefined in
  JSB_PRECONDITION3 (ok && se.isNumber tmp) false ResourceData_ZERO (
  let ret := {| ResourceData.type := toInt32 (seval.toNumber tmp);
                ResourceData.file := ResourceData.file ret;
                ResourceData.plist := ResourceData.plist ret |} in
  let '(ok, tmp) := seval.getProperty obj "name" tmp in
  JSB_PRECONDITION3 (ok && se.isString tmp) false ResourceData_ZERO (
  let ret := {| ResourceData.type := ResourceData.type ret;
                ResourceData.file := seval.toString tmp;
                ResourceData.plist := ResourceData.plist ret |} in
  let '(ok, tmp) := seval.getProperty obj "plist" tmp in
  JSB_PRECONDITION3 (ok && se.isString tmp) false ResourceData_ZERO (
  let ret := {| ResourceData.type := ResourceData.type ret;
                ResourceData.file := ResourceData.file ret;
                ResourceData.plist := seval.toString tmp |} in
  Returned (ok, ret)))).

Definition AffineTransform_ZERO : AffineTransform.t :=
  {| AffineTransform.a := float_of_Z 0; AffineTransform.b := float_of_Z 0;
     AffineTransform.c := float_of_Z 0; AffineTransform.d := float_of_Z 0;
     AffineTransform.tx := float_of_Z 0; AffineTransform.ty := float_of_Z 0 |}.

Definition seval_to_AffineTransform (v : se.Value) (ret : AffineTransform.t)
    : outcome (bool * AffineTransform.t) :=
  _ ← assert_ (se.isObject v);
  obj ← se.toObject v;
  let '(ok, tmp) := seval.getProperty obj "a" se.Undefined in
  JSB_PRECONDITION3 (ok && se.isNumber tmp) false AffineTransform_ZERO (
  let ret := {| AffineTransform.a := toFloat (seval.toNumber tmp);
                AffineTransform.b := AffineTransform.b ret;
                AffineTransform.c := AffineTransform.c ret;
                AffineTransform.d := AffineTransform.d ret;
                AffineTransform.tx := AffineTransform.tx ret;
                AffineTransform.ty := AffineTransform.ty ret |} in
  let '(ok, tmp) := seval.getProperty obj "b" tmp in
  JSB_PRECONDITION3 (ok && se.isNumber tmp) false AffineTransform_ZERO (
  let ret := {| AffineTransform.a := AffineTransform.a ret;
                AffineTransform.b := toFloat (seval.toNumber tmp);
                AffineTransform.c := AffineTransform.c ret;
                AffineTransform.d := AffineTransform.d ret;
                AffineTransform.tx := AffineTransform.tx ret;
                AffineTransform.ty := AffineTransform.ty ret |} in
  let '(ok, tmp) := seval.getProperty obj "c" tmp in
  JSB_PRECONDITION3 (ok && se.isNumber tmp) false AffineTransform_ZERO (
  let ret := {| AffineTransform.a := AffineTransform.a ret;
                AffineTransform.b := AffineTransform.b ret;
                AffineTransform.c := toFloat (seval.toNumber tmp);
                AffineTransform.d := AffineTransform.d ret;
                AffineTransform.tx := AffineTransform.tx ret;
                AffineTransform.ty := AffineTransform.ty ret |} in
  let '(ok, tmp) := seval.getProperty obj "d" tmp in
  JSB_PRECONDITION3 (ok && se.isNumber tmp) false AffineTransform_ZERO (
  let ret := {| AffineTransform.a := AffineTransform.a ret;
                AffineTransform.b := AffineTransform.b ret;
                AffineTransform.c := AffineTransform.c ret;
                AffineTransform.d := toFloat (seval.toNumber tmp);
                AffineTransform.tx := AffineTransform.tx ret;
                AffineTransform.ty := AffineTransform.ty ret |} in
  let '(ok, tmp) := seval.getProperty obj "tx" tmp in
  JSB_PRECONDITION3 (ok && se.isNumber tmp) false AffineTransform_ZERO (
  let ret := {| AffineTransform.a := AffineTransform.a ret;
                AffineTransform.b := AffineTransform.b ret;
                AffineTransform.c := AffineTransform.c ret;
                AffineTransform.d := AffineTransform.d ret;
                AffineTransform.tx := toFloat (seval.toNumber tmp);
                AffineTransform.ty := AffineTransform.ty ret |} in
  let '(ok, tmp) := seval.getProperty obj "ty" tmp in
  JSB_PRECONDITION3 (ok && se.isNumber tmp) false AffineTransform_ZERO (
  let ret := {| AffineTransform.a := AffineTransform.a ret;
                AffineTransform.b := AffineTransform.b ret;
                AffineTransform.c := AffineTransform.c ret;
                AffineTransform.d := AffineTransform.d ret;
                AffineTransform.tx := AffineTransform.tx ret;
                AffineTransform.ty := toFloat (seval.toNumber tmp) |} in
  Returned (true, ret))))))).

(** [seval_to_blendfunc] only checks that "src" and "dst" are there; the
    values are read as numbers whatever their kind. *)
Definition seval_to_blendfunc (v : se.Value) (ret : BlendFunc.t)
    : outcome (bool * BlendFunc.t) :=
  _ ← assert_ (se.isObject v);
  obj ← se.toObject v;
  let '(ok, value) := seval.getProperty obj "src" se.Undefined in
  JSB_PRECONDITION3 ok false BlendFunc.DISABLE (
  src ← toNumber_unguarded value;
  let ret := {| BlendFunc.src := toUint32 src; BlendFunc.dst := BlendFunc.dst ret |} in
  let '(ok, value) := seval.getProperty obj "dst" value in
  JSB_PRECONDITION3 ok false BlendFunc.DISABLE (
  dst ← toNumber_unguarded value;
  let ret := {| BlendFunc.src := BlendFunc.src ret; BlendFunc.dst := toUint32 dst |} in
  Returned (true, ret))).

(** The element loops of the [seval_to_std_vector_...] conversions, over
    the indices still to do. *)
Fixpoint seval_to_std_vector_string_loop (obj : se.Object) (indices : list nat)
    (ret : list string) : outcome (bool * list string) :=
  match indices with
  | [] => Returned (true, ret)
  | i :: rest =>
      match se.getArrayElement obj i with
      | None => Returned (false, [])
      | Some value =>
          _ ← assert_ (se.isString value);
          s ← toString_unguarded value;
          seval_to_std_vector_string_loop obj rest (ret ++ [s])
      end
  end.

Definition seval_to_std_vector_string (v : se.Value) (ret : list string)
    : outcome (bool * list string) :=
  _ ← assert_ (se.isObject v);
  obj ← se.toObject v;
  _ ← assert_ (se.isArray obj);
  match se.getArrayLength obj with
  | Some len => seval_to_std_vector_string_loop obj (seq 0 len) ret
  | None => Returned (false, [])
  end.

Fixpoint seval_to_std_vector_int_loop (obj : se.Object) (indices : list nat)
    (ret : list Z) : outcome (bool * list Z) :=
  match indices with
  | [] => Returned (true, ret)
  | i :: rest =>
      match se.getArrayElement obj i with
      | None => Returned (false, [])
      | Some value =>
          _ ← assert_ (se.isNumber value);
          d ← toNumber_unguarded value;
          seval_to_std_vector_int_loop obj rest (ret ++ [toInt32 d])
      end
  end.

Definition seval_to_std_vector_int (v : se.Value) (ret : list Z)
    : outcome (bool * list Z) :=
  _ ← assert_ (se.isObject v);
  obj ← se.toObject v;
  _ ← assert_ (se.isArray obj);
  match se.getArrayLength obj with
  | Some len => seval_to_std_vector_int_loop obj (seq 0 len) ret
  | None => Returned (false, [])
  end.

Fixpoint seval_to_std_vector_float_loop (obj : se.Object) (indices : list nat)
    (ret : list float) : outcome (bool * list float) :=
  match indices with
  | [] => Returned (true, ret)
  | i :: rest =>
      match se.getArrayElement obj i with
      | None => Returned (false, [])
      | Some value =>
          _ ← assert_ (se.isNumber value);
          d ← toNumber_unguarded value;
          seval_to_std_vector_float_loop obj rest (ret ++ [toFloat d])
      end
  end.

Definition seval_to_std_vector_float (v : se.Value) (ret : list float)
    : outcome (bool * list float) :=
  _ ← assert_ (se.isObject v);
  obj ← se.toObject v;
  _ ← assert_ (se.isArray obj);
  match se.getArrayLength obj with
  | Some len => seval_to_std_vector_float_loop obj (seq 0 len) ret
  | None => Returned (false, [])
  end.

(** [pt] is the local every element is converted into. *)
Fixpoint seval_to_std_vector_Vec2_loop (obj : se.Object) (indices : list nat)
    (pt : cocos2d.Vec2) (ret : list cocos2d.Vec2) : outcome (bool * list cocos2d.Vec2) :=
  match indices with
  | [] => Returned (true, ret)
  | i :: rest =>
      match se.getArrayElement obj i with
      | None => Returned (false, [])
      | Some value =>
          '(ok, pt) ← seval_to_Vec2 value pt;
          JSB_PRECONDITION3 ok false [] (
          seval_to_std_vector_Vec2_loop obj rest pt (ret ++ [pt]))
      end
  end.

Definition seval_to_std_vector_Vec2 (v : se.Value) (ret : list cocos2d.Vec2)
    : outcome (bool * list cocos2d.Vec2) :=
  _ ← assert_ (se.isObject v);
  obj ← se.toObject v;
  _ ← assert_ (se.isArray obj);
  match se.getArrayLength obj with
  | Some len =>
      seval_to_std_vector_Vec2_loop obj (seq 0 len)
        {| cocos2d.x := float_of_Z 0; cocos2d.y := float_of_Z 0 |} ret
  | None => Returned (false, [])
  end.

(** The key loop of [seval_to_std_map_string_string]. *)
Fixpoint seval_to_std_map_string_string_loop (obj : se.Object) (allKeys : list string)
    (value : se.Value) (strValue : string) (ret : gmap string string)
    : outcome (bool * gmap string string) :=
  match allKeys with
  | [] => Returned (true, ret)
  | key :: rest =>
      let '(ok, value) := seval.getProperty obj (c_str key) value in
      JSB_PRECONDITION3 ok false ∅ (
      let '(ok, strValue) := seval_to_std_string value strValue in
      JSB_PRECONDITION3 ok false ∅ (
      seval_to_std_map_string_string_loop obj rest value strValue
        (cocos2d.emplace key strValue ret)))
  end.

Definition seval_to_std_map_string_string (v : se.Value) (ret : gmap string string)
    : outcome (bool * gmap string string) :=
  if se.isNullOrUndefined v then Returned (true, ∅)
  else
    _ ← assert_ (se.isObject v);
    JSB_PRECONDITION3 (negb (se.isNullOrUndefined v)) false ∅ (
    obj ← se.toObject v;
    seval_to_std_map_string_string_loop obj (se.getAllKeys obj) se.Undefined EmptyString ret).

(** [sevals_variadic_to_ccvaluevector]: the call arguments, converted one
    after the other into the same local. *)
Fixpoint sevals_variadic_to_ccvaluevector_loop (args : list se.Value)
    (ccvalue : cocos2d.Value) (ret : list cocos2d.Value)
    : outcome (bool * list cocos2d.Value) :=
  match args with
  | [] => Returned (true, ret)
  | arg :: rest =>
      '(ok, ccvalue) ← seval_to_ccvalue arg ccvalue;
      JSB_PRECONDITION3 ok false [] (
      sevals_variadic_to_ccvaluevector_loop rest ccvalue (ret ++ [ccvalue]))
  end.

Definition sevals_variadic_to_ccvaluevector (args : list se.Value)
    (ret : list cocos2d.Value) : outcome (bool * list cocos2d.Value) :=
  sevals_variadic_to_ccvaluevector_loop args cocos2d.NONE ret.

End MoreConversions.

(* ===================================================================== *)
(** * Further native to script conversions *)
(* ===================================================================== *)

Definition Vec2_to_seval (v : cocos2d.Vec2) (ret : se.Value) : bool * se.Value :=
  let obj := seobj.createPlainObject in
  let obj := seobj.setProperty obj "x" (seobj.of_float (cocos2d.x v)) in
  let obj := seobj.setProperty obj "y" (seobj.of_float (cocos2d.y v)) in
  (true, se.Obj obj).

Definition Vec3_to_seval (v : Vec3.t) (ret : se.Value) : bool * se.Value :=
  let obj := seobj.createPlainObject in
  let obj := seobj.setProperty obj "x" (seobj.of_float (Vec3.x v)) in
  let obj := seobj.setProperty obj "y" (seobj.of_float (Vec3.y v)) in
  let obj := seobj.setProperty obj "z" (seobj.of_float (Vec3.z v)) in
  (true, se.Obj obj).

Definition Vec4_to_seval (v : Vec4.t) (ret : se.Value) : bool * se.Value :=
  let obj := seobj.createPlainObject in
  let obj := seobj.setProperty obj "x" (seobj.of_float (Vec4.x v)) in
  let obj := seobj.setProperty obj "y" (seobj.of_float (Vec4.y v)) in
  let obj := seobj.setProperty obj "z" (seobj.of_float (Vec4.z v)) in
  let obj := seobj.setProperty obj "w" (seobj.of_float (Vec4.w v)) in
  (true, se.Obj obj).

Definition Size_to_seval (v : cocos2d.Size) (ret : se.Value) : bool * se.Value :=
  let obj := seobj.createPlainObject in
  let obj := seobj.setProperty obj "width" (seobj.of_float (cocos2d.width v)) in
  let obj := seobj.setProperty obj "height" (seobj.of_float (cocos2d.height v)) in
  (true, se.Obj obj).

Definition Rect_to_seval (v : Rect.t) (ret : se.Value) : bool * se.Value :=
  let obj := seobj.createPlainObject in
  let obj := seobj.setProperty obj "x" (seobj.of_float (cocos2d.x (Rect.origin v))) in
  let obj := seobj.setProperty obj "y" (seobj.of_float (cocos2d.y (Rect.origin v))) in
  let obj := seobj.setProperty obj "width" (seobj.of_float (cocos2d.width (Rect.size v))) in
  let obj := seobj.setProperty obj "height" (seobj.of_float (cocos2d.height (Rect.size v))) in
  (true, se.Obj obj).

Definition Color3B_to_seval (v : cocos2d.Color3B) (ret : se.Value) : bool * se.Value :=
  let obj := seobj.createPlainObject in
  let obj := seobj.setProperty obj "r" (seobj.of_int (cocos2d.r v)) in
  let obj := seobj.setProperty obj "g" (seobj.of_int (cocos2d.g v)) in
  let obj := seobj.setProperty obj "b" (seobj.of_int (cocos2d.b v)) in
  (true, se.Obj obj).

Definition Color4B_to_seval (v : Color4B.t) (ret : se.Value) : bool * se.Value :=
  let obj := seobj.createPlainObject in
  let obj := seobj.setProperty obj "r" (seobj.of_int (Color4B.r v)) in
  let obj := seobj.setProperty obj "g" (seobj.of_int (Color4B.g v)) in
  let obj := seobj.setProperty obj "b" (seobj.of_int (Color4B.b v)) in
  let obj := seobj.setProperty obj "a" (seobj.of_int (Color4B.a v)) in
  (true, se.Obj obj).

Definition Color4F_to_seval (v : Color4F.t) (ret : se.Value) : bool * se.Value :=
  let obj := seobj.createPlainObject in
  let obj := seobj.setProperty obj "r" (seobj.of_float (Color4F.r v)) in
  let obj := seobj.setProperty obj "g" (seobj.of_float (Color4F.g v)) in
  let obj := seobj.setProperty obj "b" (seobj.of_float (Color4F.b v)) in
  let obj := seobj.setProperty obj "a" (seobj.of_float (Color4F.a v)) in
  (true, se.Obj obj).

Definition blendfunc_to_seval (v : BlendFunc.t) (ret : se.Value) : bool * se.Value :=
  let obj := seobj.createPlainObject in
  let obj := seobj.setProperty obj "src" (seobj.of_int (BlendFunc.src v)) in
  let obj := seobj.setProperty obj "dst" (seobj.of_int (BlendFunc.dst v)) in
  (true, se.Obj obj).

Definition Quaternion_to_seval (v : Quaternion.t) (ret : se.Value) : bool * se.Value :=
  let obj := seobj.createPlainObject in
  let obj := seobj.setProperty obj "x" (seobj.of_float (Quaternion.x v)) in
  let obj := seobj.setProperty obj "y" (seobj.of_float (Quaternion.y v)) in
  let obj := seobj.setProperty obj "z" (seobj.of_float (Quaternion.z v)) in
  let obj := seobj.setProperty obj "w" (seobj.of_float (Quaternion.w v)) in
  (true, se.Obj obj).

Definition Acceleration_to_seval (v : Acceleration.t) (ret : se.Value) : bool * se.Value :=
  let obj := seobj.createPlainObject in
  let obj := seobj.setProperty obj "x" (seobj.of_double (Acceleration.x v)) in
  let obj := seobj.setProperty obj "y" (seobj.of_double (Acceleration.y v)) in
  let obj := seobj.setProperty obj "z" (seobj.of_double (Acceleration.z v)) in
  let obj := seobj.setProperty obj "timestamp" (seobj.of_double (Acceleration.timestamp v)) in
  (true, se.Obj obj).

Definition AffineTransform_to_seval (v : AffineTransform.t) (ret : se.Value)
    : bool * se.Value :=
  let obj := seobj.createPlainObject in
  let obj := seobj.setProperty obj "a" (seobj.of_float (AffineTransform.a v)) in
  let obj := seobj.setProperty obj "b" (seobj.of_float (AffineTransform.b v)) in
  let obj := seobj.setProperty obj "c" (seobj.of_float (AffineTransform.c v)) in
  let obj := seobj.setProperty obj "d" (seobj.of_float (AffineTransform.d v)) in
  let obj := seobj.setProperty obj "tx" (seobj.of_float (AffineTransform.tx v)) in
  let obj := seobj.setProperty obj "ty" (seobj.of_float (AffineTransform.ty v)) in
  (true, se.Obj obj).

Definition Viewport_to_seval (v : Viewport.t) (ret : se.Value) : bool * se.Value :=
  let obj := seobj.createPlainObject in
  let obj := seobj.setProperty obj "left" (seobj.of_float (Viewport._left v)) in
  let obj := seobj.setProperty obj "bottom" (seobj.of_float (Viewport._bottom v)) in
  let obj := seobj.setProperty obj "width" (seobj.of_float (Viewport._width v)) in
  let obj := seobj.setProperty obj "height" (seobj.of_float (Viewport._height v)) in
  (true, se.Obj obj).

Definition ResourceData_to_seval (v : ResourceData.t) (ret : se.Value) : bool * se.Value :=
  let obj := seobj.createPlainObject in
  let obj := seobj.setProperty obj "type" (seobj.of_int (ResourceData.type v)) in
  let obj := seobj.setProperty obj "file" (seobj.of_string (ResourceData.file v)) in
  let obj := seobj.setProperty obj "plist" (seobj.of_string (ResourceData.plist v)) in
  (true, se.Obj obj).

Definition std_string_to_seval (v : string) (ret : se.Value) : bool * se.Value :=
  (true, se.String v).

(** [std_vector_T_to_seval]: [of_T] is the [se::Value] constructor for the
    element type.  [setArrayElement] on the array created here does not
    fail, so the branch for its failure is never taken. *)
Definition std_vector_T_to_seval {T : Type} (of_T : T -> se.Value) (v : list T)
    (ret : se.Value) : bool * se.Value :=
  let obj := se.createArrayObject (length v) in
  let '(obj, _) :=
    foldl (fun '(obj, i) value => (se.setArrayElement obj i (of_T value), S i))
          (obj, O) v in
  (true, se.Obj obj).

Definition std_vector_string_to_seval : list string -> se.Value -> bool * se.Value :=
  std_vector_T_to_seval seobj.of_string.
Definition std_vector_int_to_seval : list Z -> se.Value -> bool * se.Value :=
  std_vector_T_to_seval seobj.of_int.
Definition std_vector_float_to_seval : list float -> se.Value -> bool * se.Value :=
  std_vector_T_to_seval seobj.of_float.

(** [std::string]s compare as sequences of bytes, a proper prefix coming
    first. *)
Fixpoint string_le (a b : string) : bool :=
  match a, b with
  | EmptyString, _ => true
  | String.String _ _, EmptyString => false
  | String.String c1 r1, String.String c2 r2 =>
      if (N_of_ascii c1 <? N_of_ascii c2)%N then true
      else if (N_of_ascii c2 <? N_of_ascii c1)%N then false
      else string_le r1 r2
  end.

(** The entries of a [std::map] keyed by strings, as a loop over the map
    meets them: by increasing key. *)
Definition std_map_entries {A : Type} (m : gmap string A) : list (string * A) :=
  merge_sort (fun e1 e2 => string_le e1.1 e2.1) (map_to_list m).

(** The loop of [std_map_string_string_to_seval] over the entries of the
    map.  Where two keys have the same C string the later entry
    overwrites the property set for the earlier one. *)
Fixpoint std_map_string_string_to_seval_loop (entries : list (string * string))
    (obj : se.Object) : bool * se.Object :=
  match entries with
  | [] => (true, obj)
  | (key, value) :: rest =>
      if String.eqb key EmptyString
      then std_map_string_string_to_seval_loop rest obj
      else
        let '(ok, tmp) := std_string_to_seval value se.Undefined in
        if negb ok then (false, obj)
        else std_map_string_string_to_seval_loop rest (seobj.setProperty obj (c_str key) tmp)
  end.

Definition std_map_string_string_to_seval (v : gmap string string) (ret : se.Value)
    : bool * se.Value :=
  let obj := seobj.createPlainObject in
  let '(ok, obj) := std_map_string_string_to_seval_loop (std_map_entries v) obj in
  if ok then (true, se.Obj obj) else (false, se.Undefined).

(** [keyss << e.first]: an [int] printed in decimal. *)
Definition string_of_int (i : Z) : string :=
  DecimalString.NilZero.string_of_int (Z.to_int i).

(** The loops of the [..._to_seval] conversions of containers, given each
    entry with the result of converting its value.  The entries of an
    [unordered_map] come in an order C++ does not fix (here that of
    [map_to_list]); the order shows in the result only when two keys
    have the same C string, and none of the properties below depends on
    it. *)
Fixpoint ccvaluemap_to_seval_loop (entries : list (string * (bool * se.Value)))
    (obj : se.Object) : bool * se.Object :=
  match entries with
  | [] => (true, obj)
  | (key, (ok, tmp)) :: rest =>
      if String.eqb key EmptyString
      then ccvaluemap_to_seval_loop rest obj
      else if negb ok then (false, obj)
      else ccvaluemap_to_seval_loop rest (seobj.setProperty obj (c_str key) tmp)
  end.

Fixpoint ccvaluevector_to_seval_loop (results : list (bool * se.Value))
    (i : nat) (obj : se.Object) : bool * se.Object :=
  match results with
  | [] => (true, obj)
  | (ok, tmp) :: rest =>
      if negb ok then (false, obj)
      else ccvaluevector_to_seval_loop rest (S i) (se.setArrayElement obj i tmp)
  end.

(** [ccvalue_to_seval].  The container cases are the bodies of
    [ccvaluevector_to_seval], [ccvaluemap_to_seval] and
    [ccvaluemapintkey_to_seval]; each element is converted into a fresh
    [se::Value tmp]. *)
Fixpoint ccvalue_to_seval (v : cocos2d.Value) (ret : se.Value) {struct v}
    : bool * se.Value :=
  match v with
  | cocos2d.BOOLEAN b => (true, se.Boolean b)
  | cocos2d.FLOAT f => (true, se.Number (double_of_float f))
  | cocos2d.DOUBLE d => (true, se.Number d)
  | cocos2d.INTEGER i => (true, se.Number (double_of_Z i))
  | cocos2d.STRING s => (true, se.String s)
  | cocos2d.VECTOR l =>
      let '(ok, obj) :=
        ccvaluevector_to_seval_loop
          (map (fun value => ccvalue_to_seval value se.Undefined) l)
          O (se.createArrayObject (length l)) in
      if ok then (true, se.Obj obj) else (false, se.Undefined)
  | cocos2d.MAP m =>
      let '(ok, obj) :=
        ccvaluemap_to_seval_loop
          (map_to_list ((fun value => ccvalue_to_seval value se.Undefined) <$> m))
          seobj.createPlainObject in
      if ok then (true, se.Obj obj) else (false, se.Undefined)
  | cocos2d.INT_KEY_MAP m =>
      let '(ok, obj) :=
        ccvaluemap_to_seval_loop
          (map (fun e => (string_of_int (fst e), snd e))
             (map_to_list ((fun value => ccvalue_to_seval value se.Undefined) <$> m)))
          seobj.createPlainObject in
      if ok then (true, se.Obj obj) else (false, se.Undefined)
  | _ => (false, ret)
  end.

Definition ccvaluevector_to_seval (v : list cocos2d.Value) (ret : se.Value)
    : bool * se.Value :=
  ccvalue_to_seval (cocos2d.VECTOR v) ret.

Definition ccvaluemap_to_seval (v : gmap string cocos2d.Value) (ret : se.Value)
    : bool * se.Value :=
  ccvalue_to_seval (cocos2d.MAP v) ret.

Definition ccvaluemapintkey_to_seval (v : gmap Z cocos2d.Value) (ret : se.Value)
    : bool * se.Value :=
  ccvalue_to_seval (cocos2d.INT_KEY_MAP v) ret.

(** The casts [(int32_t)v._alignment] and [(int32_t)v._vertAlignment]. *)
Definition TextHAlignment_to_int (a : cocos2d.TextHAlignment) : Z :=
  match a with
  | cocos2d.LEFT => 0 | cocos2d.CENTER => 1 | cocos2d.RIGHT => 2
  | cocos2d.TextHAlignment_other i => i
  end.
Definition TextVAlignment_to_int (a : cocos2d.TextVAlignment) : Z :=
  match a with
  | cocos2d.TOP => 0 | cocos2d.VCENTER => 1 | cocos2d.BOTTOM => 2
  | cocos2d.TextVAlignment_other i => i
  end.

(** [FontDefinition_to_seval]: the [do { ... } while (false)] block is
    left by [break] when a colour does not convert; the object built so
    far is stored in [ret] in either case. *)
Definition FontDefinition_to_seval (v : cocos2d.FontDefinition) (ret : se.Value)
    : bool * se.Value :=
  let tmp := se.Undefined in
  let obj := seobj.createPlainObject in
  let obj := seobj.setProperty obj "fontName" (seobj.of_string (cocos2d._fontName v)) in
  let obj := seobj.setProperty obj "fontSize" (seobj.of_int (cocos2d._fontSize v)) in
  let obj := seobj.setProperty obj "textAlign"
               (seobj.of_int (TextHAlignment_to_int (cocos2d._alignment v))) in
  let obj := seobj.setProperty obj "verticalAlign"
               (seobj.of_int (TextVAlignment_to_int (cocos2d._vertAlignment v))) in
  let '(ok, tmp) := Color3B_to_seval (cocos2d._fontFillColor v) tmp in
  if negb ok then (false, se.Obj obj)
  else
    let obj := seobj.setProperty obj "fillStyle" tmp in
    let obj := seobj.setProperty obj "boundingWidth"
                 (seobj.of_float (cocos2d.width (cocos2d._dimensions v))) in
    let obj := seobj.setProperty obj "boundingHeight"
                 (seobj.of_float (cocos2d.height (cocos2d._dimensions v))) in
    let obj := seobj.setProperty obj "shadowEnabled"
                 (seobj.of_bool (cocos2d._shadowEnabled (cocos2d._shadow v))) in
    let obj := seobj.setProperty obj "shadowOffsetX"
                 (seobj.of_float (cocos2d.width (cocos2d._shadowOffset (cocos2d._shadow v)))) in
    let obj := seobj.setProperty obj "shadowOffsetY"
                 (seobj.of_float (cocos2d.height (cocos2d._shadowOffset (cocos2d._shadow v)))) in
    let obj := seobj.setProperty obj "shadowBlur"
                 (seobj.of_float (cocos2d._shadowBlur (cocos2d._shadow v))) in
    let obj := seobj.setProperty obj "shadowOpacity"
                 (seobj.of_float (cocos2d._shadowOpacity (cocos2d._shadow v))) in
    let obj := seobj.setProperty obj "strokeEnabled"
                 (seobj.of_bool (cocos2d._strokeEnabled (cocos2d._stroke v))) in
    let '(ok, tmp) := Color3B_to_seval (cocos2d._strokeColor (cocos2d._stroke v)) tmp in
    if negb ok then (false, se.Obj obj)
    else
      let obj := seobj.setProperty obj "strokeStyle" tmp in
      let obj := seobj.setProperty obj "lineWidth"
                   (seobj.of_float (cocos2d._strokeSize (cocos2d._stroke v))) in
      let obj := seobj.setProperty obj "strokeAlpha"
                   (seobj.of_int (cocos2d._strokeAlpha (cocos2d._stroke v))) in
      (true, se.Obj obj).

(* ===================================================================== *)
(** * Notions used in the statements *)
(* ===================================================================== *)

(** The allocation invariant: every entry is [1 << k] for an offset [k]
    of its own below the counter, and the counter counts the entries. *)
Definition registry_inv (st : Registry) : Prop :=
  exists offs : gmap string Z,
    _name2stageID st = js_shl 1 <$> offs /\
    (forall n k, offs !! n = Some k -> 0 <= k < _stageOffset st) /\
    (forall n1 n2 k, offs !! n1 = Some k -> offs !! n2 = Some k -> n1 = n2) /\
    Z.of_nat (size offs) = _stageOffset st.

(** The textures a window owns, depth-stencil first, then the colour
    textures in slot order. *)
Definition present_textures (this : RenderWindow) : list GFXTexture :=
  option_list (_depthStencilTexture this) ++ omap id (_colorTextures this).

(** The GFX calls of a reallocating [resize]: each owned texture is
    resized to the new size and, if there is at least one and the
    framebuffer resolves, the framebuffer is destroyed and initialised
    again with the same render pass and textures. *)
Definition reallocation_calls (pools : Pools) (this : RenderWindow) (width height : double)
    : list GFXCall :=
  map (fun t => TextureResize t width height) (present_textures this) ++
  match FramebufferPool_get pools (RenderWindowPool_get_FRAMEBUFFER pools (_poolHandle this)) with
  | Some fb =>
      if bool_decide (present_textures this = []) then []
      else [ FramebufferDestroy fb;
             FramebufferInitialize fb
               {| fbi_renderPass := _renderPass this;
                  fbi_colorTextures := _colorTextures this;
                  fbi_depthStencilTexture := _depthStencilTexture this |} ]
  | None => []
  end.

(* ===================================================================== *)
(** * Concrete configurations used in examples *)
(* ===================================================================== *)

(** A debug build (assertions active) and a release build. *)
Definition debug_build : BuildConfig := {| NDEBUG := false; COCOS2D_DEBUG := true |}.
Definition release_build : BuildConfig := {| NDEBUG := true; COCOS2D_DEBUG := false |}.

(** Truncation of a number toward zero (0 for infinities and NaN). *)
Definition trunc_double (d : double) : Z :=
  match d with
  | S754_finite s m e =>
      let a := match e with
               | Zneg p => Z.shiftr (Zpos m) (Zpos p)
               | _ => Z.shiftl (Zpos m) e
               end in
      if s then - a else a
  | _ => 0
  end.

(** One admissible implementation of the integer casts: truncate, then
    wrap to the width of the target type. *)
Definition wrapping_casts : IntegerCasts :=
  {| toInt32 := fun d => wrap_int32 (trunc_double d);
     toUint8 := fun d => trunc_double d mod 2 ^ 8;
     toUint16 := fun d => trunc_double d mod 2 ^ 16 |}.

(** An outcome that is a return with result [false]. *)
Definition returns_false {T : Type} (o : outcome (bool * T)) : Prop :=
  exists t, o = Returned (false, t).

(** The scripting objects [{x:1, y:2}], [{x:1}] and
    [{fontName:"", shadowEnabled:true}]. *)
Definition obj_x1_y2 : se.Value :=
  se.Obj (se.PlainObject [("x"%string, se.Number (double_of_Z 1));
                          ("y"%string, se.Number (double_of_Z 2))]).
Definition obj_x1 : se.Value :=
  se.Obj (se.PlainObject [("x"%string, se.Number (double_of_Z 1))]).
Definition obj_emptyName_shadow : se.Value :=
  se.Obj (se.PlainObject [("fontName"%string, se.String EmptyString);
                          ("shadowEnabled"%string, se.Boolean true)]).

(** A render window allocated at 800x600 with one owned colour texture and
    a depth-stencil texture, and pools resolving its framebuffer. *)
Definition window_800x600 : RenderWindow :=
  {| _title := EmptyString;
     _width := double_of_Z 800; _height := double_of_Z 600;
     _nativeWidth := double_of_Z 800; _nativeHeight := double_of_Z 600;
     _renderPass := Some 0%nat; _colorTextures := [Some 1%nat];
     _depthStencilTexture := Some 2%nat;
     _swapchainBufferIndices := 0; _shouldSyncSizeWithSwapchain := false;
     _poolHandle := 1 |}.
Definition example_pools : Pools :=
  {| RenderWindowPool_get_FRAMEBUFFER := fun h => h;
     FramebufferPool_get := fun h => if h =? 1 then Some 7%nat else None |}.

(* ===================================================================== *)
(** * Further notions and configurations *)
(* ===================================================================== *)

(** One admissible implementation of the cast to [uint32_t]: truncate,
    then wrap. *)
Definition wrapping_ucasts : UnsignedCasts :=
  {| toUint32 := fun d => trunc_double d mod 2 ^ 32 |}.

(** The native values [ccvalue_to_seval] has a case for, at every level
    of nesting it visits (the entry of a map under the empty key is
    passed over). *)
Inductive convertible : cocos2d.Value -> Prop :=
  | convertible_BOOLEAN (b : bool) : convertible (cocos2d.BOOLEAN b)
  | convertible_INTEGER (i : Z) : convertible (cocos2d.INTEGER i)
  | convertible_FLOAT (f : float) : convertible (cocos2d.FLOAT f)
  | convertible_DOUBLE (d : double) : convertible (cocos2d.DOUBLE d)
  | convertible_STRING (s : string) : convertible (cocos2d.STRING s)
  | convertible_VECTOR (l : list cocos2d.Value) :
      Forall convertible l -> convertible (cocos2d.VECTOR l)
  | convertible_MAP (m : gmap string cocos2d.Value) :
      map_Forall (fun k v => k <> EmptyString -> convertible v) m ->
      convertible (cocos2d.MAP m)
  | convertible_INT_KEY_MAP (m : gmap Z cocos2d.Value) :
      map_Forall (fun _ v => convertible v) m -> convertible (cocos2d.INT_KEY_MAP m).

(** What a native value looks like once it has been to the script side
    and back: a script number carries no trace of the native type it came
    from, an object none of the type of its keys, and entries under the
    empty key are not sent. *)
Fixpoint roundtrip_image (v : cocos2d.Value) : cocos2d.Value :=
  match v with
  | cocos2d.INTEGER i => cocos2d.DOUBLE (double_of_Z i)
  | cocos2d.FLOAT f => cocos2d.DOUBLE (double_of_float f)
  | cocos2d.VECTOR l => cocos2d.VECTOR (map roundtrip_image l)
  | cocos2d.MAP m => cocos2d.MAP (delete EmptyString (roundtrip_image <$> m))
  | cocos2d.INT_KEY_MAP m =>
      cocos2d.MAP (kmap string_of_int (roundtrip_image <$> m))
  | _ => v
  end.

(** The native values in which no key of a map with string keys holds a
    NUL character, at every level of nesting [ccvalue_to_seval] visits:
    these are the keys that are their own C string. *)
Inductive c_keys : cocos2d.Value -> Prop :=
  | c_keys_VECTOR (l : list cocos2d.Value) :
      Forall c_keys l -> c_keys (cocos2d.VECTOR l)
  | c_keys_MAP (m : gmap string cocos2d.Value) :
      map_Forall (fun k v => c_str k = k /\ (k <> EmptyString -> c_keys v)) m ->
      c_keys (cocos2d.MAP m)
  | c_keys_INT_KEY_MAP (m : gmap Z cocos2d.Value) :
      map_Forall (fun _ v => c_keys v) m -> c_keys (cocos2d.INT_KEY_MAP m)
  | c_keys_scalar (v : cocos2d.Value) :
      match v with
      | cocos2d.VECTOR _ | cocos2d.MAP _ | cocos2d.INT_KEY_MAP _ => False
      | _ => True
      end -> c_keys v.

(** Size of a native value, the measure for induction over values. *)
Fixpoint ccvalue_size (v : cocos2d.Value) : nat :=
  match v with
  | cocos2d.VECTOR l => S (list_sum (map ccvalue_size l))
  | cocos2d.MAP m => S (map_fold (fun _ n acc => (n + acc)%nat) O (ccvalue_size <$> m))
  | cocos2d.INT_KEY_MAP m =>
      S (map_fold (fun _ n acc => (n + acc)%nat) O (ccvalue_size <$> m))
  | _ => O
  end.

(** A font description as [FontDefinition_to_seval] followed by
    [seval_to_FontDefinition] hands it over: the parameters of a shadow
    or stroke that is switched off are not read back, the output keeps
    what it held. *)
Definition FontDefinition_received (v out : cocos2d.FontDefinition) : cocos2d.FontDefinition :=
  {| cocos2d._fontName := cocos2d._fontName v;
     cocos2d._fontSize := cocos2d._fontSize v;
     cocos2d._alignment := cocos2d._alignment v;
     cocos2d._vertAlignment := cocos2d._vertAlignment v;
     cocos2d._dimensions := cocos2d._dimensions v;
     cocos2d._fontFillColor := cocos2d._fontFillColor v;
     cocos2d._shadow :=
       if cocos2d._shadowEnabled (cocos2d._shadow v) then cocos2d._shadow v
       else {| cocos2d._shadowEnabled := false;
               cocos2d._shadowOffset := cocos2d._shadowOffset (cocos2d._shadow out);
               cocos2d._shadowBlur := cocos2d._shadowBlur (cocos2d._shadow out);
               cocos2d._shadowOpacity := cocos2d._shadowOpacity (cocos2d._shadow out) |};
     cocos2d._stroke :=
       if cocos2d._strokeEnabled (cocos2d._stroke v) then cocos2d._stroke v
       else {| cocos2d._strokeEnabled := false;
               cocos2d._strokeColor := cocos2d._strokeColor (cocos2d._stroke out);
               cocos2d._strokeAlpha := cocos2d._strokeAlpha (cocos2d._stroke out);
               cocos2d._strokeSize := cocos2d._strokeSize (cocos2d._stroke out) |} |}.

(** Well-formedness of a font description: binary32 values in the
    [float] fields, colour channels that are bytes, a named alignment. *)
Definition Color3B_wf (c : cocos2d.Color3B) : Prop :=
  0 <= cocos2d.r c < 256 /\ 0 <= cocos2d.g c < 256 /\ 0 <= cocos2d.b c < 256.

Definition FontDefinition_wf (v : cocos2d.FontDefinition) : Prop :=
  valid_float (cocos2d.width (cocos2d._dimensions v)) = true /\
  valid_float (cocos2d.height (cocos2d._dimensions v)) = true /\
  valid_float (cocos2d.width (cocos2d._shadowOffset (cocos2d._shadow v))) = true /\
  valid_float (cocos2d.height (cocos2d._shadowOffset (cocos2d._shadow v))) = true /\
  valid_float (cocos2d._shadowBlur (cocos2d._shadow v)) = true /\
  valid_float (cocos2d._shadowOpacity (cocos2d._shadow v)) = true /\
  valid_float (cocos2d._strokeSize (cocos2d._stroke v)) = true /\
  Color3B_wf (cocos2d._fontFillColor v) /\
  Color3B_wf (cocos2d._strokeColor (cocos2d._stroke v)) /\
  cocos2d.TextHAlignment_of_int (TextHAlignment_to_int (cocos2d._alignment v))
    = cocos2d._alignment v /\
  cocos2d.TextVAlignment_of_int (TextVAlignment_to_int (cocos2d._vertAlignment v))
    = cocos2d._vertAlignment v.

(** Script values made of numbers, booleans, strings and arrays of
    such. *)
Inductive array_like : se.Value -> Prop :=
  | array_like_Number (d : double) : array_like (se.Number d)
  | array_like_Boolean (b : bool) : array_like (se.Boolean b)
  | array_like_String (s : string) : array_like (se.String s)
  | array_like_Array (l : list se.Value) :
      Forall array_like l -> array_like (se.Obj (se.ArrayObject l)).

(* ===================================================================== *)
(** * Properties: numbers *)
(* ===================================================================== *)

Lemma iter_pos_iter {A} (f : A -> A) p : forall a, SpecFloat.iter_pos f p a = Pos.iter f a p.
Proof.
  induction p as [p IH|p IH|]; intros a; simpl.
  - rewrite !IH. now rewrite <- !Pos.iter_swap.
  - now rewrite !IH.
  - reflexivity.
Qed.

Lemma digits2_pos_shift mant d :
  digits2_pos (Pos.iter xO mant d) = (digits2_pos mant + d)%positive.
Proof.
  induction d as [|d IH] using Pos.peano_ind.
  - simpl. lia.
  - rewrite Pos.iter_succ. simpl. rewrite IH. lia.
Qed.

Lemma shr_1_shift mant d :
  SpecFloat.iter_pos shr_1 d (Build_shr_record (Zpos (Pos.iter xO mant d)) false false)
  = Build_shr_record (Zpos mant) false false.
Proof.
  rewrite iter_pos_iter.
  induction d as [|d IH] using Pos.peano_ind.
  - reflexivity.
  - rewrite Pos.iter_succ_r, Pos.iter_succ. simpl. exact IH.
Qed.

(** Rounding a value that is already canonical in the target format is
    exact. *)
Lemma binary_round_aux_canonical prec emax s mant e :
  bounded prec emax mant e = true ->
  binary_round_aux prec emax s (Zpos mant) e loc_Exact = S754_finite s mant e.
Proof.
  unfold bounded, canonical_mantissa. intros Hb.
  apply andb_prop in Hb as [Hc Hb]. apply Z.eqb_eq in Hc.
  unfold binary_round_aux, shr_fexp. cbn [Zdigits2 shr_record_of_loc].
  rewrite Hc, Z.sub_diag.
  cbn [shr shr_m loc_of_shr_record round_nearest_even Zdigits2 shr_record_of_loc].
  rewrite Hc, Z.sub_diag. cbn [shr shr_m]. now rewrite Hb.
Qed.

(** Widening a [float] to a [double] and narrowing it back is the
    identity on every binary32 value. *)
Lemma toFloat_double_of_float (f : float) :
  valid_float f = true -> toFloat (double_of_float f) = f.
Proof.
  unfold valid_float, toFloat, double_of_float.
  destruct f as [s|s| |s mant e]; try reflexivity.
  cbn [valid_binary round_to]. intros Hv.
  pose proof Hv as Hv'. unfold bounded, canonical_mantissa in Hv'.
  apply andb_prop in Hv' as [Hc Hb]. apply Z.eqb_eq in Hc. apply Z.leb_le in Hb.
  unfold fexp, emin in Hc.
  set (dg := Zpos (digits2_pos mant)) in *.
  assert (Hdg : 0 < dg) by (unfold dg; lia).
  assert (Hd53 : exists d, Zpos d = 53 - dg).
  { destruct (53 - dg) eqn:E; try lia. eauto. }
  destruct Hd53 as [d Hd].
  assert (Hw : binary_round 53 1024 s mant e
               = S754_finite s (Pos.iter xO mant d) (e - Zpos d)).
  { unfold binary_round, shl_align. fold dg.
    replace (fexp 53 1024 (dg + e)) with (e - Zpos d) by (unfold fexp, emin; lia).
    replace (e - Zpos d - e) with (Zneg d) by lia.
    apply (binary_round_aux_canonical 53 1024 s (Pos.iter xO mant d) (e - Zpos d)).
    unfold bounded, canonical_mantissa. rewrite digits2_pos_shift.
    apply andb_true_intro; split; [apply Z.eqb_eq | apply Z.leb_le];
      unfold fexp, emin; lia. }
  rewrite Hw. cbn [round_to]. unfold binary_round, shl_align.
  rewrite digits2_pos_shift.
  replace (fexp 24 128 (Z.pos (digits2_pos mant + d) + (e - Z.pos d))) with e
    by (unfold fexp, emin; lia).
  replace (e - (e - Zpos d)) with (Zpos d) by lia.
  unfold binary_round_aux, shr_fexp. cbn [Zdigits2 shr_record_of_loc].
  rewrite digits2_pos_shift.
  replace (fexp 24 128 (Z.pos (digits2_pos mant + d) + (e - Z.pos d))) with e
    by (unfold fexp, emin; lia).
  replace (e - (e - Zpos d)) with (Zpos d) by lia.
  cbn [shr]. rewrite shr_1_shift.
  cbn [shr_m loc_of_shr_record round_nearest_even Zdigits2 shr_record_of_loc].
  replace (e - Z.pos d + Z.pos d) with e by lia.
  replace (fexp 24 128 (Z.pos (digits2_pos mant) + e) - e) with 0
    by (unfold fexp, emin; lia).
  cbn [shr shr_m].
  replace (e <=? 128 - 24) with true by (symmetry; apply Z.leb_le; lia).
  reflexivity.
Qed.

(** Small integer literals denote the same number at both types. *)
Example toFloat_literals :
  toFloat (double_of_Z 1) = float_of_Z 1 /\ toFloat (double_of_Z 2) = float_of_Z 2.
Proof. split; reflexivity. Qed.

(** For shift counts below 32 the shift either gives a power of two or, at
    31, the sign bit. *)
Lemma js_shl_1 k :
  0 <= k < 32 -> js_shl 1 k = if k =? 31 then - 2 ^ 31 else 2 ^ k.
Proof.
  intros Hk.
  assert (Hc : In k (map Z.of_nat (seq 0 32))).
  { apply in_map_iff. exists (Z.to_nat k). split; [lia | apply in_seq; lia]. }
  cbn in Hc.
  repeat (destruct Hc as [<- | Hc]; [vm_compute; reflexivity |]).
  destruct Hc.
Qed.

Lemma js_shl_1_popcount k : 0 <= k < 32 -> popcount32 (js_shl 1 k) = 1%nat.
Proof.
  intros Hk.
  assert (Hc : In k (map Z.of_nat (seq 0 32))).
  { apply in_map_iff. exists (Z.to_nat k). split; [lia | apply in_seq; lia]. }
  cbn in Hc.
  repeat (destruct Hc as [<- | Hc]; [vm_compute; reflexivity |]).
  destruct Hc.
Qed.

Lemma js_shl_1_inj k1 k2 :
  0 <= k1 < 32 -> 0 <= k2 < 32 -> js_shl 1 k1 = js_shl 1 k2 -> k1 = k2.
Proof.
  intros H1 H2. rewrite !js_shl_1 by assumption.
  destruct (Z.eqb_spec k1 31), (Z.eqb_spec k2 31); intros Heq.
  - congruence.
  - assert (0 < 2 ^ k2) by (apply Z.pow_pos_nonneg; lia). lia.
  - assert (0 < 2 ^ k1) by (apply Z.pow_pos_nonneg; lia). lia.
  - apply (Z.pow_inj_r 2); lia.
Qed.

(* ===================================================================== *)
(** * Properties: render-stage registry *)
(* ===================================================================== *)

Lemma name2stageID_get_None st name :
  name2stageID_get st name = None -> _name2stageID st !! name = None.
Proof.
  unfold name2stageID_get. destruct (_name2stageID st !! name); [discriminate | reflexivity].
Qed.

Lemma name2stageID_get_registered st name :
  registered st name -> exists id,
    _name2stageID st !! name = Some id /\ name2stageID_get st name = Some (StageNumber id).
Proof.
  intros [id Hid]. exists id. split; [exact Hid |].
  unfold name2stageID_get. now rewrite Hid.
Qed.

Lemma registry_inv_initial : registry_inv initial_registry.
Proof.
  exists ∅. unfold initial_registry. cbn [_name2stageID _stageOffset].
  split; [symmetry; apply fmap_empty |].
  split; [intros n k Hk; now rewrite lookup_empty in Hk |].
  split; [intros n1 n2 k Hk; now rewrite lookup_empty in Hk |].
  reflexivity.
Qed.

Lemma registry_inv_addStage name st :
  registry_inv st -> registry_inv (addStage name st).
Proof.
  intros (offs & Hmap & Hrange & Hinj & Hsize).
  unfold addStage. destruct (name2stageID_get st name) eqn:Hget.
  { exists offs. auto. }
  apply name2stageID_get_None in Hget.
  assert (Hfresh : offs !! name = None).
  { rewrite Hmap, lookup_fmap in Hget. now destruct (offs !! name). }
  exists (<[name := _stageOffset st]> offs). cbn [_name2stageID _stageOffset].
  split; [now rewrite Hmap, fmap_insert |].
  split; [| split].
  - intros n k Hk. destruct (decide (name = n)) as [<-|Hne].
    + rewrite lookup_insert_eq in Hk. injection Hk as <-.
      pose proof (Nat2Z.is_nonneg (size offs)). lia.
    + rewrite lookup_insert_ne in Hk by assumption. apply Hrange in Hk. lia.
  - intros n1 n2 k H1 H2.
    destruct (decide (name = n1)) as [<-|Hne1], (decide (name = n2)) as [<-|Hne2];
      [reflexivity | | |].
    + rewrite lookup_insert_eq in H1. injection H1 as <-.
      rewrite lookup_insert_ne in H2 by assumption. apply Hrange in H2. lia.
    + rewrite lookup_insert_eq in H2. injection H2 as <-.
      rewrite lookup_insert_ne in H1 by assumption. apply Hrange in H1. lia.
    + rewrite lookup_insert_ne in H1, H2 by assumption. eauto.
  - rewrite map_size_insert_None by assumption. lia.
Qed.

Lemma registry_inv_addStages names st :
  registry_inv st -> registry_inv (addStages names st).
Proof.
  revert st. induction names as [|name names IH]; intros st Hinv; [exact Hinv |].
  cbn. apply IH, registry_inv_addStage, Hinv.
Qed.

(** Only names passed to [addStage] ever get an entry. *)
Lemma addStage_dom name st :
  dom (_name2stageID (addStage name st)) ⊆ dom (_name2stageID st) ∪ {[name]}.
Proof.
  unfold addStage. destruct (name2stageID_get st name); cbn.
  - set_solver.
  - rewrite dom_insert_L. set_solver.
Qed.

Lemma addStages_dom names st :
  dom (_name2stageID (addStages names st))
  ⊆ dom (_name2stageID st) ∪ list_to_set names.
Proof.
  revert st. induction names as [|name names IH]; intros st; cbn.
  - set_solver.
  - specialize (IH (addStage name st)). pose proof (addStage_dom name st). set_solver.
Qed.

(** An entry, once made, is never changed by later calls. *)
Lemma addStage_keeps name name' st id :
  _name2stageID st !! name' = Some id ->
  _name2stageID (addStage name st) !! name' = Some id.
Proof.
  intros Hid. unfold addStage. destruct (name2stageID_get st name) eqn:Hget; [exact Hid |].
  cbn. apply name2stageID_get_None in Hget.
  rewrite lookup_insert_ne; [exact Hid | congruence].
Qed.

(** A name passed to [addStage] gets an entry unless it names a member
    inherited from [Object.prototype]. *)
Lemma addStage_registers name st :
  name ∉ ObjectPrototype -> registered (addStage name st) name.
Proof.
  intros Hproto. unfold registered, addStage, name2stageID_get.
  destruct (_name2stageID st !! name) eqn:Hown; [rewrite Hown; eauto |].
  rewrite bool_decide_eq_false_2 by assumption. cbn.
  rewrite lookup_insert_eq. eauto.
Qed.

Lemma addStages_keeps names name st :
  registered st name -> registered (addStages names st) name.
Proof.
  revert st. induction names as [|n names IH]; intros st Hreg; [exact Hreg |].
  cbn. apply IH. destruct Hreg as [id Hid]. exists id. now apply addStage_keeps.
Qed.

Lemma addStages_registers names name st :
  name ∈ names -> name ∉ ObjectPrototype -> registered (addStages names st) name.
Proof.
  revert st. induction names as [|n names IH]; intros st Hin Hproto.
  - now apply elem_of_nil in Hin.
  - cbn. apply elem_of_cons in Hin as [->|Hin].
    + now apply addStages_keeps, addStage_registers.
    + now apply IH.
Qed.

(** C4.  A name inherited from [Object.prototype] is never given a bit
    of its own.  On the fresh registry [addStage "toString"] finds the
    inherited member where it looks for an earlier entry, takes the name
    for already added, stores nothing and leaves the offset at 0; after
    it [stageID "toString"] returns the inherited member and so no
    number at all, with one bit set or otherwise. *)
Theorem addStage_toString :
  addStage "toString" initial_registry = initial_registry /\
  _name2stageID (addStage "toString" initial_registry) !! "toString"%string = None /\
  _stageOffset (addStage "toString" initial_registry) = 0 /\
  stageID "toString" (addStage "toString" initial_registry) = Inherited "toString" /\
  (forall id : Z,
     stageID "toString" (addStage "toString" initial_registry) <> StageNumber id).
Proof. repeat split; try reflexivity. intros id. discriminate. Qed.

(** X28.  For every other name the allocation is as intended.  After any
    sequence of [addStage] calls, starting from the empty registry, that
    names fewer than 32 distinct stages, [stageID] of every name the
    registry holds an entry for is a number [1 << k] with [k] below 32,
    which has exactly one of its 32 bits set, and two distinct such names
    never get the same number.  The names with an entry include every
    name of the sequence that is not a member inherited from
    [Object.prototype]. *)
Theorem stageID_single_bit_distinct (names : list string) :
  (size (list_to_set names : gset string) < 32)%nat ->
  let st := addStages names initial_registry in
  (forall name, registered st name ->
     exists k, 0 <= k < 32 /\
       stageID name st = StageNumber (js_shl 1 k) /\
       popcount32 (js_shl 1 k) = 1%nat) /\
  (forall name1 name2, registered st name1 -> registered st name2 ->
     name1 <> name2 -> stageID name1 st <> stageID name2 st) /\
  (forall name, name ∈ names -> name ∉ ObjectPrototype -> registered st name).
Proof.
  intros Hfew st.
  destruct (registry_inv_addStages names _ registry_inv_initial)
    as (offs & Hmap & Hrange & Hinj & Hsize).
  fold st in Hmap, Hrange, Hsize.
  assert (Hbound : _stageOffset st < 32).
  { rewrite <- Hsize.
    assert (size offs <= size (list_to_set names : gset string))%nat; [| lia].
    rewrite <- (size_dom offs).
    apply subseteq_size.
    pose proof (addStages_dom names initial_registry) as Hdom. fold st in Hdom.
    rewrite Hmap, dom_fmap_L in Hdom. cbn in Hdom. set_solver. }
  assert (Hlook : forall name, registered st name ->
            exists k, 0 <= k < 32 /\ offs !! name = Some k /\
                      stageID name st = StageNumber (js_shl 1 k)).
  { intros name Hreg.
    destruct (name2stageID_get_registered st name Hreg) as (id & Hid & Hget).
    rewrite Hmap, lookup_fmap in Hid.
    destruct (offs !! name) as [k|] eqn:Hk; [| discriminate].
    cbn in Hid. injection Hid as <-.
    exists k. split; [apply Hrange in Hk; lia |]. split; [reflexivity |].
    unfold stageID. now rewrite Hget. }
  split; [| split]; [| | intros name Hin Hproto; now apply addStages_registers].
  - intros name Hreg. destruct (Hlook name Hreg) as (k & Hk & _ & Hid).
    exists k. split; [exact Hk |]. split; [exact Hid |].
    now apply js_shl_1_popcount.
  - intros name1 name2 Hreg1 Hreg2 Hne Heq.
    destruct (Hlook name1 Hreg1) as (k1 & Hk1 & Ho1 & Hid1).
    destruct (Hlook name2 Hreg2) as (k2 & Hk2 & Ho2 & Hid2).
    rewrite Hid1, Hid2 in Heq. injection Heq as Heq.
    apply js_shl_1_inj in Heq; [| assumption | assumption].
    subst k2. apply Hne. eapply Hinj; eassumption.
Qed.

Lemma stageID_single_bit_distinct_witness :
  (size (list_to_set ["default"; "forward"; "default"]%string : gset string) < 32)%nat /\
  let st := addStages ["default"; "forward"; "default"]%string initial_registry in
  (forall name, registered st name ->
     exists k, 0 <= k < 32 /\
       stageID name st = StageNumber (js_shl 1 k) /\
       popcount32 (js_shl 1 k) = 1%nat) /\
  (forall name1 name2, registered st name1 -> registered st name2 ->
     name1 <> name2 -> stageID name1 st <> stageID name2 st) /\
  (forall name, name ∈ ["default"; "forward"; "default"]%string ->
     name ∉ ObjectPrototype -> registered st name).
Proof.
  assert (Hfew : (size (list_to_set ["default"; "forward"; "default"]%string
                          : gset string) < 32)%nat) by (vm_compute; lia).
  split; [exact Hfew |].
  exact (stageID_single_bit_distinct ["default"; "forward"; "default"]%string Hfew).
Defined.

(** The numbers behind the example: bits 0 and 1, the repeated name
    keeping its first bit. *)
Example addStages_default_forward :
  let st := addStages ["default"; "forward"; "default"]%string initial_registry in
  stageID "default" st = StageNumber 1 /\ stageID "forward" st = StageNumber 2 /\
  stageID "unknown" st = StageNumber (-1) /\ _stageOffset st = 2 /\
  stageIDs ["default"; "unknown"]%string st = 1.
Proof. vm_compute. repeat split; reflexivity. Qed.

(** C7.  On a name that is already registered [addStage] changes nothing:
    the whole registry, hence the name's bitmask and the bit-offset
    counter, is as before. *)
Theorem addStage_idempotent (st : Registry) (name : string) :
  registered st name ->
  addStage name st = st /\
  stageID name (addStage name st) = stageID name st /\
  _stageOffset (addStage name st) = _stageOffset st.
Proof.
  intros Hreg.
  assert (Hsame : addStage name st = st).
  { destruct (name2stageID_get_registered st name Hreg) as (id & _ & Hget).
    unfold addStage. now rewrite Hget. }
  rewrite Hsame. auto.
Qed.

Lemma addStage_idempotent_witness :
  let st := addStage "default" initial_registry in
  registered st "default" /\
  addStage "default" st = st /\
  stageID "default" (addStage "default" st) = stageID "default" st /\
  _stageOffset (addStage "default" st) = _stageOffset st.
Proof.
  assert (Hreg : registered (addStage "default" initial_registry) "default")
    by (exists 1; reflexivity).
  split; [exact Hreg |].
  exact (addStage_idempotent (addStage "default" initial_registry) "default" Hreg).
Defined.

(* ===================================================================== *)
(** * Properties: render pipeline *)
(* ===================================================================== *)

(** C8.  On a pipeline that has a device, [isOcclusionQueryEnabled]
    returns the conjunction of the enable flag and the device's
    [supportQuery] capability: [true] exactly when both hold, [false] as
    soon as either is [false]. *)
Theorem isOcclusionQueryEnabled_spec (p : RenderPipeline) (d : Device) :
  _device p = Some d ->
  isOcclusionQueryEnabled p
    = Returned (_occlusionQueryEnabled p && supportQuery (getCapabilities d)) /\
  (isOcclusionQueryEnabled p = Returned true <->
     _occlusionQueryEnabled p = true /\ supportQuery (getCapabilities d) = true) /\
  (_occlusionQueryEnabled p = false \/ supportQuery (getCapabilities d) = false ->
     isOcclusionQueryEnabled p = Returned false).
Proof.
  intros Hdev. unfold isOcclusionQueryEnabled. rewrite Hdev.
  destruct (_occlusionQueryEnabled p), (supportQuery (getCapabilities d)); cbn;
    (split; [reflexivity |]); split;
    try (split; [intros Heq; try discriminate Heq; auto | intros [? ?]; congruence]);
    try (intros [?|?]; congruence).
Qed.

Lemma isOcclusionQueryEnabled_spec_witness :
  let d := {| getCapabilities := {| supportQuery := true |} |} in
  let p := {| _device := Some d; _clusterEnabled := false; _bloomEnabled := false;
              _occlusionQueryEnabled := true |} in
  isOcclusionQueryEnabled p = Returned true.
Proof.
  intros d p.
  destruct (isOcclusionQueryEnabled_spec p d eq_refl) as (Heq & _ & _).
  exact Heq.
Defined.

(** Without a device the flag alone decides as long as it is off; the
    device pointer is not dereferenced then. *)
Lemma isOcclusionQueryEnabled_flag_off (p : RenderPipeline) :
  _occlusionQueryEnabled p = false -> isOcclusionQueryEnabled p = Returned false.
Proof. intros Hoff. unfold isOcclusionQueryEnabled. now rewrite Hoff. Qed.

Lemma setOcclusionQueryEnabled_flag (enable : bool) (p : RenderPipeline) :
  _occlusionQueryEnabled (setOcclusionQueryEnabled enable p) = enable /\
  _device (setOcclusionQueryEnabled enable p) = _device p.
Proof. split; reflexivity. Qed.

(* ===================================================================== *)
(** * Properties: render window *)
(* ===================================================================== *)

Lemma resize_colorTextures_spec texs width height needRebuild :
  resize_colorTextures texs width height needRebuild
  = (map (fun t => TextureResize t width height) (omap id texs),
     needRebuild || negb (bool_decide (omap id texs = []))).
Proof.
  revert needRebuild. induction texs as [|[t|] texs IH]; intros needRebuild; cbn.
  - now rewrite orb_false_r.
  - rewrite IH. cbn. now rewrite orb_true_r.
  - apply IH.
Qed.

(** C2 (as amended).  [resize(width, height)] always stores the new
    logical size and never changes which textures, render pass and pool
    handle the window refers to.  When the new width exceeds the native
    width or the new height exceeds the native height, both native
    dimensions are set to the new size (also the one that did not exceed),
    the owned textures are resized and the framebuffer is rebuilt;
    otherwise the native size is kept and no GFX call is made at all.  So
    GFX calls are made only in the exceeding case. *)
Theorem resize_spec (pools : Pools) (this : RenderWindow) (width height : double) :
  let this' := fst (resize pools this width height) in
  let calls := snd (resize pools this width height) in
  let exceeds := js_gt width (_nativeWidth this) || js_gt height (_nativeHeight this) in
  _width this' = width /\ _height this' = height /\
  _colorTextures this' = _colorTextures this /\
  _depthStencilTexture this' = _depthStencilTexture this /\
  _renderPass this' = _renderPass this /\
  _poolHandle this' = _poolHandle this /\
  (if exceeds
   then _nativeWidth this' = width /\ _nativeHeight this' = height /\
        calls = reallocation_calls pools this width height
   else _nativeWidth this' = _nativeWidth this /\
        _nativeHeight this' = _nativeHeight this /\
        calls = []) /\
  (calls = [] \/ exceeds = true).
Proof.
  unfold resize, reallocation_calls, present_textures. cbn zeta.
  destruct (js_gt width (_nativeWidth this) || js_gt height (_nativeHeight this)).
  - cbn [_depthStencilTexture _colorTextures _poolHandle _renderPass].
    destruct (_depthStencilTexture this) as [ds|];
      rewrite !resize_colorTextures_spec;
      destruct (FramebufferPool_get pools _) as [fb|];
      cbn; repeat (split; [reflexivity |]);
      (split; [| right; reflexivity]);
      repeat (split; [reflexivity |]);
      rewrite ?app_nil_r; try reflexivity.
    destruct (omap id (_colorTextures this)); reflexivity.
  - cbn. repeat (split; [reflexivity |]).
    split; [repeat split; reflexivity | left; reflexivity].
Qed.

(** The scenario of the specification: a window allocated at 800x600
    keeps its allocation when resized to 400x300 and reallocates at
    1600x1200. *)
Example resize_800x600_scenario :
  let small := resize example_pools window_800x600 (double_of_Z 400) (double_of_Z 300) in
  let large := resize example_pools (fst small) (double_of_Z 1600) (double_of_Z 1200) in
  _width (fst small) = double_of_Z 400 /\ _height (fst small) = double_of_Z 300 /\
  _nativeWidth (fst small) = double_of_Z 800 /\
  _nativeHeight (fst small) = double_of_Z 600 /\
  snd small = [] /\
  _nativeWidth (fst large) = double_of_Z 1600 /\
  _nativeHeight (fst large) = double_of_Z 1200 /\
  snd large =
    [ TextureResize 2%nat (double_of_Z 1600) (double_of_Z 1200);
      TextureResize 1%nat (double_of_Z 1600) (double_of_Z 1200);
      FramebufferDestroy 7%nat;
      FramebufferInitialize 7%nat
        {| fbi_renderPass := Some 0%nat; fbi_colorTextures := [Some 1%nat];
           fbi_depthStencilTexture := Some 2%nat |} ].
Proof. vm_compute. repeat split; reflexivity. Qed.

(** The native size is not a high-water mark: resizing the 800x600 window
    to 1000x100 exceeds in width only, yet the native height is lowered
    from 600 to 100 and the textures are resized down to that height. *)
Lemma resize_lowers_native_height :
  let r := resize example_pools window_800x600 (double_of_Z 1000) (double_of_Z 100) in
  js_gt (double_of_Z 1000) (_nativeWidth window_800x600) = true /\
  js_gt (double_of_Z 100) (_nativeHeight window_800x600) = false /\
  _nativeHeight (fst r) = double_of_Z 100 /\
  js_gt (_nativeHeight window_800x600) (_nativeHeight (fst r)) = true /\
  In (TextureResize 2%nat (double_of_Z 1000) (double_of_Z 100)) (snd r).
Proof. vm_compute. repeat split; try reflexivity. left; reflexivity. Qed.

(** A later [resize] to the earlier height therefore reallocates again. *)
Example resize_after_lowering :
  let r1 := resize example_pools window_800x600 (double_of_Z 1000) (double_of_Z 100) in
  let r2 := resize example_pools (fst r1) (double_of_Z 1000) (double_of_Z 600) in
  snd r2 <> [].
Proof. vm_compute. discriminate. Qed.

(* ===================================================================== *)
(** * Properties: the unimplemented conversions *)
(* ===================================================================== *)

(** None of the three stubs returns [false], in a release build (where
    they return [true]) as little as in a debug build (where they abort):
    they do not report failure through their result. *)
Lemma stubs_never_return_false :
  ~ returns_false (seval_to_TTFConfig (cfg := release_build) se.Undefined tt) /\
  ~ returns_false (seval_to_b2Vec2 (cfg := release_build) se.Undefined tt) /\
  ~ returns_false (seval_to_b2AABB (cfg := release_build) se.Undefined tt) /\
  seval_to_TTFConfig (cfg := release_build) se.Undefined tt = Returned (true, tt) /\
  ~ returns_false (seval_to_TTFConfig (cfg := debug_build) se.Undefined tt).
Proof.
  repeat split; try reflexivity; intros [t Ht]; discriminate Ht.
Qed.

(** C1 (as amended).  Whatever the input, each of the three stubs runs
    into [assert(false)]: with assertions active the call is aborted,
    with assertions compiled out it returns [true] and hands the output
    back untouched.  It never returns [false]. *)
Theorem stubs_unimplemented {cfg : BuildConfig} {T : Type} (v : se.Value) (ret : T) :
  seval_to_TTFConfig v ret = (if NDEBUG then Returned (true, ret) else Aborted) /\
  seval_to_b2Vec2 v ret = (if NDEBUG then Returned (true, ret) else Aborted) /\
  seval_to_b2AABB v ret = (if NDEBUG then Returned (true, ret) else Aborted) /\
  ~ returns_false (seval_to_TTFConfig v ret) /\
  ~ returns_false (seval_to_b2Vec2 v ret) /\
  ~ returns_false (seval_to_b2AABB v ret).
Proof.
  unfold seval_to_TTFConfig, seval_to_b2Vec2, seval_to_b2AABB, assert_, returns_false.
  destruct NDEBUG; cbn; repeat split; intros [t Ht]; discriminate Ht.
Qed.

(* ===================================================================== *)
(** * Properties: vectors, matrices and font descriptions *)
(* ===================================================================== *)

(** C5.  [{x:1, y:2}] converts to the vector (1, 2) with success.  For an
    object whose [y] is missing, or whose [x] or [y] is there but is not a
    number, the output is set to the zero vector and the conversion
    fails. *)
Theorem seval_to_Vec2_spec {cfg : BuildConfig} (pt : cocos2d.Vec2) :
  seval_to_Vec2 obj_x1_y2 pt
    = Returned (true, {| cocos2d.x := float_of_Z 1; cocos2d.y := float_of_Z 2 |}) /\
  forall obj : se.Object,
    se.getProperty obj "y" = None \/
    (exists xv, se.getProperty obj "x" = Some xv /\ se.isNumber xv = false) \/
    (exists yv, se.getProperty obj "y" = Some yv /\ se.isNumber yv = false) ->
    seval_to_Vec2 (se.Obj obj) pt = Returned (false, cocos2d.Vec2_ZERO).
Proof.
  split; [reflexivity |]. intros obj Hbad.
  unfold seval_to_Vec2, seval.getProperty. cbn.
  destruct (se.getProperty obj "x") as [xv|] eqn:Hx; cbn; [| reflexivity].
  destruct (se.isNumber xv) eqn:Hxn; cbn; [| reflexivity].
  destruct (se.getProperty obj "y") as [yv|] eqn:Hy; cbn; [| reflexivity].
  destruct (se.isNumber yv) eqn:Hyn; cbn; [| reflexivity].
  destruct Hbad as [Hbad | [(xv' & Hxv & Hn) | (yv' & Hyv & Hn)]]; congruence.
Qed.

Lemma seval_to_Vec2_spec_witness :
  seval_to_Vec2 (cfg := debug_build) obj_x1
    {| cocos2d.x := float_of_Z 7; cocos2d.y := float_of_Z 9 |}
  = Returned (false, cocos2d.Vec2_ZERO).
Proof.
  exact (proj2 (seval_to_Vec2_spec (cfg := debug_build)
                  {| cocos2d.x := float_of_Z 7; cocos2d.y := float_of_Z 9 |})
               (se.PlainObject [("x"%string, se.Number (double_of_Z 1))])
               (or_introl eq_refl)).
Defined.

(** A missing or non-numeric [x] fails in the same way. *)
Lemma seval_to_Vec2_bad_x {cfg : BuildConfig} (obj : se.Object) (pt : cocos2d.Vec2) :
  se.getProperty obj "x" = None ->
  seval_to_Vec2 (se.Obj obj) pt = Returned (false, cocos2d.Vec2_ZERO).
Proof.
  intros Hx. unfold seval_to_Vec2, seval.getProperty. cbn. now rewrite Hx.
Qed.

(** On an argument that is not an object the conversion does not return:
    the assertion aborts it, or, compiled out, [toObject] misreads the
    value. *)
Lemma seval_to_Vec2_not_object {cfg : BuildConfig} (v : se.Value) (pt : cocos2d.Vec2) :
  se.isObject v = false ->
  seval_to_Vec2 v pt = if NDEBUG then UndefinedBehaviour else Aborted.
Proof.
  intros Hno. unfold seval_to_Vec2, assert_. rewrite Hno.
  destruct v; try discriminate Hno; destruct NDEBUG; reflexivity.
Qed.

(** C3.  The empty object converts, with success, to a font description
    with font name "Arial", size 32, alignment LEFT and TOP, white fill
    and shadow and stroke disabled.  [{fontName:"", shadowEnabled:true}]
    gets the font name "Arial" as well, and an enabled shadow with offset
    (5, 5), blur 1 and opacity 1. *)
Theorem seval_to_FontDefinition_defaults {cfg : BuildConfig} {casts : IntegerCasts}
    (ret : cocos2d.FontDefinition) :
  (exists fd,
     seval_to_FontDefinition (se.Obj (se.PlainObject [])) ret = Returned (true, fd) /\
     cocos2d._fontName fd = "Arial"%string /\
     cocos2d._fontSize fd = 32 /\
     cocos2d._alignment fd = cocos2d.LEFT /\
     cocos2d._vertAlignment fd = cocos2d.TOP /\
     cocos2d._fontFillColor fd = cocos2d.Color3B_WHITE /\
     cocos2d._shadowEnabled (cocos2d._shadow fd) = false /\
     cocos2d._strokeEnabled (cocos2d._stroke fd) = false) /\
  (exists fd,
     seval_to_FontDefinition obj_emptyName_shadow ret = Returned (true, fd) /\
     cocos2d._fontName fd = "Arial"%string /\
     cocos2d._shadowEnabled (cocos2d._shadow fd) = true /\
     cocos2d._shadowOffset (cocos2d._shadow fd)
       = {| cocos2d.width := float_of_Z 5; cocos2d.height := float_of_Z 5 |} /\
     cocos2d._shadowBlur (cocos2d._shadow fd) = float_of_Z 1 /\
     cocos2d._shadowOpacity (cocos2d._shadow fd) = float_of_Z 1).
Proof.
  split; eexists; (split; [reflexivity |]); cbn; repeat split; reflexivity.
Qed.

(** A non-empty font name is taken over, and fields the object does not
    mention keep what the output held before ([_dimensions] here). *)
Example seval_to_FontDefinition_named {cfg : BuildConfig} {casts : IntegerCasts}
    (ret : cocos2d.FontDefinition) :
  exists fd,
    seval_to_FontDefinition
      (se.Obj (se.PlainObject [("fontName"%string, se.String "Courier")])) ret
    = Returned (true, fd) /\
    cocos2d._fontName fd = "Courier"%string /\
    cocos2d._dimensions fd = cocos2d._dimensions ret.
Proof. eexists. split; [reflexivity |]. split; reflexivity. Qed.

(** Numeric and object fields, read with the truncating casts:
    [{fontSize:24, textAlign:1, fillStyle:{r:255, g:0, b:0},
      strokeEnabled:true, lineWidth:2}]. *)
Example seval_to_FontDefinition_fields (ret : cocos2d.FontDefinition) :
  exists fd,
    seval_to_FontDefinition (cfg := release_build) (casts := wrapping_casts)
      (se.Obj (se.PlainObject
         [("fontSize"%string, se.Number (double_of_Z 24));
          ("textAlign"%string, se.Number (double_of_Z 1));
          ("fillStyle"%string,
             se.Obj (se.PlainObject [("r"%string, se.Number (double_of_Z 255));
                                     ("g"%string, se.Number (double_of_Z 0));
                                     ("b"%string, se.Number (double_of_Z 0))]));
          ("strokeEnabled"%string, se.Boolean true);
          ("lineWidth"%string, se.Number (double_of_Z 2))])) ret
    = Returned (true, fd) /\
    cocos2d._fontName fd = "Arial"%string /\
    cocos2d._fontSize fd = 24 /\
    cocos2d._alignment fd = cocos2d.CENTER /\
    cocos2d._fontFillColor fd = {| cocos2d.r := 255; cocos2d.g := 0; cocos2d.b := 0 |} /\
    cocos2d._stroke fd
      = {| cocos2d._strokeEnabled := true; cocos2d._strokeColor := cocos2d.Color3B_BLUE;
           cocos2d._strokeAlpha := cocos2d._strokeAlpha (cocos2d._stroke ret);
           cocos2d._strokeSize := float_of_Z 2 |}.
Proof. eexists. split; [reflexivity |]. repeat split; reflexivity. Qed.

(** What [Mat4_to_seval] builds: the array of the 16 entries, widened. *)
Lemma Mat4_to_seval_array (mat : cocos2d.Mat4) (ret : se.Value) :
  length (cocos2d.m mat) = 16%nat ->
  Mat4_to_seval mat ret
  = (true, se.Obj (se.ArrayObject
                     (map (fun f => se.Number (double_of_float f)) (cocos2d.m mat)))).
Proof.
  destruct mat as [l]. cbn [cocos2d.m]. intros Hlen.
  do 16 (destruct l as [|? l]; [discriminate Hlen |]).
  destruct l; [| discriminate Hlen].
  reflexivity.
Qed.

(** C6.  A matrix of 16 [float] values converted to a script value by
    [Mat4_to_seval] is a 16-element array, and [seval_to_Mat4] converts it
    back, with success, to the very same 16 values in the same
    positions. *)
Theorem Mat4_roundtrip {cfg : BuildConfig} (mat out : cocos2d.Mat4) (ret : se.Value) :
  length (cocos2d.m mat) = 16%nat ->
  Forall (fun f => valid_float f = true) (cocos2d.m mat) ->
  length (cocos2d.m out) = 16%nat ->
  exists elems,
    Mat4_to_seval mat ret = (true, se.Obj (se.ArrayObject elems)) /\
    length elems = 16%nat /\
    seval_to_Mat4 (se.Obj (se.ArrayObject elems)) out = Returned (true, mat).
Proof.
  intros Hlen Hvalid Hout.
  eexists. split; [apply Mat4_to_seval_array, Hlen |].
  rewrite length_map. split; [exact Hlen |].
  destruct mat as [l], out as [o]. cbn [cocos2d.m] in *.
  do 16 (destruct l as [|? l]; [discriminate Hlen |]).
  destruct l; [| discriminate Hlen].
  do 16 (destruct o as [|? o]; [discriminate Hout |]).
  destruct o; [| discriminate Hout].
  repeat match goal with
         | Hv : Forall _ (_ :: _) |- _ =>
             apply Forall_cons in Hv; destruct Hv as [?Hf Hv]
         end.
  cbn -[toFloat double_of_float].
  rewrite !toFloat_double_of_float by assumption.
  reflexivity.
Qed.

Lemma Mat4_roundtrip_witness :
  exists elems,
    Mat4_to_seval cocos2d.Mat4_IDENTITY se.Undefined = (true, se.Obj (se.ArrayObject elems)) /\
    length elems = 16%nat /\
    seval_to_Mat4 (cfg := debug_build) (se.Obj (se.ArrayObject elems))
      {| cocos2d.m := replicate 16 (float_of_Z 0) |}
    = Returned (true, cocos2d.Mat4_IDENTITY).
Proof.
  apply (Mat4_roundtrip (cfg := debug_build) cocos2d.Mat4_IDENTITY
           {| cocos2d.m := replicate 16 (float_of_Z 0) |} se.Undefined).
  - reflexivity.
  - repeat constructor.
  - reflexivity.
Defined.

(** An array of another length is rejected and the output becomes the
    identity. *)
Example seval_to_Mat4_15 {cfg : BuildConfig} (out : cocos2d.Mat4) :
  seval_to_Mat4 (se.Obj (se.ArrayObject (replicate 15 (se.Number (double_of_Z 1))))) out
  = Returned (false, cocos2d.Mat4_IDENTITY).
Proof. reflexivity. Qed.

(* ===================================================================== *)
(** * Properties: generic tagged values *)
(* ===================================================================== *)

Section ccvalue_facts.
Context {cfg : BuildConfig}.
Import cocos2d.

(** Values reached through [getProperty] or [getArrayElement] are nested
    less deeply than the object they are read from. *)
Lemma getProperty_depth (o : se.Object) (name : string) (value : se.Value) :
  se.getProperty o name = Some value -> (se.depth value <= se.depth_obj o)%nat.
Proof.
  destruct o as [props|elems]; cbn.
  - induction props as [|[k x] props IH]; cbn; [discriminate |].
    destruct (String.eqb k name).
    + intros [= ->]. apply Nat.le_max_l.
    + intros Hin. etransitivity; [apply IH, Hin | apply Nat.le_max_r].
  - destruct (List.find _ _) as [i|].
    + revert i. induction elems as [|x elems IH]; intros [|i]; cbn;
        try discriminate.
      * intros [= ->]. apply Nat.le_max_l.
      * intros Hin. etransitivity; [apply (IH i), Hin | apply Nat.le_max_r].
    + destruct (String.eqb name "length"); [| discriminate].
      intros [= <-]. cbn. apply Nat.le_0_l.
Qed.

Lemma getArrayElement_depth (o : se.Object) (i : nat) (value : se.Value) :
  se.getArrayElement o i = Some value -> (se.depth value <= se.depth_obj o)%nat.
Proof.
  destruct o as [props|elems]; cbn; [discriminate |].
  intros [= <-]. revert i.
  induction elems as [|x elems IH]; intros [|i]; cbn; try apply Nat.le_0_l.
  - apply Nat.le_max_l.
  - etransitivity; [apply (IH i) | apply Nat.le_max_r].
Qed.

(** The bodies only consult the function they recurse through on values
    read from the object at hand. *)
Lemma seval_to_ccvaluemap_loop_ext (f g : se.Value -> Value -> outcome (bool * Value))
    (obj : se.Object) (allKeys : list string) value ccvalue dict :
  (forall key x r, se.getProperty obj key = Some x -> f x r = g x r) ->
  seval_to_ccvaluemap_loop f obj allKeys value ccvalue dict
  = seval_to_ccvaluemap_loop g obj allKeys value ccvalue dict.
Proof.
  intros Hfg. revert value ccvalue dict.
  induction allKeys as [|key rest IH]; intros value ccvalue dict; cbn; [reflexivity |].
  unfold seval.getProperty.
  destruct (se.getProperty obj (c_str key)) as [x|] eqn:Hx; cbn; [| reflexivity].
  rewrite (Hfg (c_str key) x ccvalue Hx).
  destruct (g x ccvalue) as [[[|] cv]| |]; cbn; try reflexivity. apply IH.
Qed.

Lemma seval_to_ccvaluevector_loop_ext (f g : se.Value -> Value -> outcome (bool * Value))
    (obj : se.Object) (indices : list nat) ccvalue ret :
  (forall i x r, se.getArrayElement obj i = Some x -> f x r = g x r) ->
  seval_to_ccvaluevector_loop f obj indices ccvalue ret
  = seval_to_ccvaluevector_loop g obj indices ccvalue ret.
Proof.
  intros Hfg. revert ccvalue ret.
  induction indices as [|i rest IH]; intros ccvalue ret; cbn; [reflexivity |].
  destruct (se.getArrayElement obj i) as [x|] eqn:Hx; [| apply IH].
  rewrite (Hfg i x ccvalue Hx).
  destruct (g x ccvalue) as [[[|] cv]| |]; cbn; try reflexivity. apply IH.
Qed.

Lemma seval_to_ccvalue_body_ext (f g : se.Value -> Value -> outcome (bool * Value))
    (v : se.Value) (ret : Value) :
  (forall x r, (se.depth x < se.depth v)%nat -> f x r = g x r) ->
  seval_to_ccvalue_body f v ret = seval_to_ccvalue_body g v ret.
Proof.
  intros Hfg. destruct v as [| | | | |o]; try reflexivity.
  unfold seval_to_ccvalue_body, seval_to_ccvaluemap_body, seval_to_ccvaluevector_body.
  cbn [se.isObject se.toObject se.isNullOrUndefined mbind outcome_bind negb assert_
       JSB_PRECONDITION3].
  destruct (se.isArray o); cbn [negb].
  - rewrite (seval_to_ccvaluevector_loop_ext f g); [reflexivity |].
    intros i x r Hx. apply Hfg. apply getArrayElement_depth in Hx. cbn. lia.
  - rewrite (seval_to_ccvaluemap_loop_ext f g); [reflexivity |].
    intros key x r Hx. apply Hfg. apply getProperty_depth in Hx. cbn. lia.
Qed.

(** Any bound above the nesting depth gives the same result. *)
Lemma seval_to_ccvalue_upto_stable (n1 n2 : nat) (v : se.Value) (ret : Value) :
  (se.depth v < n1)%nat -> (se.depth v < n2)%nat ->
  seval_to_ccvalue_upto n1 v ret = seval_to_ccvalue_upto n2 v ret.
Proof.
  revert n2 v ret. induction n1 as [|n1 IH]; intros n2 v ret H1 H2; [lia |].
  destruct n2 as [|n2]; [lia |]. cbn.
  apply seval_to_ccvalue_body_ext. intros x r Hx. apply IH; lia.
Qed.

(** [seval_to_ccvalue] satisfies the recursive equation of the source:
    it is its body applied to itself. *)
Theorem seval_to_ccvalue_unfold (v : se.Value) (ret : Value) :
  seval_to_ccvalue v ret = seval_to_ccvalue_body seval_to_ccvalue v ret.
Proof.
  unfold seval_to_ccvalue at 1. cbn [seval_to_ccvalue_upto].
  apply seval_to_ccvalue_body_ext. intros x r Hx.
  unfold seval_to_ccvalue. apply seval_to_ccvalue_upto_stable; lia.
Qed.

(** The recursion never runs into undefined behaviour, and in particular
    never exhausts its bound: [seval_to_ccvalue] returns, unless a debug
    assertion aborts it. *)
Lemma seval_to_ccvaluemap_loop_defined (f : se.Value -> Value -> outcome (bool * Value))
    (obj : se.Object) (allKeys : list string) value ccvalue dict :
  (forall key x r, se.getProperty obj key = Some x -> f x r <> UndefinedBehaviour) ->
  seval_to_ccvaluemap_loop f obj allKeys value ccvalue dict <> UndefinedBehaviour.
Proof.
  intros Hf. revert value ccvalue dict.
  induction allKeys as [|key rest IH]; intros value ccvalue dict; cbn; [discriminate |].
  unfold seval.getProperty.
  destruct (se.getProperty obj (c_str key)) as [x|] eqn:Hx; cbn; [| discriminate].
  specialize (Hf (c_str key) x ccvalue Hx).
  destruct (f x ccvalue) as [[[|] cv]| |]; cbn; try discriminate; [apply IH | contradiction].
Qed.

Lemma seval_to_ccvaluevector_loop_defined (f : se.Value -> Value -> outcome (bool * Value))
    (obj : se.Object) (indices : list nat) ccvalue ret :
  (forall i x r, se.getArrayElement obj i = Some x -> f x r <> UndefinedBehaviour) ->
  seval_to_ccvaluevector_loop f obj indices ccvalue ret <> UndefinedBehaviour.
Proof.
  intros Hf. revert ccvalue ret.
  induction indices as [|i rest IH]; intros ccvalue ret; cbn; [discriminate |].
  destruct (se.getArrayElement obj i) as [x|] eqn:Hx; [| apply IH].
  specialize (Hf i x ccvalue Hx).
  destruct (f x ccvalue) as [[[|] cv]| |]; cbn; try discriminate; [apply IH | contradiction].
Qed.

Lemma seval_to_ccvalue_upto_defined (n : nat) (v : se.Value) (ret : Value) :
  (se.depth v < n)%nat -> seval_to_ccvalue_upto n v ret <> UndefinedBehaviour.
Proof.
  revert v ret. induction n as [|n IH]; intros v ret Hn; [lia |].
  cbn [seval_to_ccvalue_upto].
  destruct v as [| | | | |o];
    try (cbn; unfold CCASSERT, assert_; destruct COCOS2D_DEBUG, NDEBUG; discriminate).
  unfold seval_to_ccvalue_body, seval_to_ccvaluemap_body, seval_to_ccvaluevector_body.
  cbn [se.isObject se.toObject se.isNullOrUndefined mbind outcome_bind negb assert_
       JSB_PRECONDITION3].
  cbn in Hn.
  destruct (se.isArray o); cbn [negb].
  - pose proof (seval_to_ccvaluevector_loop_defined (seval_to_ccvalue_upto n) o
                  (seq 0 (default 0%nat (se.getArrayLength o))) NONE []) as Hloop.
    destruct (seval_to_ccvaluevector_loop _ _ _ _ _) as [[[|] arr]| |];
      try discriminate.
    exfalso. apply Hloop; [| reflexivity].
    intros i x r Hx. apply IH. apply getArrayElement_depth in Hx. lia.
  - pose proof (seval_to_ccvaluemap_loop_defined (seval_to_ccvalue_upto n) o
                  (se.getAllKeys o) se.Undefined NONE ∅) as Hloop.
    destruct (seval_to_ccvaluemap_loop _ _ _ _ _ _) as [[[|] dict]| |];
      try discriminate.
    exfalso. apply Hloop; [| reflexivity].
    intros key x r Hx. apply IH. apply getProperty_depth in Hx. lia.
Qed.

Lemma seval_to_ccvalue_defined (v : se.Value) (ret : Value) :
  seval_to_ccvalue v ret <> UndefinedBehaviour.
Proof. apply seval_to_ccvalue_upto_defined. lia. Qed.

(** With assertions compiled out it always returns. *)
Lemma seval_to_ccvalue_returns (v : se.Value) (ret : Value) :
  COCOS2D_DEBUG = false ->
  exists ok ret', seval_to_ccvalue v ret = Returned (ok, ret').
Proof.
  intros Hrel.
  assert (Hna : forall n x r, (se.depth x < n)%nat ->
                  seval_to_ccvalue_upto n x r <> Aborted).
  { induction n as [|n IH]; intros x r Hn; [lia |].
    cbn [seval_to_ccvalue_upto].
    destruct x as [| | | | |o];
      try (cbn; discriminate);
      try (cbn; unfold CCASSERT; rewrite Hrel; discriminate).
    unfold seval_to_ccvalue_body, seval_to_ccvaluemap_body, seval_to_ccvaluevector_body.
    cbn [se.isObject se.toObject se.isNullOrUndefined mbind outcome_bind negb assert_
         JSB_PRECONDITION3].
    cbn in Hn.
    destruct (se.isArray o); cbn [negb].
    - assert (Hloop : forall indices cc acc,
                seval_to_ccvaluevector_loop (seval_to_ccvalue_upto n) o indices cc acc
                <> Aborted).
      { induction indices as [|i rest IHl]; intros cc acc; cbn; [discriminate |].
        destruct (se.getArrayElement o i) as [y|] eqn:Hy; [| apply IHl].
        assert (Hy' := IH y cc). apply getArrayElement_depth in Hy.
        destruct (seval_to_ccvalue_upto n y cc) as [[[|] cv]| |]; cbn;
          try discriminate; [apply IHl |].
        exfalso. apply Hy'; [lia | reflexivity]. }
      specialize (Hloop (seq 0 (default 0%nat (se.getArrayLength o))) NONE []).
      destruct (seval_to_ccvaluevector_loop _ _ _ _ _) as [[[|] arr]| |];
        try discriminate. contradiction.
    - assert (Hloop : forall keys value cc dict,
                seval_to_ccvaluemap_loop (seval_to_ccvalue_upto n) o keys value cc dict
                <> Aborted).
      { induction keys as [|key rest IHl]; intros value cc dict; cbn; [discriminate |].
        unfold seval.getProperty.
        destruct (se.getProperty o (c_str key)) as [y|] eqn:Hy; cbn; [| discriminate].
        assert (Hy' := IH y cc). apply getProperty_depth in Hy.
        destruct (seval_to_ccvalue_upto n y cc) as [[[|] cv]| |]; cbn;
          try discriminate; [apply IHl |].
        exfalso. apply Hy'; [lia | reflexivity]. }
      specialize (Hloop (se.getAllKeys o) se.Undefined NONE ∅).
      destruct (seval_to_ccvaluemap_loop _ _ _ _ _ _) as [[[|] dict]| |];
        try discriminate. contradiction. }
  pose proof (seval_to_ccvalue_defined v ret) as Hd.
  pose proof (Hna (S (se.depth v)) v ret (Nat.lt_succ_diag_r _)) as Ha.
  fold (seval_to_ccvalue v ret) in Ha.
  destruct (seval_to_ccvalue v ret) as [[ok ret']| |]; [eauto | contradiction | contradiction].
Qed.

(** C9.  For a value that is neither an object nor a string, a number or
    a boolean, [seval_to_ccvalue] writes nothing: unless the debug
    assertion is active and aborts the call, it returns [true] and the
    output is what it was. *)
Theorem seval_to_ccvalue_unsupported (v : se.Value) (ret : Value) :
  se.isObject v = false -> se.isString v = false ->
  se.isNumber v = false -> se.isBoolean v = false ->
  seval_to_ccvalue v ret
  = if COCOS2D_DEBUG && negb NDEBUG then Aborted else Returned (true, ret).
Proof.
  intros Ho Hs Hn Hb.
  destruct v; try discriminate;
    unfold seval_to_ccvalue; cbn; unfold CCASSERT, assert_;
    destruct COCOS2D_DEBUG, NDEBUG; reflexivity.
Qed.

(** A text made of digits holds no NUL: it is its own C string. *)
Lemma isNumberString_c_str (s : string) : isNumberString s = true -> c_str s = s.
Proof.
  induction s as [|c s IH]; cbn; [reflexivity |].
  destruct (isdigit c) eqn:Hc; cbn; [| discriminate].
  intros Hs. destruct (Ascii.eqb_spec c Ascii.zero) as [-> | _]; [discriminate Hc |].
  now rewrite IH.
Qed.

(** [atoi] returns the number the text denotes whenever it is an [int]. *)
Lemma atoi_in_range (s : string) :
  INT_MIN <= atoi_value s <= INT_MAX -> atoi s = Returned (atoi_value s).
Proof.
  intros [Hlo Hhi]. unfold atoi.
  apply Z.leb_le in Hlo, Hhi. now rewrite Hlo, Hhi.
Qed.


Lemma emplace_subseteq `{Countable K} {A} (k : K) (v : A) (m : gmap K A) :
  m ⊆ emplace k v m.
Proof.
  unfold emplace. destruct (m !! k) eqn:Hk; [reflexivity |].
  now apply insert_subseteq.
Qed.

(** A key the loop of [seval_to_ccvaluemapintkey] accepts as a number is
    converted and offered to the map under its [atoi] value, and no
    warning is issued. *)
Lemma seval_to_ccvaluemapintkey_loop_numeric (obj : se.Object) (key : string)
    (rest : list string) value0 ccvalue0 dict warnings value ccvalue :
  isNumberString key = true ->
  INT_MIN <= atoi_value key <= INT_MAX ->
  se.getProperty obj key = Some value ->
  seval_to_ccvalue value ccvalue0 = Returned (true, ccvalue) ->
  seval_to_ccvaluemapintkey_loop obj (key :: rest) value0 ccvalue0 dict warnings
  = seval_to_ccvaluemapintkey_loop obj rest value ccvalue
      (emplace (atoi_value key) ccvalue dict) warnings.
Proof.
  intros Hnum Hint Hget Hconv. cbn [seval_to_ccvaluemapintkey_loop].
  rewrite (isNumberString_c_str key Hnum).
  unfold seval.getProperty. rewrite Hget. cbn [negb].
  rewrite Hnum. cbn [negb]. rewrite (atoi_in_range key Hint), Hconv. reflexivity.
Qed.

(** Any other key is skipped with a warning. *)
Lemma seval_to_ccvaluemapintkey_loop_skip (obj : se.Object) (key : string)
    (rest : list string) value0 ccvalue0 dict warnings value :
  isNumberString key = false ->
  se.getProperty obj (c_str key) = Some value ->
  seval_to_ccvaluemapintkey_loop obj (key :: rest) value0 ccvalue0 dict warnings
  = seval_to_ccvaluemapintkey_loop obj rest value ccvalue0 dict (warnings ++ [c_str key]).
Proof.
  intros Hnum Hget. cbn [seval_to_ccvaluemapintkey_loop].
  unfold seval.getProperty. rewrite Hget. cbn [negb].
  rewrite Hnum. reflexivity.
Qed.





End ccvalue_facts.

Lemma seval_to_ccvalue_unsupported_witness :
  seval_to_ccvalue (cfg := release_build) se.Null (cocos2d.STRING "kept")
  = Returned (true, cocos2d.STRING "kept").
Proof.
  exact (seval_to_ccvalue_unsupported (cfg := release_build) se.Null (cocos2d.STRING "kept")
           eq_refl eq_refl eq_refl eq_refl).
Defined.


(** The example of the specification with an empty key added:
    [{"3":"x", "abc":"y", "":"z"}] gives the map [3 -> "x", 0 -> "z"] and
    one warning, for "abc". *)
Example seval_to_ccvaluemapintkey_example :
  seval_to_ccvaluemapintkey (cfg := release_build)
    (se.Obj (se.PlainObject [("3"%string, se.String "x"); ("abc"%string, se.String "y");
                             (""%string, se.String "z")])) ∅
  = (Returned (true, <[0 := cocos2d.STRING "z"]> {[ 3 := cocos2d.STRING "x" ]}),
     ["abc"%string]).
Proof. reflexivity. Qed.


(** A key that denotes a number too large for an [int]: C does not
    define what [atoi] does with it (an implementation that wraps around
    makes it key 0), and the call is recorded as undefined. *)
Example seval_to_ccvaluemapintkey_overflow :
  seval_to_ccvaluemapintkey (cfg := release_build)
    (se.Obj (se.PlainObject [("4294967296"%string, se.String "a")])) ∅
  = (UndefinedBehaviour, []).
Proof. reflexivity. Qed.

(** A nested value, converted by the recursion through maps and
    vectors. *)
Example seval_to_ccvalue_nested :
  seval_to_ccvalue (cfg := release_build)
    (se.Obj (se.ArrayObject [se.Number (double_of_Z 1); se.String "a"; se.Boolean true;
                             se.Obj (se.PlainObject [("k"%string, se.String "v")])]))
    cocos2d.NONE
  = Returned (true, cocos2d.VECTOR
      [cocos2d.DOUBLE (double_of_Z 1); cocos2d.STRING "a"; cocos2d.BOOLEAN true;
       cocos2d.MAP {[ "k"%string := cocos2d.STRING "v" ]}]).
Proof. reflexivity. Qed.

(* ===================================================================== *)
(** * Further properties: render-stage registry *)
(* ===================================================================== *)

Lemma wrap_int32_mod (z : Z) : wrap_int32 z mod 2 ^ 32 = z mod 2 ^ 32.
Proof.
  unfold wrap_int32. rewrite Zminus_mod_idemp_l. f_equal. lia.
Qed.

Lemma wrap_int32_testbit (z i : Z) :
  0 <= i < 32 -> Z.testbit (wrap_int32 z) i = Z.testbit z i.
Proof.
  intros Hi.
  rewrite <- (Z.mod_pow2_bits_low (wrap_int32 z) 32 i) by lia.
  rewrite wrap_int32_mod. apply Z.mod_pow2_bits_low. lia.
Qed.

Lemma js_or_testbit (a b i : Z) :
  0 <= i < 32 -> Z.testbit (js_or a b) i = Z.testbit a i || Z.testbit b i.
Proof.
  intros Hi. unfold js_or.
  rewrite wrap_int32_testbit, Z.lor_spec, !wrap_int32_testbit by assumption.
  reflexivity.
Qed.

(** The shift count only matters modulo 32. *)
Lemma js_shl_mod (x n : Z) : js_shl x n = js_shl x (n mod 32).
Proof.
  unfold js_shl. f_equal. f_equal.
  change 31 with (Z.ones 5). rewrite !Z.land_ones by lia.
  change (2 ^ 5) with 32. now rewrite Z.mod_mod.
Qed.

Lemma js_shl_1_testbit (k i : Z) :
  0 <= k < 32 -> 0 <= i < 32 -> Z.testbit (js_shl 1 k) i = (k =? i).
Proof.
  intros Hk Hi. rewrite js_shl_1 by assumption.
  destruct (Z.eqb_spec k 31) as [->|Hne].
  - assert (Hc : In i (map Z.of_nat (seq 0 32))).
    { apply in_map_iff. exists (Z.to_nat i). split; [lia | apply in_seq; lia]. }
    cbn in Hc.
    repeat (destruct Hc as [<- | Hc]; [vm_compute; reflexivity |]).
    destruct Hc.
  - apply Z.pow2_bits_eqb. lia.
Qed.

(** In every state reached from the initial one, each entry is [1 << k]
    for some [k] below 32. *)
Lemma addStages_entries (names : list string) (name : string) (id : Z) :
  _name2stageID (addStages names initial_registry) !! name = Some id ->
  exists k, 0 <= k < 32 /\ id = js_shl 1 k.
Proof.
  intros Hid.
  destruct (registry_inv_addStages names _ registry_inv_initial)
    as (offs & Hmap & Hrange & _ & _).
  rewrite Hmap, lookup_fmap in Hid.
  destruct (offs !! name) as [k|] eqn:Hk; [| discriminate].
  cbn in Hid. injection Hid as <-.
  exists (k mod 32). split; [apply Z.mod_pos_bound; lia | apply js_shl_mod].
Qed.

Lemma addStages_lookup_keeps (names : list string) (name : string) (st : Registry) (id : Z) :
  _name2stageID st !! name = Some id ->
  _name2stageID (addStages names st) !! name = Some id.
Proof.
  revert st. induction names as [|n names IH]; intros st Hid; [exact Hid |].
  cbn. apply IH. now apply addStage_keeps.
Qed.

Lemma stageIDs_fold_bits (st : Registry) (nameList : list string) (acc k : Z) :
  0 <= k < 32 ->
  (forall name id, _name2stageID st !! name = Some id ->
     exists k', 0 <= k' < 32 /\ id = js_shl 1 k') ->
  Z.testbit
    (foldl (fun key name =>
              match name2stageID_get st name with
              | Some (StageNumber id) => js_or key id
              | Some (Inherited _) => js_or key 0
              | None => key
              end) acc nameList) k = true <->
  Z.testbit acc k = true \/
  exists name, In name nameList /\ _name2stageID st !! name = Some (js_shl 1 k).
Proof.
  intros Hk Hform. revert acc.
  induction nameList as [|name rest IH]; intros acc; cbn [foldl].
  - split; [auto | intros [H | (name & [] & _)]; exact H].
  - rewrite IH. unfold name2stageID_get.
    destruct (_name2stageID st !! name) as [id|] eqn:Hid.
    + destruct (Hform name id Hid) as (k' & Hk' & ->).
      rewrite js_or_testbit, js_shl_1_testbit by assumption.
      rewrite orb_true_iff, Z.eqb_eq. split.
      * intros [[H | ->] | (n & Hin & Hn)]; [auto | | right; exists n; cbn; auto].
        right. exists name. cbn. auto.
      * intros [H | (n & [<- | Hin] & Hn)]; [auto | | right; eauto].
        left. right. rewrite Hid in Hn. injection Hn as Hn.
        apply js_shl_1_inj in Hn; auto.
    + assert (Hskip : forall acc', Z.testbit
                (if bool_decide (name ∈ ObjectPrototype) then js_or acc' 0 else acc') k
                = Z.testbit acc' k).
      { intros acc'. destruct (bool_decide _); [| reflexivity].
        rewrite js_or_testbit by assumption. rewrite Z.bits_0. apply orb_false_r. }
      assert (Hgoal : Z.testbit
                (match (if bool_decide (name ∈ ObjectPrototype)
                        then Some (Inherited name) else None) with
                 | Some (StageNumber id) => js_or acc id
                 | Some (Inherited _) => js_or acc 0
                 | None => acc
                 end) k = Z.testbit acc k).
      { specialize (Hskip acc). destruct (bool_decide _); exact Hskip. }
      rewrite Hgoal. split.
      * intros [H | (n & Hin & Hn)]; [auto | right; exists n; cbn; auto].
      * intros [H | (n & [<- | Hin] & Hn)]; [auto | congruence | right; eauto].
Qed.

(** X1.  [stageIDs] is the union of the registered names' bits: in any
    state reached by [addStage] calls, bit [k] of [stageIDs(nameList)] is
    set exactly when some name of the list is registered with the mask
    [1 << k].  Unregistered names (and an empty list) contribute
    nothing. *)
Theorem stageIDs_bits (names nameList : list string) (k : Z) :
  0 <= k < 32 ->
  let st := addStages names initial_registry in
  Z.testbit (stageIDs nameList st) k = true <->
  exists name, In name nameList /\ stageID name st = StageNumber (js_shl 1 k).
Proof.
  intros Hk st. unfold stageIDs.
  rewrite stageIDs_fold_bits; [| exact Hk | apply addStages_entries].
  rewrite Z.bits_0. split.
  - intros [H | (name & Hin & Hid)]; [discriminate |].
    exists name. split; [exact Hin |].
    unfold stageID, name2stageID_get. fold st. now rewrite Hid.
  - intros (name & Hin & Hid). right. exists name. split; [exact Hin |].
    unfold stageID, name2stageID_get in Hid.
    destruct (_name2stageID st !! name) as [id|] eqn:Hown.
    + now injection Hid as ->.
    + destruct (bool_decide _); [discriminate |].
      injection Hid as Hid. exfalso.
      assert (H0 : 0 < 2 ^ k) by (apply Z.pow_pos_nonneg; lia).
      rewrite js_shl_1 in Hid by assumption. destruct (k =? 31); lia.
Qed.

Lemma stageIDs_bits_witness :
  Z.testbit (stageIDs ["forward"; "unknown"]%string
               (addStages ["default"; "forward"]%string initial_registry)) 1 = true <->
  exists name, In name ["forward"; "unknown"]%string /\
    stageID name (addStages ["default"; "forward"]%string initial_registry)
    = StageNumber (js_shl 1 1).
Proof.
  apply (stageIDs_bits ["default"; "forward"]%string ["forward"; "unknown"]%string 1).
  lia.
Defined.

(** X2.  The sentinel is unambiguous: for a name that is not inherited
    from [Object.prototype], [stageID] returns -1 exactly when the name
    was never passed to [addStage]; no assigned mask equals -1. *)
Theorem stageID_sentinel (names : list string) (name : string) :
  name ∉ ObjectPrototype ->
  stageID name (addStages names initial_registry) = StageNumber (-1) <-> name ∉ names.
Proof.
  intros Hproto. set (st := addStages names initial_registry). split.
  - intros Hid Hin.
    destruct (addStages_registers names name initial_registry Hin Hproto) as [id Hown].
    fold st in Hown.
    unfold stageID, name2stageID_get in Hid. rewrite Hown in Hid.
    injection Hid as ->.
    destruct (addStages_entries names name (-1) Hown) as (k & Hk & Heq).
    rewrite js_shl_1 in Heq by assumption.
    assert (H0 : 0 < 2 ^ k) by (apply Z.pow_pos_nonneg; lia).
    destruct (k =? 31); lia.
  - intros Hnin.
    assert (Hown : _name2stageID st !! name = None).
    { apply not_elem_of_dom.
      pose proof (addStages_dom names initial_registry) as Hdom. fold st in Hdom.
      cbn in Hdom. set_solver. }
    unfold stageID, name2stageID_get. rewrite Hown.
    now rewrite bool_decide_eq_false_2.
Qed.

Lemma stageID_sentinel_witness :
  stageID "unknown" (addStages ["default"; "forward"]%string initial_registry)
  = StageNumber (-1) <-> "unknown"%string ∉ ["default"; "forward"]%string.
Proof.
  apply (stageID_sentinel ["default"; "forward"]%string "unknown").
  apply (bool_decide_unpack _). vm_compute. exact I.
Defined.

(** X3.  Masks are stable: whatever [addStage] calls follow, a name that
    has an entry keeps exactly that mask, and the offset counter never
    goes down. *)
Theorem addStages_stable (st : Registry) (names : list string) (name : string) (id : Z) :
  _name2stageID st !! name = Some id ->
  stageID name (addStages names st) = StageNumber id /\
  _stageOffset st <= _stageOffset (addStages names st).
Proof.
  intros Hid. split.
  - unfold stageID, name2stageID_get.
    now rewrite (addStages_lookup_keeps names name st id Hid).
  - clear Hid. revert st.
    induction names as [|n names IH]; intros st; cbn; [lia |].
    etransitivity; [| apply IH].
    unfold addStage. destruct (name2stageID_get st n); cbn; lia.
Qed.

Lemma addStages_stable_witness :
  stageID "default"
    (addStages ["forward"; "default"; "shadow"]%string
       (addStage "default" initial_registry)) = StageNumber 1.
Proof.
  exact (proj1 (addStages_stable (addStage "default" initial_registry)
                  ["forward"; "default"; "shadow"]%string "default" 1 eq_refl)).
Defined.

Lemma addStages_in_order (names : list string) (st : Registry) :
  NoDup names ->
  Forall (fun n => n ∉ ObjectPrototype) names ->
  Forall (fun n => _name2stageID st !! n = None) names ->
  forall (i : nat) (name : string),
    names !! i = Some name ->
    _name2stageID (addStages names st) !! name
    = Some (js_shl 1 (_stageOffset st + Z.of_nat i)).
Proof.
  revert st. induction names as [|n names IH]; intros st Hnd Hproto Hfresh i name Hi.
  - now rewrite lookup_nil in Hi.
  - apply NoDup_cons in Hnd as [Hnin Hnd].
    apply Forall_cons in Hproto as [Hp Hproto].
    apply Forall_cons in Hfresh as [Hf Hfresh].
    assert (Hadd : addStage n st
                   = {| _stageOffset := _stageOffset st + 1;
                        _name2stageID := <[n := js_shl 1 (_stageOffset st)]>
                                           (_name2stageID st) |}).
    { unfold addStage, name2stageID_get. rewrite Hf.
      now rewrite bool_decide_eq_false_2. }
    cbn [addStages foldl]. fold (addStages names (addStage n st)).
    destruct i as [|i]; cbn in Hi.
    + injection Hi as <-. apply addStages_lookup_keeps.
      rewrite Hadd. cbn. rewrite lookup_insert_eq. do 2 f_equal. lia.
    + rewrite (IH (addStage n st) Hnd Hproto) with (i := i) (name := name); try assumption.
      * rewrite Hadd. cbn. do 2 f_equal. lia.
      * rewrite Hadd. cbn. apply Forall_forall. intros n' Hn'.
        rewrite lookup_insert_ne; [| intros ->; contradiction].
        rewrite Forall_forall in Hfresh. now apply Hfresh.
Qed.

(** X4.  Bits are handed out in call order: when distinct names (none of
    them inherited from [Object.prototype]) are added to the empty
    registry, the name added as number [i] (from 0) gets the mask
    [1 << i]. *)
Theorem addStages_order (names : list string) (i : nat) (name : string) :
  NoDup names ->
  Forall (fun n => n ∉ ObjectPrototype) names ->
  names !! i = Some name ->
  stageID name (addStages names initial_registry) = StageNumber (js_shl 1 (Z.of_nat i)).
Proof.
  intros Hnd Hproto Hi.
  assert (Hfresh : Forall (fun n => _name2stageID initial_registry !! n = None) names).
  { apply Forall_forall. intros n _. apply lookup_empty. }
  pose proof (addStages_in_order names initial_registry Hnd Hproto Hfresh i name Hi) as Hord.
  unfold stageID, name2stageID_get. rewrite Hord. reflexivity.
Qed.

Lemma addStages_order_witness :
  stageID "shadow" (addStages ["default"; "forward"; "shadow"]%string initial_registry)
  = StageNumber (js_shl 1 2).
Proof.
  apply (addStages_order ["default"; "forward"; "shadow"]%string 2 "shadow").
  - apply (bool_decide_unpack _). vm_compute. exact I.
  - apply (bool_decide_unpack _). vm_compute. exact I.
  - reflexivity.
Defined.

(** X5.  There is no guard against running out of bits: with distinct
    names, none of them a member inherited from [Object.prototype], added
    to the empty registry, two names whose positions in the call order
    differ by a multiple of 32 are given the same mask (the 33rd name
    shares bit 0 with the first). *)
Theorem addStages_wraps_around (names : list string) (i j : nat) (name1 name2 : string) :
  NoDup names ->
  Forall (fun n => n ∉ ObjectPrototype) names ->
  names !! i = Some name1 ->
  names !! j = Some name2 ->
  (i mod 32 = j mod 32)%nat ->
  stageID name1 (addStages names initial_registry)
  = stageID name2 (addStages names initial_registry).
Proof.
  intros Hnd Hproto Hi Hj Hmod.
  assert (Hfresh : Forall (fun n => _name2stageID initial_registry !! n = None) names).
  { apply Forall_forall. intros n _. apply lookup_empty. }
  unfold stageID, name2stageID_get.
  rewrite (addStages_in_order names initial_registry Hnd Hproto Hfresh i name1 Hi).
  rewrite (addStages_in_order names initial_registry Hnd Hproto Hfresh j name2 Hj).
  cbn [_stageOffset initial_registry]. rewrite !Z.add_0_l.
  f_equal. rewrite (js_shl_mod 1 (Z.of_nat i)), (js_shl_mod 1 (Z.of_nat j)).
  f_equal. change 32 with (Z.of_nat 32). rewrite <- !Nat2Z.inj_mod. now rewrite Hmod.
Qed.

(** Thirty-three stage names ["0"], ..., ["32"]. *)
Lemma addStages_wraps_around_witness :
  stageID "0" (addStages (map se.index_key (seq 0 33)) initial_registry)
  = stageID "32" (addStages (map se.index_key (seq 0 33)) initial_registry).
Proof.
  apply (addStages_wraps_around (map se.index_key (seq 0 33)) 0 32 "0" "32").
  - apply (bool_decide_unpack _). vm_compute. exact I.
  - apply (bool_decide_unpack _). vm_compute. exact I.
  - reflexivity.
  - reflexivity.
  - reflexivity.
Defined.

(* ===================================================================== *)
(** * Further properties: render window *)
(* ===================================================================== *)

(** No number is greater than itself, NaN included. *)
Lemma js_gt_irrefl (a : double) : js_gt a a = false.
Proof.
  unfold js_gt, SFltb, SFcompare.
  destruct a as [s|s| |s m e]; try reflexivity.
  - now destruct s.
  - rewrite Z.compare_refl.
    change (PosDef.Pos.compare_cont Eq m m) with (Pos.compare m m).
    rewrite Pos.compare_refl. now destruct s.
Qed.

Lemma destroy_colorTextures_present (texs : list (option GFXTexture)) :
  destroy_colorTextures texs = map TextureDestroy (omap id texs).
Proof.
  induction texs as [|[tex|] texs IH]; cbn; [reflexivity | now rewrite IH | exact IH].
Qed.

(** X6.  [destroy] releases everything once and can be repeated.  When
    it completes, the calls it has made are exactly these: [destroy] on
    each texture the window owned (depth stencil first, then the colour
    textures in slot order) and, for a window with a handle other than
    the null handle, [destroy] on the framebuffer the pools resolve for
    that handle, last.  The window then owns no texture and has the null
    handle, so that a second [destroy] makes no call at all and changes
    nothing, and a later [resize] to any size reaches no GFX object
    either. *)
Theorem destroy_idempotent (pools : Pools) (this : RenderWindow) :
  (destroy pools this).2 = false ->
  let this' := (destroy pools this).1.1 in
  (_poolHandle this = NULL_HANDLE ->
   (destroy pools this).1.2 = map TextureDestroy (present_textures this)) /\
  (_poolHandle this <> NULL_HANDLE ->
   exists fb,
     FramebufferPool_get pools (RenderWindowPool_get_FRAMEBUFFER pools (_poolHandle this))
     = Some fb /\
     (destroy pools this).1.2
     = map TextureDestroy (present_textures this) ++ [FramebufferDestroyed fb]) /\
  present_textures this' = [] /\
  _poolHandle this' = NULL_HANDLE /\
  destroy pools this' = (this', [], false) /\
  (forall width height, (resize pools this' width height).2 = []).
Proof.
  unfold destroy, present_textures, NULL_HANDLE.
  cbn [_poolHandle _depthStencilTexture _colorTextures].
  rewrite destroy_colorTextures_present.
  destruct (_poolHandle this =? 0) eqn:Hh; cbn [negb].
  - apply Z.eqb_eq in Hh. intros _. cbn. rewrite Hh. cbn.
    split; [| split; [| split; [reflexivity | split; [reflexivity | split; [reflexivity |]]]]].
    + intros _. rewrite map_app. now destruct (_depthStencilTexture this).
    + intros Hne. now contradiction Hne.
    + intros width height. unfold resize. cbn.
      destruct (js_gt width (_nativeWidth this) || js_gt height (_nativeHeight this));
        [| reflexivity].
      cbn. now destruct (FramebufferPool_get pools _).
  - apply Z.eqb_neq in Hh.
    destruct (FramebufferPool_get pools _) as [fb|]; [| discriminate].
    intros _. cbn.
    split; [| split; [| split; [reflexivity | split; [reflexivity | split; [reflexivity |]]]]].
    + intros He. now contradiction Hh.
    + intros _. exists fb. split; [reflexivity |].
      rewrite map_app, <- app_assoc. now destruct (_depthStencilTexture this).
    + intros width height. unfold resize. cbn.
      destruct (js_gt width (_nativeWidth this) || js_gt height (_nativeHeight this));
        [| reflexivity].
      cbn. now destruct (FramebufferPool_get pools _).
Qed.

Lemma destroy_idempotent_witness :
  (exists fb,
     FramebufferPool_get example_pools
       (RenderWindowPool_get_FRAMEBUFFER example_pools (_poolHandle window_800x600))
     = Some fb /\
     (destroy example_pools window_800x600).1.2
     = map TextureDestroy (present_textures window_800x600) ++ [FramebufferDestroyed fb]) /\
  destroy example_pools (destroy example_pools window_800x600).1.1
  = ((destroy example_pools window_800x600).1.1, [], false).
Proof.
  pose proof (destroy_idempotent example_pools window_800x600 eq_refl) as H.
  split.
  - apply (proj1 (proj2 H)). discriminate.
  - exact (proj1 (proj2 (proj2 (proj2 (proj2 H))))).
Defined.

(** The window of the example gives up its depth-stencil texture, its
    colour texture and its framebuffer, in this order. *)
Example destroy_800x600 :
  (destroy example_pools window_800x600).1.2
  = [TextureDestroy 2%nat; TextureDestroy 1%nat; FramebufferDestroyed 7%nat].
Proof. reflexivity. Qed.

(** X7.  [resize] is idempotent: repeating a call with the same size
    makes no GFX call and leaves the window as the first call left it,
    whether or not the first call reallocated (and also for a size that
    is not a number). *)
Theorem resize_idempotent (pools : Pools) (this : RenderWindow) (width height : double) :
  resize pools (resize pools this width height).1 width height
  = ((resize pools this width height).1, []).
Proof.
  unfold resize at 2 3.
  destruct (js_gt width (_nativeWidth this) || js_gt height (_nativeHeight this)) eqn:Hgt.
  - cbn [_depthStencilTexture _colorTextures _poolHandle _renderPass].
    destruct (match _depthStencilTexture this with
              | Some ds => _ | None => _ end) as [calls1 nb1].
    destruct (resize_colorTextures _ _ _ _) as [calls2 nb2].
    cbn [fst]. unfold resize. cbn. now rewrite !js_gt_irrefl.
  - cbn [fst]. unfold resize. cbn. now rewrite Hgt.
Qed.

(* ===================================================================== *)
(** * Further properties: records of numbers *)
(* ===================================================================== *)

Section record_facts.
Context {cfg : BuildConfig}.

(** X8.  Vectors and quaternions survive the trip to the script side and
    back: what [Vec2_to_seval], [Vec3_to_seval], [Vec4_to_seval] and
    [Quaternion_to_seval] build is converted back, with success, to the
    very same [float] fields, whatever the output held before. *)
Theorem vector_roundtrips (ret : se.Value) :
  (forall v out : cocos2d.Vec2,
     valid_float (cocos2d.x v) = true -> valid_float (cocos2d.y v) = true ->
     seval_to_Vec2 (Vec2_to_seval v ret).2 out = Returned (true, v)) /\
  (forall v out : Vec3.t,
     valid_float (Vec3.x v) = true -> valid_float (Vec3.y v) = true ->
     valid_float (Vec3.z v) = true ->
     seval_to_Vec3 (Vec3_to_seval v ret).2 out = Returned (true, v)) /\
  (forall v out : Vec4.t,
     valid_float (Vec4.x v) = true -> valid_float (Vec4.y v) = true ->
     valid_float (Vec4.z v) = true -> valid_float (Vec4.w v) = true ->
     seval_to_Vec4 (Vec4_to_seval v ret).2 out = Returned (true, v)) /\
  (forall v out : Quaternion.t,
     valid_float (Quaternion.x v) = true -> valid_float (Quaternion.y v) = true ->
     valid_float (Quaternion.z v) = true -> valid_float (Quaternion.w v) = true ->
     seval_to_Quaternion (Quaternion_to_seval v ret).2 out = Returned (true, v)).
Proof.
  repeat split; intros [] out; cbn -[toFloat double_of_float]; intros;
    rewrite !toFloat_double_of_float by assumption; reflexivity.
Qed.

(** X9.  Sizes, rectangles, affine transforms and viewports survive the
    round trip in the same way. *)
Theorem geometry_roundtrips (ret : se.Value) :
  (forall v out : cocos2d.Size,
     valid_float (cocos2d.width v) = true -> valid_float (cocos2d.height v) = true ->
     seval_to_Size (Size_to_seval v ret).2 out = Returned (true, v)) /\
  (forall v out : Rect.t,
     valid_float (cocos2d.x (Rect.origin v)) = true ->
     valid_float (cocos2d.y (Rect.origin v)) = true ->
     valid_float (cocos2d.width (Rect.size v)) = true ->
     valid_float (cocos2d.height (Rect.size v)) = true ->
     seval_to_Rect (Rect_to_seval v ret).2 out = Returned (true, v)) /\
  (forall v out : AffineTransform.t,
     valid_float (AffineTransform.a v) = true -> valid_float (AffineTransform.b v) = true ->
     valid_float (AffineTransform.c v) = true -> valid_float (AffineTransform.d v) = true ->
     valid_float (AffineTransform.tx v) = true -> valid_float (AffineTransform.ty v) = true ->
     seval_to_AffineTransform (AffineTransform_to_seval v ret).2 out = Returned (true, v)) /\
  (forall v out : Viewport.t,
     valid_float (Viewport._left v) = true -> valid_float (Viewport._bottom v) = true ->
     valid_float (Viewport._width v) = true -> valid_float (Viewport._height v) = true ->
     seval_to_Viewport (Viewport_to_seval v ret).2 out = Returned (true, v)).
Proof.
  repeat split.
  - intros [] out; cbn -[toFloat double_of_float]; intros;
      rewrite !toFloat_double_of_float by assumption; reflexivity.
  - intros [[] []] out; cbn -[toFloat double_of_float]; intros;
      rewrite !toFloat_double_of_float by assumption; reflexivity.
  - intros [] out; cbn -[toFloat double_of_float]; intros;
      rewrite !toFloat_double_of_float by assumption; reflexivity.
  - intros [] out; cbn -[toFloat double_of_float]; intros;
      rewrite !toFloat_double_of_float by assumption; reflexivity.
Qed.

(** X10.  An acceleration sample is made of [double]s, which are stored
    in script numbers as they are: the round trip is exact for every
    value, NaN and infinities included. *)
Theorem Acceleration_roundtrip (v out : Acceleration.t) (ret : se.Value) :
  seval_to_Acceleration (Acceleration_to_seval v ret).2 out = Returned (true, v).
Proof. destruct v. reflexivity. Qed.

End record_facts.

Lemma vector_roundtrips_witness :
  seval_to_Vec3 (cfg := debug_build)
    (Vec3_to_seval {| Vec3.x := float_of_Z 1; Vec3.y := float_of_Z 2; Vec3.z := float_of_Z 3 |}
       se.Undefined).2 Vec3.ZERO
  = Returned (true, {| Vec3.x := float_of_Z 1; Vec3.y := float_of_Z 2; Vec3.z := float_of_Z 3 |}).
Proof.
  apply (proj1 (proj2 (vector_roundtrips (cfg := debug_build) se.Undefined))); reflexivity.
Defined.

Lemma geometry_roundtrips_witness :
  seval_to_Size (cfg := debug_build)
    (Size_to_seval {| cocos2d.width := float_of_Z 800; cocos2d.height := float_of_Z 600 |}
       se.Undefined).2 Size_ZERO
  = Returned (true, {| cocos2d.width := float_of_Z 800; cocos2d.height := float_of_Z 600 |}).
Proof.
  apply (proj1 (geometry_roundtrips (cfg := debug_build) se.Undefined)); reflexivity.
Defined.

Section overwrite_facts.
Context {cfg : BuildConfig} {casts : IntegerCasts} {ucasts : UnsignedCasts}.

(** X11.  No record conversion lets the prior content of its output
    show through: for the same script value, two calls with different
    prior contents of the output give the same result.  This holds for
    the conversions that assign at the end as well as for those that fill
    the output field by field (on failure they store the zero constant,
    on success every field has been overwritten). *)
Theorem seval_to_record_ignores_output (v : se.Value) :
  (forall out1 out2, seval_to_Vec2 v out1 = seval_to_Vec2 v out2) /\
  (forall out1 out2, seval_to_Vec3 v out1 = seval_to_Vec3 v out2) /\
  (forall out1 out2, seval_to_Vec4 v out1 = seval_to_Vec4 v out2) /\
  (forall out1 out2, seval_to_Size v out1 = seval_to_Size v out2) /\
  (forall out1 out2, seval_to_Rect v out1 = seval_to_Rect v out2) /\
  (forall out1 out2, seval_to_Color3B v out1 = seval_to_Color3B v out2) /\
  (forall out1 out2, seval_to_Color4B v out1 = seval_to_Color4B v out2) /\
  (forall out1 out2, seval_to_Color4F v out1 = seval_to_Color4F v out2) /\
  (forall out1 out2, seval_to_Quaternion v out1 = seval_to_Quaternion v out2) /\
  (forall out1 out2, seval_to_Acceleration v out1 = seval_to_Acceleration v out2) /\
  (forall out1 out2, seval_to_AffineTransform v out1 = seval_to_AffineTransform v out2) /\
  (forall out1 out2, seval_to_Viewport v out1 = seval_to_Viewport v out2) /\
  (forall out1 out2, seval_to_ResourceData v out1 = seval_to_ResourceData v out2) /\
  (forall out1 out2, seval_to_blendfunc v out1 = seval_to_blendfunc v out2).
Proof.
  repeat split; intros out1 out2; try reflexivity;
    unfold seval_to_Quaternion, seval_to_Acceleration, seval_to_AffineTransform,
      seval_to_Viewport, seval_to_ResourceData, seval_to_blendfunc, seval.getProperty;
    (destruct (assert_ (se.isObject v)); [| reflexivity | reflexivity]);
    (destruct (se.toObject v) as [obj| |]; [| reflexivity | reflexivity]);
    cbn [mbind outcome_bind];
    repeat match goal with
           | |- context [se.getProperty obj ?k] =>
               destruct (se.getProperty obj k) as [?x|]; cbn; [| reflexivity]
           | |- context [se.isNumber ?x] =>
               destruct (se.isNumber x); cbn; [| reflexivity]
           | |- context [se.isString ?x] =>
               destruct (se.isString x); cbn; [| reflexivity]
           | |- context [toNumber_unguarded ?x] =>
               destruct (toNumber_unguarded x); cbn; [| reflexivity | reflexivity]
           end;
    reflexivity.
Qed.

End overwrite_facts.

(* ===================================================================== *)
(** * Further properties: matrices *)
(* ===================================================================== *)

Section matrix_facts.
Context {cfg : BuildConfig}.
Import cocos2d.

Lemma seval_to_Mat4_loop_spec (l : list se.Value) :
  forall (pre : list se.Value) (done todo : list float),
    length done = length pre -> length todo = length l ->
    seval_to_Mat4_loop (se.ArrayObject (pre ++ l)) (seq (length pre) (length l))
      {| m := done ++ todo |}
    = if forallb se.isNumber l
      then Returned (true, {| m := done ++ map (fun x => toFloat (seval.toNumber x)) l |})
      else Returned (false, Mat4_IDENTITY).
Proof.
  induction l as [|x l IH]; intros pre done todo Hdone Htodo.
  - destruct todo; [| discriminate Htodo]. reflexivity.
  - destruct todo as [|y todo]; [discriminate Htodo |].
    cbn [length seq seval_to_Mat4_loop se.getArrayElement forallb map].
    rewrite list_lookup_middle by reflexivity. cbn [default from_option id].
    destruct (se.isNumber x); cbn [andb]; [| reflexivity].
    cbn [m]. rewrite <- Hdone, insert_app_r_alt by lia. rewrite Nat.sub_diag.
    change (<[0%nat := toFloat (seval.toNumber x)]> (y :: todo))
      with (toFloat (seval.toNumber x) :: todo).
    specialize (IH (pre ++ [x]) (done ++ [toFloat (seval.toNumber x)]) todo).
    rewrite !length_app, <- !app_assoc in IH. cbn [length app] in IH.
    rewrite Hdone, Nat.add_1_r in IH. rewrite Hdone.
    apply IH; [reflexivity | now injection Htodo].
Qed.

(** X12.  What [seval_to_Mat4] accepts: exactly the arrays of 16 numbers.
    For such an array the result is the matrix of the elements narrowed
    to [float], whatever the output held; for an array of another length
    or with an element that is not a number, and for an object that is
    not an array, the call returns [false] and the output is the identity
    matrix. *)
Theorem seval_to_Mat4_accepts (mat : Mat4) :
  length (m mat) = 16%nat ->
  (forall elems : list se.Value,
     seval_to_Mat4 (se.Obj (se.ArrayObject elems)) mat
     = if (length elems =? 16)%nat && forallb se.isNumber elems
       then Returned (true, {| m := map (fun x => toFloat (seval.toNumber x)) elems |})
       else Returned (false, Mat4_IDENTITY)) /\
  (forall props : list (string * se.Value),
     seval_to_Mat4 (se.Obj (se.PlainObject props)) mat = Returned (false, Mat4_IDENTITY)).
Proof.
  intros Hmat. split; [| reflexivity].
  intros elems. unfold seval_to_Mat4.
  cbn [se.isObject assert_ se.toObject mbind outcome_bind se.isArray JSB_PRECONDITION3
       se.getArrayLength].
  destruct (Nat.eqb_spec (length elems) 16) as [Hlen | Hlen]; cbn [negb andb];
    [| reflexivity].
  destruct mat as [mm]. cbn [m] in Hmat.
  apply (seval_to_Mat4_loop_spec elems [] [] mm); [reflexivity | congruence].
Qed.

End matrix_facts.

Lemma seval_to_Mat4_accepts_witness :
  seval_to_Mat4 (cfg := debug_build)
    (se.Obj (se.ArrayObject (replicate 15 (se.Number (double_of_Z 1)) ++ [se.String "x"])))
    cocos2d.Mat4_IDENTITY
  = Returned (false, cocos2d.Mat4_IDENTITY).
Proof.
  exact (proj1 (seval_to_Mat4_accepts (cfg := debug_build) cocos2d.Mat4_IDENTITY eq_refl)
           (replicate 15 (se.Number (double_of_Z 1)) ++ [se.String "x"])).
Defined.

(* ===================================================================== *)
(** * Further properties: colours *)
(* ===================================================================== *)

Section colour_facts.
Context {cfg : BuildConfig} {casts : IntegerCasts}.

(** X13.  The alpha channel is not validated.  When [r], [g] and [b] are
    numbers, [seval_to_Color4B] and [seval_to_Color4F] fail only if the
    property [a] is missing altogether (the output is then opaque black);
    if [a] is there, whatever its kind, neither conversion returns
    [false], and with a numeric [a] both succeed. *)
Theorem seval_to_Color4_alpha_unchecked (obj : se.Object) (rv gv bv : se.Value)
    (out : Color4B.t) (outF : Color4F.t) :
  se.getProperty obj "r" = Some rv -> se.isNumber rv = true ->
  se.getProperty obj "g" = Some gv -> se.isNumber gv = true ->
  se.getProperty obj "b" = Some bv -> se.isNumber bv = true ->
  (se.getProperty obj "a" = None ->
     seval_to_Color4B (se.Obj obj) out = Returned (false, Color4B.BLACK) /\
     seval_to_Color4F (se.Obj obj) outF = Returned (false, Color4F.BLACK)) /\
  (forall av, se.getProperty obj "a" = Some av ->
     ~ returns_false (seval_to_Color4B (se.Obj obj) out) /\
     ~ returns_false (seval_to_Color4F (se.Obj obj) outF) /\
     (se.isNumber av = true ->
        seval_to_Color4B (se.Obj obj) out
        = Returned (true, {| Color4B.r := to_GLubyte (toUint16 (seval.toNumber rv));
                             Color4B.g := to_GLubyte (toUint16 (seval.toNumber gv));
                             Color4B.b := to_GLubyte (toUint16 (seval.toNumber bv));
                             Color4B.a := to_GLubyte (toUint16 (seval.toNumber av)) |}))).
Proof.
  intros Hr Hrn Hg Hgn Hb Hbn.
  unfold seval_to_Color4B, seval_to_Color4F, seval.getProperty, returns_false.
  cbn. rewrite Hr, Hg, Hb. cbn. rewrite Hrn, Hgn, Hbn. cbn. split.
  - intros ->. split; reflexivity.
  - intros av ->. cbn.
    destruct av; cbn; unfold assert_; destruct NDEBUG; cbn;
      (split; [intros [t Ht]; discriminate Ht |]);
      (split; [intros [t Ht]; discriminate Ht |]);
      first [discriminate | reflexivity].
Qed.

(** X14.  [Color4F_to_seval] and [seval_to_Color4F] are not inverse to
    each other: the channels are written as they are, but read back
    divided by 255. *)
Theorem Color4F_roundtrip_scales (c out : Color4F.t) (ret : se.Value) :
  valid_float (Color4F.r c) = true -> valid_float (Color4F.g c) = true ->
  valid_float (Color4F.b c) = true -> valid_float (Color4F.a c) = true ->
  seval_to_Color4F (Color4F_to_seval c ret).2 out
  = Returned (true, {| Color4F.r := float_div (Color4F.r c) (float_of_Z 255);
                       Color4F.g := float_div (Color4F.g c) (float_of_Z 255);
                       Color4F.b := float_div (Color4F.b c) (float_of_Z 255);
                       Color4F.a := float_div (Color4F.a c) (float_of_Z 255) |}).
Proof.
  destruct c. cbn -[toFloat double_of_float float_div float_of_Z]. intros.
  rewrite !toFloat_double_of_float by assumption. reflexivity.
Qed.

(** X15.  Byte colours survive the round trip whenever the cast to
    [uint16_t] is exact on the integers 0..255 (as it is for every
    conforming compiler): [Color3B] and [Color4B] values with channels in
    that range come back unchanged. *)
Theorem Color_bytes_roundtrip (ret : se.Value) :
  (forall i, 0 <= i < 256 -> toUint16 (double_of_Z i) = i) ->
  (forall (c out : cocos2d.Color3B),
     0 <= cocos2d.r c < 256 -> 0 <= cocos2d.g c < 256 -> 0 <= cocos2d.b c < 256 ->
     seval_to_Color3B (Color3B_to_seval c ret).2 out = Returned (true, c)) /\
  (forall (c out : Color4B.t),
     0 <= Color4B.r c < 256 -> 0 <= Color4B.g c < 256 ->
     0 <= Color4B.b c < 256 -> 0 <= Color4B.a c < 256 ->
     seval_to_Color4B (Color4B_to_seval c ret).2 out = Returned (true, c)).
Proof.
  intros Hcast. split; intros [] out; cbn -[double_of_Z]; intros;
    rewrite !Hcast by assumption; unfold to_GLubyte;
    rewrite !Z.mod_small by assumption; reflexivity.
Qed.

End colour_facts.

Lemma seval_to_Color4_alpha_unchecked_witness :
  ~ returns_false
      (seval_to_Color4B (cfg := release_build) (casts := wrapping_casts)
         (se.Obj (se.PlainObject [("r"%string, se.Number (double_of_Z 1));
                                  ("g"%string, se.Number (double_of_Z 2));
                                  ("b"%string, se.Number (double_of_Z 3));
                                  ("a"%string, se.String "opaque")]))
         Color4B.BLACK).
Proof.
  apply (proj2 (seval_to_Color4_alpha_unchecked (cfg := release_build) (casts := wrapping_casts)
                  (se.PlainObject [("r"%string, se.Number (double_of_Z 1));
                                   ("g"%string, se.Number (double_of_Z 2));
                                   ("b"%string, se.Number (double_of_Z 3));
                                   ("a"%string, se.String "opaque")])
                  (se.Number (double_of_Z 1)) (se.Number (double_of_Z 2))
                  (se.Number (double_of_Z 3)) Color4B.BLACK Color4F.BLACK
                  eq_refl eq_refl eq_refl eq_refl eq_refl eq_refl)
               (se.String "opaque") eq_refl).
Defined.

(** Opaque white comes back as (1/255, 1/255, 1/255, 1/255). *)
Lemma Color4F_roundtrip_scales_witness :
  let white := {| Color4F.r := float_of_Z 1; Color4F.g := float_of_Z 1;
                  Color4F.b := float_of_Z 1; Color4F.a := float_of_Z 1 |} in
  exists c,
    seval_to_Color4F (cfg := debug_build) (Color4F_to_seval white se.Undefined).2 Color4F.BLACK
    = Returned (true, c) /\ c <> white.
Proof.
  intros white. eexists. split.
  - apply (Color4F_roundtrip_scales (cfg := debug_build) white Color4F.BLACK se.Undefined);
      reflexivity.
  - vm_compute. discriminate.
Defined.

Lemma wrapping_casts_toUint16_exact (i : Z) :
  0 <= i < 256 -> toUint16 (IntegerCasts := wrapping_casts) (double_of_Z i) = i.
Proof.
  intros Hi.
  assert (Hall : forallb (fun j => toUint16 (IntegerCasts := wrapping_casts) (double_of_Z j) =? j)
                   (map Z.of_nat (seq 0 256)) = true) by (vm_compute; reflexivity).
  rewrite forallb_forall in Hall. apply Z.eqb_eq, Hall.
  apply in_map_iff. exists (Z.to_nat i). split; [lia | apply in_seq; lia].
Qed.

Lemma Color_bytes_roundtrip_witness :
  seval_to_Color3B (cfg := debug_build) (casts := wrapping_casts)
    (Color3B_to_seval cocos2d.Color3B_BLUE se.Undefined).2 cocos2d.Color3B_WHITE
  = Returned (true, cocos2d.Color3B_BLUE).
Proof.
  apply (proj1 (Color_bytes_roundtrip (cfg := debug_build) (casts := wrapping_casts)
                  se.Undefined wrapping_casts_toUint16_exact)); cbn; lia.
Defined.

(* ===================================================================== *)
(** * Further properties: resource descriptions and blend functions *)
(* ===================================================================== *)

Section resource_facts.
Context {cfg : BuildConfig} {casts : IntegerCasts} {ucasts : UnsignedCasts}.

(** X16.  The two directions disagree on the key of the file name:
    [ResourceData_to_seval] writes it as [file], [seval_to_ResourceData]
    reads [name].  So the object built from any resource description is
    rejected on the way back (the output is zeroed), whereas an object
    carrying a number [type] and strings [name] and [plist] is accepted,
    [name] ending up in the field [file]. *)
Theorem ResourceData_key_mismatch (v out : ResourceData.t) (ret : se.Value) :
  seval_to_ResourceData (ResourceData_to_seval v ret).2 out
    = Returned (false, ResourceData_ZERO) /\
  forall (obj : se.Object) (d : double) (name plist : string),
    se.getProperty obj "type" = Some (se.Number d) ->
    se.getProperty obj "name" = Some (se.String name) ->
    se.getProperty obj "plist" = Some (se.String plist) ->
    seval_to_ResourceData (se.Obj obj) out
    = Returned (true, {| ResourceData.type := toInt32 d;
                         ResourceData.file := name;
                         ResourceData.plist := plist |}).
Proof.
  split; [reflexivity |].
  intros obj d name plist Ht Hn Hp.
  unfold seval_to_ResourceData, seval.getProperty. cbn.
  rewrite Ht. cbn. rewrite Hn. cbn. rewrite Hp. reflexivity.
Qed.

(** X17.  A blend function survives the round trip when the cast to
    [uint32_t] is exact on its two factors; and an object lacking [src]
    is rejected with the output set to [BlendFunc::DISABLE]. *)
Theorem blendfunc_roundtrip (v out : BlendFunc.t) (ret : se.Value) :
  toUint32 (double_of_Z (BlendFunc.src v)) = BlendFunc.src v ->
  toUint32 (double_of_Z (BlendFunc.dst v)) = BlendFunc.dst v ->
  seval_to_blendfunc (blendfunc_to_seval v ret).2 out = Returned (true, v) /\
  forall obj, se.getProperty obj "src" = None ->
    seval_to_blendfunc (se.Obj obj) out = Returned (false, BlendFunc.DISABLE).
Proof.
  intros Hs Hd. split.
  - destruct v as [s d]. cbn -[double_of_Z] in *. now rewrite Hs, Hd.
  - intros obj Hsrc. unfold seval_to_blendfunc, seval.getProperty. cbn. now rewrite Hsrc.
Qed.

End resource_facts.

(** [{GL_SRC_ALPHA, GL_ONE_MINUS_SRC_ALPHA}], that is (0x0302, 0x0303). *)
Lemma blendfunc_roundtrip_witness :
  seval_to_blendfunc (cfg := debug_build) (ucasts := wrapping_ucasts)
    (blendfunc_to_seval {| BlendFunc.src := 770; BlendFunc.dst := 771 |} se.Undefined).2
    BlendFunc.DISABLE
  = Returned (true, {| BlendFunc.src := 770; BlendFunc.dst := 771 |}).
Proof.
  apply (proj1 (blendfunc_roundtrip (cfg := debug_build) (ucasts := wrapping_ucasts)
                  {| BlendFunc.src := 770; BlendFunc.dst := 771 |} BlendFunc.DISABLE
                  se.Undefined eq_refl eq_refl)).
Defined.

(* ===================================================================== *)
(** * Further properties: vectors and maps of scalars *)
(* ===================================================================== *)

Lemma std_vector_T_to_seval_fold {T : Type} (of_T : T -> se.Value) (rest : list T) :
  forall done : list se.Value,
    foldl (fun '(obj, i) value => (se.setArrayElement obj i (of_T value), S i))
      (se.ArrayObject (done ++ replicate (length rest) se.Undefined), length done) rest
    = (se.ArrayObject (done ++ map of_T rest), (length done + length rest)%nat).
Proof.
  induction rest as [|x rest IH]; intros done.
  - cbn. now rewrite Nat.add_0_r.
  - cbn [foldl length replicate map se.setArrayElement].
    destruct (decide (length done < length (done ++ se.Undefined :: replicate (length rest) se.Undefined))%nat)
      as [_ | Hge]; [| exfalso; apply Hge; rewrite length_app; cbn; lia].
    rewrite insert_app_r_alt by lia. rewrite Nat.sub_diag.
    change (<[0%nat := of_T x]> (se.Undefined :: replicate (length rest) se.Undefined))
      with (of_T x :: replicate (length rest) se.Undefined).
    specialize (IH (done ++ [of_T x])).
    replace (S (length done)) with (length (done ++ [of_T x]))
      by (rewrite length_app; cbn; lia).
    rewrite (cons_middle (of_T x) done), app_assoc, IH.
    rewrite length_app. cbn [length]. rewrite <- app_assoc. cbn. f_equal. lia.
Qed.

(** What the vector conversions build: the array of the converted
    elements. *)
Lemma std_vector_T_to_seval_array {T : Type} (of_T : T -> se.Value) (v : list T)
    (ret : se.Value) :
  std_vector_T_to_seval of_T v ret = (true, se.Obj (se.ArrayObject (map of_T v))).
Proof.
  unfold std_vector_T_to_seval, se.createArrayObject.
  pose proof (std_vector_T_to_seval_fold of_T v []) as H. cbn [app length] in H.
  now rewrite H.
Qed.

Lemma map_lookup_middle {T : Type} (of_T : T -> se.Value) (pre : list T) (a : T) (l : list T) :
  se.getArrayElement (se.ArrayObject (map of_T (pre ++ a :: l))) (length pre) = Some (of_T a).
Proof.
  cbn. change (map of_T (pre ++ a :: l)) with (of_T <$> (pre ++ a :: l)).
  rewrite list_lookup_fmap, list_lookup_middle by reflexivity. reflexivity.
Qed.

Section vector_facts.
Context {cfg : BuildConfig} {casts : IntegerCasts}.

Lemma seval_to_std_vector_string_loop_map (l : list string) :
  forall (pre ret : list string),
    seval_to_std_vector_string_loop
      (se.ArrayObject (map seobj.of_string (pre ++ l))) (seq (length pre) (length l)) ret
    = Returned (true, ret ++ l).
Proof.
  induction l as [|a l IH]; intros pre ret.
  - cbn. now rewrite app_nil_r.
  - cbn [length seq seval_to_std_vector_string_loop].
    rewrite map_lookup_middle. cbn.
    specialize (IH (pre ++ [a]) (ret ++ [a])).
    rewrite length_app, <- !app_assoc in IH. cbn in IH.
    rewrite Nat.add_1_r in IH. exact IH.
Qed.

Lemma seval_to_std_vector_float_loop_map (l : list float) :
  Forall (fun f => valid_float f = true) l ->
  forall (pre ret : list float),
    seval_to_std_vector_float_loop
      (se.ArrayObject (map seobj.of_float (pre ++ l))) (seq (length pre) (length l)) ret
    = Returned (true, ret ++ l).
Proof.
  induction 1 as [|a l Ha Hl IH]; intros pre ret.
  - cbn. now rewrite app_nil_r.
  - cbn [length seq seval_to_std_vector_float_loop].
    rewrite map_lookup_middle. cbn -[toFloat double_of_float].
    rewrite toFloat_double_of_float by assumption.
    specialize (IH (pre ++ [a]) (ret ++ [a])).
    rewrite length_app, <- !app_assoc in IH. cbn in IH.
    rewrite Nat.add_1_r in IH. exact IH.
Qed.

Lemma seval_to_std_vector_int_loop_map (l : list Z) :
  Forall (fun i => toInt32 (double_of_Z i) = i) l ->
  forall (pre ret : list Z),
    seval_to_std_vector_int_loop
      (se.ArrayObject (map seobj.of_int (pre ++ l))) (seq (length pre) (length l)) ret
    = Returned (true, ret ++ l).
Proof.
  induction 1 as [|a l Ha Hl IH]; intros pre ret.
  - cbn. now rewrite app_nil_r.
  - cbn [length seq seval_to_std_vector_int_loop].
    rewrite map_lookup_middle. cbn -[double_of_Z].
    rewrite Ha.
    specialize (IH (pre ++ [a]) (ret ++ [a])).
    rewrite length_app, <- !app_assoc in IH. cbn in IH.
    rewrite Nat.add_1_r in IH. exact IH.
Qed.

Lemma seval_to_std_vector_Vec2_loop_map (r : se.Value) (l : list cocos2d.Vec2) :
  Forall (fun v => valid_float (cocos2d.x v) = true /\ valid_float (cocos2d.y v) = true) l ->
  forall (pre : list cocos2d.Vec2) (pt : cocos2d.Vec2) (ret : list cocos2d.Vec2),
    seval_to_std_vector_Vec2_loop
      (se.ArrayObject (map (fun v => (Vec2_to_seval v r).2) (pre ++ l)))
      (seq (length pre) (length l)) pt ret
    = Returned (true, ret ++ l).
Proof.
  induction 1 as [|[vx vy] l [Hx Hy] Hl IH]; intros pre pt ret.
  - cbn. now rewrite app_nil_r.
  - cbn [length seq seval_to_std_vector_Vec2_loop].
    rewrite (map_lookup_middle (fun v => (Vec2_to_seval v r).2)).
    cbn -[toFloat double_of_float] in Hx, Hy |- *.
    rewrite !toFloat_double_of_float by assumption. cbn.
    specialize (IH (pre ++ [{| cocos2d.x := vx; cocos2d.y := vy |}])
                  {| cocos2d.x := vx; cocos2d.y := vy |}
                  (ret ++ [{| cocos2d.x := vx; cocos2d.y := vy |}])).
    rewrite length_app, <- !app_assoc in IH. cbn in IH.
    rewrite Nat.add_1_r in IH. exact IH.
Qed.

(** X18.  Vectors of scalars survive the round trip, and the conversion
    to native appends: the elements read from the script array are added
    after whatever the output vector already held, which is not cleared
    on success.  Strings always come back unchanged, [float]s when they
    are binary32 values, [int]s when the cast to [int32_t] is exact on
    them; an array of points built with [Vec2_to_seval] is read back by
    [seval_to_std_vector_Vec2] in the same way. *)
Theorem std_vector_roundtrip_appends (r : se.Value) :
  (forall v ret : list string,
     seval_to_std_vector_string (std_vector_string_to_seval v r).2 ret
     = Returned (true, ret ++ v)) /\
  (forall v ret : list float,
     Forall (fun f => valid_float f = true) v ->
     seval_to_std_vector_float (std_vector_float_to_seval v r).2 ret
     = Returned (true, ret ++ v)) /\
  (forall v ret : list Z,
     Forall (fun i => toInt32 (double_of_Z i) = i) v ->
     seval_to_std_vector_int (std_vector_int_to_seval v r).2 ret
     = Returned (true, ret ++ v)) /\
  (forall v ret : list cocos2d.Vec2,
     Forall (fun p => valid_float (cocos2d.x p) = true /\ valid_float (cocos2d.y p) = true) v ->
     seval_to_std_vector_Vec2
       (se.Obj (se.ArrayObject (map (fun p => (Vec2_to_seval p r).2) v))) ret
     = Returned (true, ret ++ v)).
Proof.
  unfold std_vector_string_to_seval, std_vector_float_to_seval, std_vector_int_to_seval.
  split; [| split; [| split]]; intros v ret; rewrite ?std_vector_T_to_seval_array;
    cbn [snd]; unfold seval_to_std_vector_string, seval_to_std_vector_float,
      seval_to_std_vector_int, seval_to_std_vector_Vec2;
    cbn [se.isObject assert_ se.toObject se.isArray se.getArrayLength mbind outcome_bind];
    rewrite length_map.
  - apply (seval_to_std_vector_string_loop_map v [] ret).
  - intros Hv. apply (seval_to_std_vector_float_loop_map v Hv [] ret).
  - intros Hv. apply (seval_to_std_vector_int_loop_map v Hv [] ret).
  - intros Hv. apply (seval_to_std_vector_Vec2_loop_map r v Hv [] _ ret).
Qed.

End vector_facts.

Lemma std_vector_roundtrip_appends_witness :
  seval_to_std_vector_float (cfg := debug_build)
    (std_vector_float_to_seval [float_of_Z 2; float_of_Z 3] se.Undefined).2 [float_of_Z 1]
  = Returned (true, [float_of_Z 1; float_of_Z 2; float_of_Z 3]).
Proof.
  apply (proj1 (proj2 (std_vector_roundtrip_appends (cfg := debug_build)
                         (casts := wrapping_casts) se.Undefined))
           [float_of_Z 2; float_of_Z 3] [float_of_Z 1]).
  repeat constructor.
Defined.

(** A loop over a [std::map] meets every entry once. *)
Lemma std_map_entries_Permutation {A : Type} (m : gmap string A) :
  std_map_entries m ≡ₚ map_to_list m.
Proof. apply merge_sort_Permutation. Qed.

Lemma std_map_entries_singleton {A : Type} (k : string) (v : A) :
  std_map_entries ({[ k := v ]} : gmap string A) = [(k, v)].
Proof. unfold std_map_entries. rewrite map_to_list_singleton. reflexivity. Qed.

(** Taking the C string twice changes nothing more. *)
Lemma c_str_idemp (s : string) : c_str (c_str s) = c_str s.
Proof.
  induction s as [|c s IH]; cbn; [reflexivity |].
  destruct (Ascii.eqb c Ascii.zero) eqn:Hc; cbn; [reflexivity |].
  now rewrite Hc, IH.
Qed.

(** Reading a property after assignments to an object. *)
Lemma assoc_props_set (name : string) (v : se.Value) (props : list (string * se.Value))
    (k : string) :
  se.assoc k (seobj.props_set name v props)
  = if String.eqb name k then Some v else se.assoc k props.
Proof.
  induction props as [|[k0 v0] props IH]; cbn.
  - reflexivity.
  - destruct (String.eqb_spec k0 name) as [-> | Hne]; cbn.
    + destruct (String.eqb name k); reflexivity.
    + rewrite IH. destruct (String.eqb_spec k0 k) as [-> | Hne']; [| reflexivity].
      destruct (String.eqb_spec name k) as [-> | _]; [contradiction | reflexivity].
Qed.

Lemma assoc_None (props : list (string * se.Value)) (k : string) :
  se.assoc k props = None <-> k ∉ map fst props.
Proof.
  induction props as [|[k0 v0] props IH]; cbn.
  - split; [intros _; apply not_elem_of_nil | reflexivity].
  - rewrite not_elem_of_cons.
    destruct (String.eqb_spec k0 k) as [-> | Hne].
    + split; [discriminate | intros [H _]; contradiction].
    + rewrite IH. split; [intros H; split; [congruence | exact H] | intros [_ H]; exact H].
Qed.

(** The content of a map filled by successive [emplace] calls. *)
Lemma lookup_emplace `{Countable K} {A} (k k' : K) (v : A) (m : gmap K A) :
  cocos2d.emplace k v m !! k'
  = match m !! k' with
    | Some x => Some x
    | None => if decide (k = k') then Some v else None
    end.
Proof.
  unfold cocos2d.emplace. destruct (m !! k) as [x|] eqn:Hk.
  - destruct (m !! k') as [x'|] eqn:Hk'; [reflexivity |].
    destruct (decide (k = k')) as [-> | _]; [congruence | reflexivity].
  - destruct (decide (k = k')) as [-> | Hne].
    + now rewrite lookup_insert_eq, Hk.
    + rewrite lookup_insert_ne by assumption. now destruct (m !! k').
Qed.

Lemma lookup_foldl_emplace `{Countable K} {A} (g : K -> A) (keys : list K) :
  forall (ret : gmap K A) (k : K),
    foldl (fun acc key => cocos2d.emplace key (g key) acc) ret keys !! k
    = match ret !! k with
      | Some x => Some x
      | None => if decide (k ∈ keys) then Some (g k) else None
      end.
Proof.
  induction keys as [|k0 keys IH]; intros ret k; cbn [foldl].
  - destruct (ret !! k); [reflexivity |].
    destruct (decide (k ∈ [])) as [Hin | _]; [| reflexivity].
    now apply elem_of_nil in Hin.
  - rewrite IH, lookup_emplace. destruct (ret !! k) as [x|]; [reflexivity |].
    destruct (decide (k0 = k)) as [-> | Hne].
    + destruct (decide (k ∈ k :: keys)) as [_ | Hnin]; [reflexivity |].
      exfalso. apply Hnin. apply elem_of_cons. now left.
    + destruct (decide (k ∈ keys)) as [Hin | Hnin];
        destruct (decide (k ∈ k0 :: keys)) as [Hin' | Hnin']; try reflexivity.
      * exfalso. apply Hnin'. apply elem_of_cons. now right.
      * apply elem_of_cons in Hin' as [-> | Hin']; contradiction.
Qed.

(** The object [std_map_string_string_to_seval] builds, read by key. *)
Lemma std_map_string_string_to_seval_loop_assoc (entries : list (string * string)) :
  NoDup (map fst entries) ->
  Forall (fun e => c_str e.1 = e.1) entries ->
  forall props : list (string * se.Value),
  exists props',
    std_map_string_string_to_seval_loop entries (se.PlainObject props)
    = (true, se.PlainObject props') /\
    forall k,
      se.assoc k props'
      = if String.eqb k EmptyString then se.assoc k props
        else match (list_to_map entries : gmap string string) !! k with
             | Some s => Some (se.String s)
             | None => se.assoc k props
             end.
Proof.
  induction entries as [|[k0 v0] entries IH]; intros Hnd Hc props.
  - exists props. split; [reflexivity |]. intros k. cbn.
    rewrite lookup_empty. now destruct (String.eqb k EmptyString).
  - cbn [map fst] in Hnd. apply NoDup_cons in Hnd as [Hfresh Hnd].
    apply Forall_cons in Hc as [Hc0 Hc]. cbn [fst] in Hc0.
    cbn [std_map_string_string_to_seval_loop std_string_to_seval negb].
    rewrite Hc0.
    assert (Hrest : (list_to_map entries : gmap string string) !! k0 = None).
    { apply not_elem_of_list_to_map_1. exact Hfresh. }
    destruct (String.eqb_spec k0 EmptyString) as [-> | Hk0].
    + destruct (IH Hnd Hc props) as (props' & Hloop & Hassoc).
      exists props'. split; [exact Hloop |]. intros k. rewrite Hassoc.
      destruct (String.eqb_spec k EmptyString) as [-> | Hk]; [reflexivity |].
      rewrite list_to_map_cons, lookup_insert_ne by (intros E; apply Hk; now rewrite E).
      reflexivity.
    + cbn [seobj.setProperty].
      destruct (IH Hnd Hc (seobj.props_set k0 (se.String v0) props))
        as (props' & Hloop & Hassoc).
      exists props'. split; [exact Hloop |]. intros k. rewrite Hassoc, assoc_props_set.
      rewrite list_to_map_cons.
      destruct (String.eqb_spec k EmptyString) as [-> | Hk].
      * destruct (String.eqb_spec k0 EmptyString); [contradiction | reflexivity].
      * destruct (String.eqb_spec k0 k) as [-> | Hne].
        -- now rewrite lookup_insert_eq, Hrest.
        -- now rewrite lookup_insert_ne by assumption.
Qed.

Section map_facts.
Context {cfg : BuildConfig}.

Lemma seval_to_std_map_string_string_loop_strings (props : list (string * se.Value))
    (g : string -> string) (allKeys : list string) :
  (forall k, k ∈ allKeys -> c_str k = k /\ se.assoc k props = Some (se.String (g k))) ->
  forall (value : se.Value) (strValue : string) (ret : gmap string string),
    seval_to_std_map_string_string_loop (se.PlainObject props) allKeys value strValue ret
    = Returned (true, foldl (fun acc key => cocos2d.emplace key (g key) acc) ret allKeys).
Proof.
  induction allKeys as [|k0 allKeys IH]; intros Hstr value strValue ret; [reflexivity |].
  cbn [seval_to_std_map_string_string_loop foldl].
  destruct (Hstr k0) as [Hc0 Hk0]; [apply elem_of_cons; now left |].
  unfold seval.getProperty. cbn [se.getProperty]. rewrite Hc0, Hk0. cbn.
  apply IH. intros k Hk. apply Hstr. apply elem_of_cons. now right.
Qed.

(** X19.  A map from strings to strings whose keys hold no NUL survives
    the round trip except for an entry under the empty key, which is left
    out on the way to the script side; and the conversion to native
    merges into the output map rather than replacing it: entries already
    there are kept and win over entries of the script object with the
    same key.  A key that holds a NUL is cut there: the property is named
    by the C string of the key, and the entry comes back under it. *)
Theorem std_map_string_string_roundtrip :
  (forall (m ret : gmap string string) (r : se.Value),
     map_Forall (fun k _ => c_str k = k) m ->
     seval_to_std_map_string_string (std_map_string_string_to_seval m r).2 ret
     = Returned (true, ret ∪ delete EmptyString m)) /\
  (forall (k v : string) (ret : gmap string string) (r : se.Value),
     k <> EmptyString ->
     seval_to_std_map_string_string (std_map_string_string_to_seval {[ k := v ]} r).2 ret
     = Returned (true, ret ∪ {[ c_str k := v ]})).
Proof.
  split.
  - intros m ret r Hm.
    unfold std_map_string_string_to_seval, seobj.createPlainObject.
    pose proof (std_map_entries_Permutation m) as Hperm.
    assert (Hnd : NoDup (map fst (std_map_entries m))).
    { change (NoDup (std_map_entries m).*1). rewrite Hperm. apply NoDup_fst_map_to_list. }
    assert (Hc : Forall (fun e : string * string => c_str e.1 = e.1) (std_map_entries m)).
    { rewrite Hperm. apply Forall_forall. intros [k v] Hin.
      apply elem_of_map_to_list in Hin. exact (Hm k v Hin). }
    assert (Hmap : (list_to_map (std_map_entries m) : gmap string string) = m).
    { rewrite (list_to_map_proper _ _ Hnd Hperm). apply list_to_map_to_list. }
    destruct (std_map_string_string_to_seval_loop_assoc (std_map_entries m) Hnd Hc [])
      as (props' & Hloop & Hassoc).
    rewrite Hloop. cbn [snd].
    unfold seval_to_std_map_string_string. cbn.
    assert (Hread : forall k, se.assoc k props' = se.String <$> (delete EmptyString m !! k)).
    { intros k. rewrite Hassoc, Hmap. cbn [se.assoc].
      destruct (String.eqb_spec k EmptyString) as [-> | Hk].
      - now rewrite lookup_delete_eq.
      - rewrite lookup_delete_ne by congruence. now destruct (m !! k). }
    rewrite (seval_to_std_map_string_string_loop_strings props'
               (fun k => default EmptyString (delete EmptyString m !! k))).
    + f_equal. f_equal. apply map_eq. intros k.
      rewrite lookup_foldl_emplace.
      destruct (ret !! k) as [x|] eqn:Hret.
      * symmetry. now apply lookup_union_Some_l.
      * rewrite lookup_union_r by assumption.
        destruct (decide (k ∈ map fst props')) as [Hin | Hnin].
        -- destruct (delete EmptyString m !! k) as [s|] eqn:Hk; [reflexivity |].
           exfalso. revert Hin. apply assoc_None. now rewrite Hread, Hk.
        -- apply assoc_None in Hnin. rewrite Hread in Hnin.
           now destruct (delete EmptyString m !! k).
    + intros k Hk.
      destruct (delete EmptyString m !! k) as [s|] eqn:Hs.
      * split; [| now rewrite Hread, Hs].
        apply lookup_delete_Some in Hs as [_ Hs]. exact (Hm k s Hs).
      * exfalso. revert Hk. apply assoc_None. now rewrite Hread, Hs.
  - intros k v ret r Hk.
    unfold std_map_string_string_to_seval, seobj.createPlainObject.
    rewrite std_map_entries_singleton.
    cbn [std_map_string_string_to_seval_loop std_string_to_seval negb].
    destruct (String.eqb_spec k EmptyString) as [E | _]; [contradiction |].
    cbn [seobj.setProperty seobj.props_set snd].
    unfold seval_to_std_map_string_string. cbn.
    unfold seval.getProperty. cbn [se.getProperty se.assoc].
    rewrite c_str_idemp, String.eqb_refl. cbn.
    f_equal. f_equal. apply map_eq. intros k'.
    rewrite lookup_emplace.
    destruct (ret !! k') as [x|] eqn:Hret.
    + symmetry. now apply lookup_union_Some_l.
    + rewrite lookup_union_r by assumption.
      destruct (decide (c_str k = k')) as [<- | Hne].
      * now rewrite lookup_singleton_eq.
      * now rewrite lookup_singleton_ne.
Qed.

End map_facts.

(** A map with an entry under the empty key, sent and read back into a
    map that holds an entry already; and a key with a NUL after its
    first character, which comes back as that character alone. *)
Lemma std_map_string_string_roundtrip_witness :
  seval_to_std_map_string_string (cfg := release_build)
    (std_map_string_string_to_seval
       {[ "a"%string := "1"%string; ""%string := "2"%string ]} se.Undefined).2
    {[ "z"%string := "0"%string ]}
  = Returned (true, {[ "z"%string := "0"%string ]}
                    ∪ delete EmptyString
                        {[ "a"%string := "1"%string; ""%string := "2"%string ]}) /\
  seval_to_std_map_string_string (cfg := release_build)
    (std_map_string_string_to_seval
       {[ String.String "a" (String.String Ascii.zero "b") := "1"%string ]} se.Undefined).2 ∅
  = Returned (true, ∅ ∪ {[ c_str (String.String "a" (String.String Ascii.zero "b"))
                           := "1"%string ]}).
Proof.
  split.
  - apply (proj1 (std_map_string_string_roundtrip (cfg := release_build))).
    apply map_Forall_insert_2; [reflexivity |].
    apply map_Forall_singleton. reflexivity.
  - apply (proj2 (std_map_string_string_roundtrip (cfg := release_build))).
    discriminate.
Defined.

(** Two keys with the same C string: the entry of the greater key is
    written last and is the one that comes back. *)
Example std_map_string_string_same_c_str :
  seval_to_std_map_string_string (cfg := release_build)
    (std_map_string_string_to_seval
       {[ "a"%string := "1"%string;
          String.String "a" (String.String Ascii.zero "b") := "2"%string ]}
       se.Undefined).2 ∅
  = Returned (true, {[ "a"%string := "2"%string ]}).
Proof. vm_compute. reflexivity. Qed.

(* ===================================================================== *)
(** * Further properties: generic tagged values, both directions *)
(* ===================================================================== *)

(** Induction over a convertible value, with the hypothesis available
    for every element of a vector and every entry of a map. *)
Lemma convertible_nested_ind (P : cocos2d.Value -> Prop) :
  (forall b, P (cocos2d.BOOLEAN b)) ->
  (forall i, P (cocos2d.INTEGER i)) ->
  (forall f, P (cocos2d.FLOAT f)) ->
  (forall d, P (cocos2d.DOUBLE d)) ->
  (forall s, P (cocos2d.STRING s)) ->
  (forall l, Forall P l -> P (cocos2d.VECTOR l)) ->
  (forall m, map_Forall (fun k v => k <> EmptyString -> P v) m -> P (cocos2d.MAP m)) ->
  (forall m, map_Forall (fun _ v => P v) m -> P (cocos2d.INT_KEY_MAP m)) ->
  forall v, convertible v -> P v.
Proof.
  intros Hb Hi Hf Hd Hs Hv Hm Hk. fix IH 2. intros v H.
  destruct H as [b|i|f|d|s|l Hl|m Hm'|m Hm'].
  - apply Hb.
  - apply Hi.
  - apply Hf.
  - apply Hd.
  - apply Hs.
  - apply Hv. revert l Hl. fix IHl 2. intros l Hl.
    destruct Hl as [|x l Hx Hl]; constructor; [apply IH, Hx | apply IHl, Hl].
  - apply Hm. intros k x Hkx Hne. apply IH. exact (Hm' k x Hkx Hne).
  - apply Hk. intros k x Hkx. apply IH. exact (Hm' k x Hkx).
Qed.

(** Printing an [int] in decimal: the text is never empty and determines
    the number. *)
Lemma string_of_int_nonempty (i : Z) : string_of_int i <> EmptyString.
Proof.
  unfold string_of_int. destruct i as [|p|p]; cbn; try discriminate.
  pose proof (DecimalPos.Unsigned.to_uint_nonnil p) as Hp.
  unfold DecimalString.NilZero.string_of_uint.
  destruct (Pos.to_uint p); [contradiction | discriminate ..].
Qed.

Lemma string_of_int_inj : Inj (=) (=) string_of_int.
Proof.
  intros a b Hab. unfold string_of_int in Hab.
  assert (Hnn : forall z, Z.to_int z <> Decimal.Pos Decimal.Nil /\
                          Z.to_int z <> Decimal.Neg Decimal.Nil).
  { intros [|p|p]; cbn; split; try discriminate;
      intros [= E]; now apply (DecimalPos.Unsigned.to_uint_nonnil p). }
  pose proof (DecimalString.NilZero.isi (Z.to_int a) (proj1 (Hnn a)) (proj2 (Hnn a))) as Ha.
  pose proof (DecimalString.NilZero.isi (Z.to_int b) (proj1 (Hnn b)) (proj2 (Hnn b))) as Hb.
  rewrite Hab, Hb in Ha. injection Ha as Ha.
  rewrite <- (DecimalZ.of_to a), <- (DecimalZ.of_to b). now rewrite Ha.
Qed.
#[local] Existing Instance string_of_int_inj.

(** Decimal text holds no NUL. *)
Lemma c_str_string_of_uint (d : Decimal.uint) :
  c_str (DecimalString.NilEmpty.string_of_uint d) = DecimalString.NilEmpty.string_of_uint d.
Proof. induction d; cbn; congruence. Qed.

Lemma c_str_string_of_int (i : Z) : c_str (string_of_int i) = string_of_int i.
Proof.
  assert (Hu : forall d, c_str (DecimalString.NilZero.string_of_uint d)
                         = DecimalString.NilZero.string_of_uint d).
  { intros d. destruct d; try reflexivity; exact (c_str_string_of_uint _). }
  unfold string_of_int.
  destruct i as [|p|p]; cbn [Z.to_int DecimalString.NilZero.string_of_int];
    [reflexivity | apply Hu |].
  cbn. f_equal. apply Hu.
Qed.

(** What the conversions of vectors and maps to the script side build
    when every element converts. *)
Lemma ccvaluevector_to_seval_loop_ok (results : list (bool * se.Value)) :
  Forall (fun r => r.1 = true) results ->
  forall done : list se.Value,
    ccvaluevector_to_seval_loop results (length done)
      (se.ArrayObject (done ++ replicate (length results) se.Undefined))
    = (true, se.ArrayObject (done ++ map snd results)).
Proof.
  induction 1 as [|[ok sv] results Hok _ IH]; intros done.
  - cbn. reflexivity.
  - cbn in Hok. subst ok.
    cbn [ccvaluevector_to_seval_loop negb length replicate map snd se.setArrayElement].
    destruct (decide (length done < length (done ++ se.Undefined :: replicate (length results) se.Undefined))%nat)
      as [_ | Hge]; [| exfalso; apply Hge; rewrite length_app; cbn; lia].
    rewrite insert_app_r_alt by lia. rewrite Nat.sub_diag.
    change (<[0%nat := sv]> (se.Undefined :: replicate (length results) se.Undefined))
      with (sv :: replicate (length results) se.Undefined).
    specialize (IH (done ++ [sv])).
    replace (S (length done)) with (length (done ++ [sv]))
      by (rewrite length_app; cbn; lia).
    replace (done ++ sv :: replicate (length results) se.Undefined)
      with ((done ++ [sv]) ++ replicate (length results) se.Undefined)
      by (now rewrite <- app_assoc).
    rewrite IH, <- app_assoc. reflexivity.
Qed.

Lemma ccvaluemap_to_seval_loop_succeeds (entries : list (string * (bool * se.Value))) :
  Forall (fun e => e.1 <> EmptyString -> e.2.1 = true) entries ->
  forall obj : se.Object, (ccvaluemap_to_seval_loop entries obj).1 = true.
Proof.
  induction 1 as [|[k [ok sv]] entries Hok _ IH]; intros obj; [reflexivity |].
  cbn [ccvaluemap_to_seval_loop]. cbn in Hok.
  destruct (String.eqb_spec k EmptyString) as [-> | Hk]; [apply IH |].
  rewrite (Hok Hk). cbn [negb]. apply IH.
Qed.

(** Every convertible value is accepted on the way to the script side,
    whatever its keys. *)
Lemma convertible_succeeds (v : cocos2d.Value) :
  convertible v -> forall r : se.Value, (ccvalue_to_seval v r).1 = true.
Proof.
  intros Hv. induction Hv as [b|i|f|d|s|l IH|m IH|m IH] using convertible_nested_ind;
    intros r; try reflexivity.
  - set (conv := fun value => ccvalue_to_seval value se.Undefined).
    assert (Hok : Forall (fun r => r.1 = true) (map conv l)).
    { apply Forall_map. eapply Forall_impl; [exact IH |].
      intros x Hx. exact (Hx se.Undefined). }
    pose proof (ccvaluevector_to_seval_loop_ok (map conv l) Hok []) as Hloop.
    rewrite length_map in Hloop. cbn [app length] in Hloop.
    cbn [ccvalue_to_seval]. fold conv. unfold se.createArrayObject.
    now rewrite Hloop.
  - set (conv := fun value => ccvalue_to_seval value se.Undefined).
    assert (Hok : Forall (fun e : string * (bool * se.Value) =>
                            e.1 <> EmptyString -> e.2.1 = true)
                    (map_to_list (conv <$> m))).
    { apply Forall_forall. intros [k res] Hin.
      apply elem_of_map_to_list in Hin. rewrite lookup_fmap in Hin.
      apply fmap_Some in Hin as (x & Hx & ->). cbn. intros Hne.
      exact (IH k x Hx Hne se.Undefined). }
    pose proof (ccvaluemap_to_seval_loop_succeeds _ Hok seobj.createPlainObject) as Hloop.
    cbn [ccvalue_to_seval]. fold conv.
    destruct (ccvaluemap_to_seval_loop _ _) as [ok obj]. cbn in Hloop. now subst ok.
  - set (conv := fun value => ccvalue_to_seval value se.Undefined).
    set (entries := map (fun e : Z * (bool * se.Value) => (string_of_int e.1, e.2))
                      (map_to_list (conv <$> m))).
    assert (Hok : Forall (fun e : string * (bool * se.Value) =>
                            e.1 <> EmptyString -> e.2.1 = true) entries).
    { apply Forall_map, Forall_forall. intros [k res] Hin.
      apply elem_of_map_to_list in Hin. rewrite lookup_fmap in Hin.
      apply fmap_Some in Hin as (x & Hx & ->). cbn. intros _.
      exact (IH k x Hx se.Undefined). }
    pose proof (ccvaluemap_to_seval_loop_succeeds _ Hok seobj.createPlainObject) as Hloop.
    cbn [ccvalue_to_seval]. fold conv. fold entries.
    destruct (ccvaluemap_to_seval_loop _ _) as [ok obj]. cbn in Hloop. now subst ok.
Qed.

(** The object a map is sent as, read by key, when no key holds a NUL. *)
Lemma ccvaluemap_to_seval_loop_assoc (entries : list (string * (bool * se.Value))) :
  NoDup (map fst entries) ->
  Forall (fun e => e.1 <> EmptyString -> e.2.1 = true) entries ->
  Forall (fun e => c_str e.1 = e.1) entries ->
  forall props : list (string * se.Value),
  exists props',
    ccvaluemap_to_seval_loop entries (se.PlainObject props) = (true, se.PlainObject props') /\
    forall k,
      se.assoc k props'
      = if String.eqb k EmptyString then se.assoc k props
        else match (list_to_map entries : gmap string (bool * se.Value)) !! k with
             | Some r => Some r.2
             | None => se.assoc k props
             end.
Proof.
  induction entries as [|[k0 [ok sv]] entries IH]; intros Hnd Hok Hc props.
  - exists props. split; [reflexivity |]. intros k. cbn.
    rewrite lookup_empty. now destruct (String.eqb k EmptyString).
  - cbn [map fst] in Hnd. apply NoDup_cons in Hnd as [Hfresh Hnd].
    apply Forall_cons in Hok as [Hok0 Hok]. cbn in Hok0.
    apply Forall_cons in Hc as [Hc0 Hc]. cbn [fst] in Hc0.
    cbn [ccvaluemap_to_seval_loop]. rewrite Hc0.
    assert (Hrest : (list_to_map entries : gmap string (bool * se.Value)) !! k0 = None).
    { apply not_elem_of_list_to_map_1. exact Hfresh. }
    destruct (String.eqb_spec k0 EmptyString) as [-> | Hk0];
      [| rewrite (Hok0 Hk0); cbn [negb]].
    + destruct (IH Hnd Hok Hc props) as (props' & Hloop & Hassoc).
      exists props'. split; [exact Hloop |]. intros k. rewrite Hassoc.
      destruct (String.eqb_spec k EmptyString) as [-> | Hk]; [reflexivity |].
      rewrite list_to_map_cons, lookup_insert_ne by (intros E; apply Hk; now rewrite E).
      reflexivity.
    + cbn [seobj.setProperty].
      destruct (IH Hnd Hok Hc (seobj.props_set k0 sv props)) as (props' & Hloop & Hassoc).
      exists props'. split; [exact Hloop |]. intros k. rewrite Hassoc, assoc_props_set.
      rewrite list_to_map_cons.
      destruct (String.eqb_spec k EmptyString) as [-> | Hk].
      * destruct (String.eqb_spec k0 EmptyString); [contradiction | reflexivity].
      * destruct (String.eqb_spec k0 k) as [-> | Hne].
        -- now rewrite lookup_insert_eq, Hrest.
        -- now rewrite lookup_insert_ne by assumption.
Qed.

Lemma c_keys_VECTOR_inv (l : list cocos2d.Value) :
  c_keys (cocos2d.VECTOR l) -> Forall c_keys l.
Proof. intros H. inversion H; [assumption | contradiction]. Qed.

Lemma c_keys_MAP_inv (m : gmap string cocos2d.Value) :
  c_keys (cocos2d.MAP m) ->
  map_Forall (fun k v => c_str k = k /\ (k <> EmptyString -> c_keys v)) m.
Proof. intros H. inversion H; [assumption | contradiction]. Qed.

Lemma c_keys_INT_KEY_MAP_inv (m : gmap Z cocos2d.Value) :
  c_keys (cocos2d.INT_KEY_MAP m) -> map_Forall (fun _ v => c_keys v) m.
Proof. intros H. inversion H; [assumption | contradiction]. Qed.

Section ccvalue_roundtrip_facts.
Context {cfg : BuildConfig}.
Import cocos2d.

(** Reading back: an object or an array whose members convert. *)
Lemma seval_to_ccvaluemap_loop_converted (props : list (string * se.Value))
    (g : string -> Value) (allKeys : list string) :
  (forall k, k ∈ allKeys ->
     c_str k = k /\
     exists sv, se.assoc k props = Some sv /\
                forall out, seval_to_ccvalue sv out = Returned (true, g k)) ->
  forall (value : se.Value) (ccvalue : Value) (dict : gmap string Value),
    seval_to_ccvaluemap_loop seval_to_ccvalue (se.PlainObject props) allKeys value ccvalue dict
    = Returned (true, foldl (fun acc key => emplace key (g key) acc) dict allKeys).
Proof.
  induction allKeys as [|k0 allKeys IH]; intros Hconv value ccvalue dict; [reflexivity |].
  cbn [seval_to_ccvaluemap_loop foldl].
  destruct (Hconv k0) as (Hc0 & sv & Hsv & Hcv); [apply elem_of_cons; now left |].
  unfold seval.getProperty. cbn [se.getProperty]. rewrite Hc0, Hsv.
  cbn [JSB_PRECONDITION3]. rewrite Hcv. cbn.
  apply IH. intros k Hk. apply Hconv. apply elem_of_cons. now right.
Qed.

Lemma PlainObject_to_ccvalue (props : list (string * se.Value)) (G : gmap string Value) :
  (forall k, match G !! k with
             | Some c => c_str k = k /\
                         exists sv, se.assoc k props = Some sv /\
                           forall out, seval_to_ccvalue sv out = Returned (true, c)
             | None => se.assoc k props = None
             end) ->
  forall out, seval_to_ccvalue (se.Obj (se.PlainObject props)) out = Returned (true, MAP G).
Proof.
  intros HG out. rewrite seval_to_ccvalue_unfold.
  unfold seval_to_ccvalue_body, seval_to_ccvaluemap_body. cbn.
  rewrite (seval_to_ccvaluemap_loop_converted props (fun k => default NONE (G !! k))).
  - cbn. do 3 f_equal. apply map_eq. intros k.
    rewrite lookup_foldl_emplace, lookup_empty.
    specialize (HG k).
    destruct (decide (k ∈ map fst props)) as [Hin | Hnin].
    + destruct (G !! k) as [c|]; [reflexivity |].
      exfalso. revert Hin. now apply assoc_None.
    + apply assoc_None in Hnin. destruct (G !! k) as [c|]; [| reflexivity].
      destruct HG as (_ & sv & Hsv & _). congruence.
  - intros k Hk. specialize (HG k). destruct (G !! k) as [c|].
    + exact HG.
    + exfalso. revert Hk. now apply assoc_None.
Qed.

Lemma seval_to_ccvaluevector_loop_converted (l : list se.Value) (cs : list Value) :
  Forall2 (fun sv c => forall out, seval_to_ccvalue sv out = Returned (true, c)) l cs ->
  forall (pre : list se.Value) (ccvalue : Value) (ret : list Value),
    seval_to_ccvaluevector_loop seval_to_ccvalue (se.ArrayObject (pre ++ l))
      (seq (length pre) (length l)) ccvalue ret
    = Returned (true, ret ++ cs).
Proof.
  induction 1 as [|sv c l cs Hc _ IH]; intros pre ccvalue ret.
  - cbn. now rewrite app_nil_r.
  - cbn [length seq seval_to_ccvaluevector_loop se.getArrayElement].
    rewrite list_lookup_middle by reflexivity. cbn [default].
    rewrite Hc. cbn.
    specialize (IH (pre ++ [sv]) c (ret ++ [c])).
    rewrite length_app, <- !app_assoc in IH. cbn in IH.
    rewrite Nat.add_1_r in IH. exact IH.
Qed.

Lemma ArrayObject_to_ccvalue (l : list se.Value) (cs : list Value) :
  Forall2 (fun sv c => forall out, seval_to_ccvalue sv out = Returned (true, c)) l cs ->
  forall out, seval_to_ccvalue (se.Obj (se.ArrayObject l)) out = Returned (true, VECTOR cs).
Proof.
  intros Hl out. rewrite seval_to_ccvalue_unfold.
  unfold seval_to_ccvalue_body, seval_to_ccvaluevector_body. cbn.
  pose proof (seval_to_ccvaluevector_loop_converted l cs Hl [] NONE []) as Hloop.
  cbn [app length] in Hloop. rewrite Hloop. reflexivity.
Qed.

End ccvalue_roundtrip_facts.

Section ccvalue_both_ways.
Context {cfg : BuildConfig}.
Import cocos2d.

(** A convertible value whose keys hold no NUL is accepted on the way to
    the script side, and what is built there is accepted on the way
    back. *)
Lemma convertible_sent_and_back (v : Value) :
  convertible v -> c_keys v ->
  forall r : se.Value,
  exists sv,
    ccvalue_to_seval v r = (true, sv) /\
    forall out, seval_to_ccvalue sv out = Returned (true, roundtrip_image v).
Proof.
  intros Hv. induction Hv as [b|i|f|d|s|l IH|m IH|m IH] using convertible_nested_ind;
    intros Hkeys r.
  - eexists. split; [reflexivity |]. intros out. reflexivity.
  - eexists. split; [reflexivity |]. intros out. reflexivity.
  - eexists. split; [reflexivity |]. intros out. reflexivity.
  - eexists. split; [reflexivity |]. intros out. reflexivity.
  - eexists. split; [reflexivity |]. intros out. reflexivity.
  - (* vectors *)
    apply c_keys_VECTOR_inv in Hkeys.
    assert (IH' : Forall (fun x => forall r, exists sv,
                            ccvalue_to_seval x r = (true, sv) /\
                            forall out, seval_to_ccvalue sv out
                                        = Returned (true, roundtrip_image x)) l).
    { rewrite Forall_forall in IH, Hkeys. apply Forall_forall. intros x Hx.
      exact (IH x Hx (Hkeys x Hx)). }
    clear IH Hkeys.
    set (conv := fun value => ccvalue_to_seval value se.Undefined).
    assert (Hok : Forall (fun r => r.1 = true) (map conv l)).
    { apply Forall_map. eapply Forall_impl; [exact IH' |].
      intros x Hx. destruct (Hx se.Undefined) as (sv & Hsv & _).
      unfold conv. now rewrite Hsv. }
    pose proof (ccvaluevector_to_seval_loop_ok (map conv l) Hok []) as Hloop.
    rewrite length_map in Hloop. cbn [app length] in Hloop.
    exists (se.Obj (se.ArrayObject (map snd (map conv l)))). split.
    + cbn [ccvalue_to_seval]. fold conv. unfold se.createArrayObject.
      now rewrite Hloop.
    + apply (ArrayObject_to_ccvalue _ (map roundtrip_image l)).
      clear Hok Hloop. induction IH' as [|x l Hx _ IHl]; cbn [map]; constructor.
      * destruct (Hx se.Undefined) as (sv & Hsv & Hback).
        unfold conv. rewrite Hsv. exact Hback.
      * exact IHl.
  - (* maps with string keys *)
    apply c_keys_MAP_inv in Hkeys.
    set (conv := fun value => ccvalue_to_seval value se.Undefined).
    assert (Hok : Forall (fun e : string * (bool * se.Value) =>
                            e.1 <> EmptyString -> e.2.1 = true)
                    (map_to_list (conv <$> m))).
    { apply Forall_forall. intros [k res] Hin.
      apply elem_of_map_to_list in Hin. rewrite lookup_fmap in Hin.
      apply fmap_Some in Hin as (x & Hx & ->). cbn. intros Hne.
      destruct (IH k x Hx Hne (proj2 (Hkeys k x Hx) Hne) se.Undefined) as (sv & Hsv & _).
      unfold conv. now rewrite Hsv. }
    assert (Hcs : Forall (fun e : string * (bool * se.Value) => c_str e.1 = e.1)
                    (map_to_list (conv <$> m))).
    { apply Forall_forall. intros [k res] Hin.
      apply elem_of_map_to_list in Hin. rewrite lookup_fmap in Hin.
      apply fmap_Some in Hin as (x & Hx & ->). exact (proj1 (Hkeys k x Hx)). }
    destruct (ccvaluemap_to_seval_loop_assoc (map_to_list (conv <$> m))
                (NoDup_fst_map_to_list _) Hok Hcs []) as (props' & Hloop & Hassoc).
    exists (se.Obj (se.PlainObject props')). split.
    + cbn [ccvalue_to_seval]. fold conv. unfold seobj.createPlainObject.
      now rewrite Hloop.
    + apply (PlainObject_to_ccvalue props' (delete EmptyString (roundtrip_image <$> m))).
      intros k. rewrite Hassoc, list_to_map_to_list.
      cbn [se.assoc]. rewrite lookup_fmap.
      destruct (String.eqb_spec k EmptyString) as [-> | Hk].
      * now rewrite lookup_delete_eq.
      * rewrite lookup_delete_ne by (intros E; apply Hk; now rewrite E).
        rewrite lookup_fmap.
        destruct (m !! k) as [x|] eqn:Hx; cbn; [| reflexivity].
        destruct (Hkeys k x Hx) as [Hck Hcx].
        destruct (IH k x Hx Hk (Hcx Hk) se.Undefined) as (sv & Hsv & Hback).
        split; [exact Hck |].
        exists sv. unfold conv. rewrite Hsv. split; [reflexivity | exact Hback].
  - (* maps with integer keys *)
    apply c_keys_INT_KEY_MAP_inv in Hkeys.
    set (conv := fun value => ccvalue_to_seval value se.Undefined).
    set (entries := map (fun e : Z * (bool * se.Value) => (string_of_int e.1, e.2))
                      (map_to_list (conv <$> m))).
    assert (Hok : Forall (fun e : string * (bool * se.Value) =>
                            e.1 <> EmptyString -> e.2.1 = true) entries).
    { apply Forall_map, Forall_forall. intros [k res] Hin.
      apply elem_of_map_to_list in Hin. rewrite lookup_fmap in Hin.
      apply fmap_Some in Hin as (x & Hx & ->). cbn. intros _.
      destruct (IH k x Hx (Hkeys k x Hx) se.Undefined) as (sv & Hsv & _).
      unfold conv. now rewrite Hsv. }
    assert (Hcs : Forall (fun e : string * (bool * se.Value) => c_str e.1 = e.1) entries).
    { apply Forall_map, Forall_forall. intros [k res] _. apply c_str_string_of_int. }
    assert (Hnd : NoDup (map fst entries)).
    { unfold entries. rewrite map_map. cbn [fst].
      rewrite <- (map_map fst string_of_int).
      apply (NoDup_fmap_2 string_of_int), NoDup_fst_map_to_list. }
    assert (Hmap : (list_to_map entries : gmap string (bool * se.Value))
                   = kmap string_of_int (conv <$> m)).
    { reflexivity. }
    destruct (ccvaluemap_to_seval_loop_assoc entries Hnd Hok Hcs [])
      as (props' & Hloop & Hassoc).
    exists (se.Obj (se.PlainObject props')). split.
    + cbn [ccvalue_to_seval]. fold conv. fold entries. unfold seobj.createPlainObject.
      now rewrite Hloop.
    + apply (PlainObject_to_ccvalue props' (kmap string_of_int (roundtrip_image <$> m))).
      intros k. rewrite Hassoc, Hmap. cbn [se.assoc].
      destruct ((kmap string_of_int (roundtrip_image <$> m) : gmap string Value) !! k)
        as [c|] eqn:Hc.
      * apply lookup_kmap_Some in Hc as (i & -> & Hi); [| apply _].
        rewrite lookup_fmap in Hi. apply fmap_Some in Hi as (x & Hx & ->).
        destruct (String.eqb_spec (string_of_int i) EmptyString) as [E | _];
          [now apply string_of_int_nonempty in E |].
        rewrite lookup_kmap by apply _. rewrite lookup_fmap, Hx. cbn.
        destruct (IH i x Hx (Hkeys i x Hx) se.Undefined) as (sv & Hsv & Hback).
        split; [apply c_str_string_of_int |].
        exists sv. unfold conv. rewrite Hsv. split; [reflexivity | exact Hback].
      * destruct (String.eqb k EmptyString); [reflexivity |].
        assert (Hnone : (kmap string_of_int (conv <$> m) : gmap string (bool * se.Value)) !! k
                        = None).
        { apply lookup_kmap_None; [apply _ |]. intros i ->.
          rewrite lookup_kmap in Hc by apply _.
          rewrite lookup_fmap in Hc. rewrite lookup_fmap. now destruct (m !! i). }
        now rewrite Hnone.
Qed.

(** X20.  The generic tagged value survives the trip to the script side
    and back up to what a script value cannot express.  For every value
    built from booleans, numbers, strings, vectors and maps, in which no
    key of a map holds a NUL character, converting with
    [ccvalue_to_seval] and back with [seval_to_ccvalue] succeeds and
    gives the same structure, in which every [INTEGER] and [FLOAT] has
    become a [DOUBLE], every map with integer keys a map with the keys
    printed in decimal, and the entry under the empty key is gone;
    booleans, doubles, strings and the shape of vectors and maps come
    back unchanged. *)
Theorem ccvalue_roundtrip (v : Value) (r : se.Value) (out : Value) :
  convertible v -> c_keys v ->
  seval_to_ccvalue (ccvalue_to_seval v r).2 out = Returned (true, roundtrip_image v).
Proof.
  intros Hv Hkeys. destruct (convertible_sent_and_back v Hv Hkeys r) as (sv & Hsv & Hback).
  rewrite Hsv. apply Hback.
Qed.

Lemma array_like_nested_ind (P : se.Value -> Prop) :
  (forall d, P (se.Number d)) ->
  (forall b, P (se.Boolean b)) ->
  (forall s, P (se.String s)) ->
  (forall l, Forall P l -> P (se.Obj (se.ArrayObject l))) ->
  forall sv, array_like sv -> P sv.
Proof.
  intros Hn Hb Hs Ha. fix IH 2. intros sv H.
  destruct H as [d|b|s|l Hl].
  - apply Hn.
  - apply Hb.
  - apply Hs.
  - apply Ha. revert l Hl. fix IHl 2. intros l Hl.
    destruct Hl as [|x l Hx Hl]; constructor; [apply IH, Hx | apply IHl, Hl].
Qed.

Lemma array_like_converts (sv : se.Value) :
  array_like sv ->
  exists c, (forall out, seval_to_ccvalue sv out = Returned (true, c)) /\
            (forall r, ccvalue_to_seval c r = (true, sv)).
Proof.
  intros Hsv. induction Hsv as [d|b|s|l IH] using array_like_nested_ind.
  - exists (DOUBLE d). split; reflexivity.
  - exists (BOOLEAN b). split; reflexivity.
  - exists (STRING s). split; reflexivity.
  - assert (Hcs : exists cs,
              Forall2 (fun sv c => forall out, seval_to_ccvalue sv out = Returned (true, c))
                l cs /\
              map (fun c => ccvalue_to_seval c se.Undefined) cs = map (fun x => (true, x)) l).
    { induction IH as [|x l (c & Hto & Hback) _ (cs & Hcs & Hmap)].
      - exists []. split; [constructor | reflexivity].
      - exists (c :: cs). split; [now constructor |].
        cbn [map]. now rewrite Hback, Hmap. }
    destruct Hcs as (cs & Hcs & Hmap).
    exists (VECTOR cs). split.
    + now apply ArrayObject_to_ccvalue.
    + intros r. cbn [ccvalue_to_seval]. rewrite Hmap.
      assert (Hok : Forall (fun res : bool * se.Value => res.1 = true)
                      (map (fun x => (true, x)) l)).
      { apply Forall_map, Forall_forall. reflexivity. }
      pose proof (ccvaluevector_to_seval_loop_ok _ Hok []) as Hloop.
      rewrite length_map in Hloop. cbn [app length] in Hloop.
      assert (Hlen : length cs = length l) by (symmetry; exact (Forall2_length _ _ _ Hcs)).
      unfold se.createArrayObject. rewrite Hlen, Hloop.
      rewrite map_map. cbn [snd]. now rewrite map_id.
Qed.

(** X21.  In the other direction, script values made of numbers,
    booleans, strings and arrays of such survive the trip to native and
    back exactly: [seval_to_ccvalue] accepts them, and [ccvalue_to_seval]
    rebuilds the very same script value from the result. *)
Theorem script_arrays_roundtrip (sv : se.Value) (out : Value) (r : se.Value) :
  array_like sv ->
  exists c, seval_to_ccvalue sv out = Returned (true, c) /\
            ccvalue_to_seval c r = (true, sv).
Proof.
  intros Hsv. destruct (array_like_converts sv Hsv) as (c & Hto & Hback).
  exists c. split; [apply Hto | apply Hback].
Qed.

End ccvalue_both_ways.

Lemma script_arrays_roundtrip_witness :
  exists c,
    seval_to_ccvalue (cfg := debug_build)
      (se.Obj (se.ArrayObject [se.Number (double_of_Z 1);
                               se.Obj (se.ArrayObject [se.String "a"; se.Boolean true])]))
      cocos2d.NONE
    = Returned (true, c) /\
    ccvalue_to_seval c se.Undefined
    = (true, se.Obj (se.ArrayObject [se.Number (double_of_Z 1);
                                     se.Obj (se.ArrayObject [se.String "a"; se.Boolean true])])).
Proof.
  apply (script_arrays_roundtrip (cfg := debug_build)).
  repeat constructor.
Defined.

Lemma ccvalue_roundtrip_witness :
  seval_to_ccvalue (cfg := debug_build)
    (ccvalue_to_seval
       (cocos2d.VECTOR [cocos2d.INTEGER 3; cocos2d.STRING "a";
                        cocos2d.MAP {[ "k"%string := cocos2d.BOOLEAN true ]}])
       se.Undefined).2 cocos2d.NONE
  = Returned (true, cocos2d.VECTOR [cocos2d.DOUBLE (double_of_Z 3); cocos2d.STRING "a";
                                    cocos2d.MAP {[ "k"%string := cocos2d.BOOLEAN true ]}]).
Proof.
  etransitivity.
  - apply (ccvalue_roundtrip (cfg := debug_build)
             (cocos2d.VECTOR [cocos2d.INTEGER 3; cocos2d.STRING "a";
                              cocos2d.MAP {[ "k"%string := cocos2d.BOOLEAN true ]}])
             se.Undefined cocos2d.NONE).
    + repeat constructor. apply map_Forall_singleton. intros _. constructor.
    + apply c_keys_VECTOR.
      constructor; [now apply c_keys_scalar |].
      constructor; [now apply c_keys_scalar |].
      constructor; [| constructor].
      apply c_keys_MAP, map_Forall_singleton.
      split; [reflexivity |]. intros _. now apply c_keys_scalar.
  - vm_compute. reflexivity.
Defined.

(** Members of a vector or a map are smaller than the vector or map. *)
Lemma ccvalue_size_elem (x : cocos2d.Value) (l : list cocos2d.Value) :
  x ∈ l -> (ccvalue_size x < ccvalue_size (cocos2d.VECTOR l))%nat.
Proof.
  intros Hx.
  change (ccvalue_size (cocos2d.VECTOR l)) with (S (list_sum (map ccvalue_size l))).
  apply Nat.lt_succ_r.
  induction Hx as [x l | x y l _ IH]; unfold list_sum in *; cbn [map foldr]; lia.
Qed.

Lemma map_fold_sum_lookup `{Countable K} (M : gmap K nat) (k : K) (n : nat) :
  M !! k = Some n -> (n <= map_fold (fun _ n acc => (n + acc)%nat) O M)%nat.
Proof.
  intros Hk. rewrite <- (insert_delete_id M k n Hk).
  rewrite map_fold_insert_L; [lia | intros; lia | apply lookup_delete_eq].
Qed.

Lemma ccvalue_size_lookup (m : gmap string cocos2d.Value) (k : string) (x : cocos2d.Value) :
  m !! k = Some x -> (ccvalue_size x < ccvalue_size (cocos2d.MAP m))%nat.
Proof.
  intros Hk.
  change (ccvalue_size (cocos2d.MAP m))
    with (S (map_fold (fun _ n acc => (n + acc)%nat) O (ccvalue_size <$> m))).
  apply Nat.lt_succ_r.
  apply (map_fold_sum_lookup _ k). now rewrite lookup_fmap, Hk.
Qed.

Lemma ccvalue_size_lookup_int (m : gmap Z cocos2d.Value) (k : Z) (x : cocos2d.Value) :
  m !! k = Some x -> (ccvalue_size x < ccvalue_size (cocos2d.INT_KEY_MAP m))%nat.
Proof.
  intros Hk.
  change (ccvalue_size (cocos2d.INT_KEY_MAP m))
    with (S (map_fold (fun _ n acc => (n + acc)%nat) O (ccvalue_size <$> m))).
  apply Nat.lt_succ_r.
  apply (map_fold_sum_lookup _ k). now rewrite lookup_fmap, Hk.
Qed.

(** The loops to the script side succeed only if every member they visit
    converts. *)
Lemma ccvaluevector_to_seval_loop_true (results : list (bool * se.Value)) :
  forall (i : nat) (obj : se.Object),
    (ccvaluevector_to_seval_loop results i obj).1 = true ->
    Forall (fun r => r.1 = true) results.
Proof.
  induction results as [|[ok sv] results IH]; intros i obj Hrun; [constructor |].
  cbn [ccvaluevector_to_seval_loop] in Hrun.
  destruct ok; cbn [negb] in Hrun; [| discriminate Hrun].
  constructor; [reflexivity | exact (IH _ _ Hrun)].
Qed.

Lemma ccvaluemap_to_seval_loop_true (entries : list (string * (bool * se.Value))) :
  forall obj : se.Object,
    (ccvaluemap_to_seval_loop entries obj).1 = true ->
    Forall (fun e => e.1 <> EmptyString -> e.2.1 = true) entries.
Proof.
  induction entries as [|[k [ok sv]] entries IH]; intros obj Hrun; [constructor |].
  cbn [ccvaluemap_to_seval_loop] in Hrun.
  destruct (String.eqb_spec k EmptyString) as [-> | Hk].
  - constructor; [intros Hne; now contradiction Hne | exact (IH _ Hrun)].
  - destruct ok; cbn [negb] in Hrun; [| discriminate Hrun].
    constructor; [reflexivity | exact (IH _ Hrun)].
Qed.

Lemma ccvalue_to_seval_true_convertible (n : nat) :
  forall (v : cocos2d.Value) (r : se.Value),
    (ccvalue_size v < n)%nat -> (ccvalue_to_seval v r).1 = true -> convertible v.
Proof.
  induction n as [|n IH]; intros v r Hn Hok; [lia |].
  destruct v as [|c|i|u|f|d|b|s|l|m|m]; try discriminate Hok; try constructor.
  - (* vectors *)
    cbn [ccvalue_to_seval] in Hok.
    destruct (ccvaluevector_to_seval_loop _ _ _) as [ok obj] eqn:Hloop.
    destruct ok; [| discriminate Hok].
    apply (f_equal fst) in Hloop. apply ccvaluevector_to_seval_loop_true in Hloop.
    apply Forall_forall. intros x Hx.
    apply (IH x se.Undefined).
    + apply ccvalue_size_elem in Hx. lia.
    + rewrite Forall_forall in Hloop. apply Hloop.
      apply (list_elem_of_fmap_2 (fun value => ccvalue_to_seval value se.Undefined)), Hx.
  - (* maps with string keys *)
    cbn [ccvalue_to_seval] in Hok.
    destruct (ccvaluemap_to_seval_loop _ _) as [ok obj] eqn:Hloop.
    destruct ok; [| discriminate Hok].
    apply (f_equal fst) in Hloop. apply ccvaluemap_to_seval_loop_true in Hloop.
    intros k x Hx Hne. apply (IH x se.Undefined).
    + apply ccvalue_size_lookup in Hx. lia.
    + rewrite Forall_forall in Hloop.
      apply (Hloop (k, ccvalue_to_seval x se.Undefined)); [| exact Hne].
      apply elem_of_map_to_list. now rewrite lookup_fmap, Hx.
  - (* maps with integer keys *)
    cbn [ccvalue_to_seval] in Hok.
    destruct (ccvaluemap_to_seval_loop _ _) as [ok obj] eqn:Hloop.
    destruct ok; [| discriminate Hok].
    apply (f_equal fst) in Hloop. apply ccvaluemap_to_seval_loop_true in Hloop.
    intros k x Hx. apply (IH x se.Undefined).
    + apply ccvalue_size_lookup_int in Hx. lia.
    + rewrite Forall_forall in Hloop.
      apply (Hloop (string_of_int k, ccvalue_to_seval x se.Undefined));
        [| apply string_of_int_nonempty].
      apply (list_elem_of_fmap_2
               (fun e : Z * (bool * se.Value) => (string_of_int e.1, e.2)) _
               (k, ccvalue_to_seval x se.Undefined)).
      apply elem_of_map_to_list. now rewrite lookup_fmap, Hx.
Qed.

(** X22.  What [ccvalue_to_seval] rejects: the conversion succeeds
    exactly on the convertible values, that is, it fails if and only if a
    [NONE] (null), [BYTE] or [UNSIGNED] value occurs in the value outside
    entries under an empty map key.  When it fails on such a value itself
    the output is not written; when it fails on a vector or map the output
    is set to [undefined]. *)
Theorem ccvalue_to_seval_succeeds_iff (v : cocos2d.Value) (r : se.Value) :
  ((ccvalue_to_seval v r).1 = true <-> convertible v) /\
  ((ccvalue_to_seval v r).1 = false ->
   (ccvalue_to_seval v r).2
   = match v with
     | cocos2d.VECTOR _ | cocos2d.MAP _ | cocos2d.INT_KEY_MAP _ => se.Undefined
     | _ => r
     end).
Proof.
  split; [split |].
  - apply (ccvalue_to_seval_true_convertible (S (ccvalue_size v))). lia.
  - intros Hv.
    exact (convertible_succeeds v Hv r).
  - destruct v as [|c|i|u|f|d|b|s|l|m|m]; cbn [ccvalue_to_seval];
      try reflexivity; try discriminate.
    + destruct (ccvaluevector_to_seval_loop _ _ _) as [[|] obj]; [discriminate | reflexivity].
    + destruct (ccvaluemap_to_seval_loop _ _) as [[|] obj]; [discriminate | reflexivity].
    + destruct (ccvaluemap_to_seval_loop _ _) as [[|] obj]; [discriminate | reflexivity].
Qed.

Section container_facts.
Context {cfg : BuildConfig}.
Import cocos2d.

Lemma seval_to_ccvaluemap_loop_keeps (obj : se.Object) (allKeys : list string) :
  forall (value : se.Value) (ccvalue : Value) (dict R : gmap string Value) (ok : bool),
    seval_to_ccvaluemap_loop seval_to_ccvalue obj allKeys value ccvalue dict
    = Returned (ok, R) ->
    if ok then dict ⊆ R else R = ∅.
Proof.
  induction allKeys as [|key rest IH]; intros value ccvalue dict R ok Hrun.
  - cbn in Hrun. now injection Hrun as <- <-.
  - cbn [seval_to_ccvaluemap_loop] in Hrun.
    destruct (seval.getProperty obj (c_str key) value) as [[|] value'];
      cbn [JSB_PRECONDITION3] in Hrun; [| now injection Hrun as <- <-].
    destruct (seval_to_ccvalue value' ccvalue) as [[[|] cv]| |];
      cbn in Hrun; try discriminate Hrun; [| now injection Hrun as <- <-].
    apply IH in Hrun. destruct ok; [| exact Hrun].
    etransitivity; [apply emplace_subseteq | exact Hrun].
Qed.

Lemma seval_to_ccvaluevector_loop_keeps (obj : se.Object) (indices : list nat) :
  forall (ccvalue : Value) (ret R : list Value) (ok : bool),
    seval_to_ccvaluevector_loop seval_to_ccvalue obj indices ccvalue ret = Returned (ok, R) ->
    if ok then ret `prefix_of` R else R = [].
Proof.
  induction indices as [|i rest IH]; intros ccvalue ret R ok Hrun.
  - cbn in Hrun. now injection Hrun as <- <-.
  - cbn [seval_to_ccvaluevector_loop] in Hrun.
    destruct (se.getArrayElement obj i) as [value|]; [| exact (IH _ _ _ _ Hrun)].
    destruct (seval_to_ccvalue value ccvalue) as [[[|] cv]| |];
      cbn in Hrun; try discriminate Hrun; [| now injection Hrun as <- <-].
    apply IH in Hrun. destruct ok; [| exact Hrun].
    etransitivity; [apply prefix_app_r; reflexivity | exact Hrun].
Qed.

Lemma sevals_variadic_to_ccvaluevector_loop_keeps (args : list se.Value) :
  forall (ccvalue : Value) (ret R : list Value) (ok : bool),
    sevals_variadic_to_ccvaluevector_loop args ccvalue ret = Returned (ok, R) ->
    if ok then ret `prefix_of` R else R = [].
Proof.
  induction args as [|arg rest IH]; intros ccvalue ret R ok Hrun.
  - cbn in Hrun. now injection Hrun as <- <-.
  - cbn [sevals_variadic_to_ccvaluevector_loop] in Hrun.
    destruct (seval_to_ccvalue arg ccvalue) as [[[|] cv]| |];
      cbn in Hrun; try discriminate Hrun; [| now injection Hrun as <- <-].
    apply IH in Hrun. destruct ok; [| exact Hrun].
    etransitivity; [apply prefix_app_r; reflexivity | exact Hrun].
Qed.

(** With assertions compiled out the loops return. *)
Lemma seval_to_ccvaluemap_loop_returns (obj : se.Object) (allKeys : list string) :
  COCOS2D_DEBUG = false ->
  forall (value : se.Value) (ccvalue : Value) (dict : gmap string Value),
  exists ok R,
    seval_to_ccvaluemap_loop seval_to_ccvalue obj allKeys value ccvalue dict
    = Returned (ok, R).
Proof.
  intros Hrel. induction allKeys as [|key rest IH]; intros value ccvalue dict.
  - cbn. eauto.
  - cbn [seval_to_ccvaluemap_loop].
    destruct (seval.getProperty obj (c_str key) value) as [[|] value'];
      cbn [JSB_PRECONDITION3]; [| eauto].
    destruct (seval_to_ccvalue_returns value' ccvalue Hrel) as (ok & cv & ->).
    cbn. destruct ok; cbn; [apply IH | eauto].
Qed.

Lemma sevals_variadic_to_ccvaluevector_loop_returns (args : list se.Value) :
  COCOS2D_DEBUG = false ->
  forall (ccvalue : Value) (ret : list Value),
  exists ok R, sevals_variadic_to_ccvaluevector_loop args ccvalue ret = Returned (ok, R).
Proof.
  intros Hrel. induction args as [|arg rest IH]; intros ccvalue ret.
  - cbn. eauto.
  - cbn [sevals_variadic_to_ccvaluevector_loop].
    destruct (seval_to_ccvalue_returns arg ccvalue Hrel) as (ok & cv & ->).
    cbn. destruct ok; cbn; [apply IH | eauto].
Qed.

(** A key whose C string names no property makes the loop fail. *)
Lemma seval_to_ccvaluemap_loop_unresolved (obj : se.Object) (allKeys : list string)
    (key : string) :
  key ∈ allKeys -> se.getProperty obj (c_str key) = None ->
  forall (value : se.Value) (ccvalue : Value) (dict R : gmap string Value) (ok : bool),
    seval_to_ccvaluemap_loop seval_to_ccvalue obj allKeys value ccvalue dict
    = Returned (ok, R) ->
    ok = false.
Proof.
  intros Hin Hnone. induction Hin as [key rest | key key' rest _ IH];
    intros value ccvalue dict R ok Hrun; cbn [seval_to_ccvaluemap_loop] in Hrun.
  - unfold seval.getProperty in Hrun. rewrite Hnone in Hrun.
    cbn in Hrun. now injection Hrun as <- _.
  - destruct (seval.getProperty obj (c_str key') value) as [[|] value'];
      cbn [JSB_PRECONDITION3] in Hrun; [| now injection Hrun as <- _].
    destruct (seval_to_ccvalue value' ccvalue) as [[[|] cv]| |];
      cbn in Hrun; try discriminate Hrun; [| now injection Hrun as <- _].
    exact (IH Hnone _ _ _ _ _ Hrun).
Qed.

Lemma sevals_variadic_to_ccvaluevector_loop_fails (args1 args2 : list se.Value)
    (bad : se.Value) :
  COCOS2D_DEBUG = false ->
  (forall ccvalue, exists cv, seval_to_ccvalue bad ccvalue = Returned (false, cv)) ->
  forall (ccvalue : Value) (ret : list Value),
    sevals_variadic_to_ccvaluevector_loop (args1 ++ bad :: args2) ccvalue ret
    = Returned (false, []).
Proof.
  intros Hrel Hbad. induction args1 as [|arg rest IH]; intros ccvalue ret;
    cbn [app sevals_variadic_to_ccvaluevector_loop].
  - destruct (Hbad ccvalue) as (cv & ->). reflexivity.
  - destruct (seval_to_ccvalue_returns arg ccvalue Hrel) as (ok & cv & ->).
    cbn. destruct ok; cbn; [apply IH | reflexivity].
Qed.

(** X23.  The container conversions to native add to the output instead
    of replacing it, and empty it when they fail.  Whenever
    [seval_to_ccvaluemap] (on an object), [seval_to_ccvaluevector] or
    [sevals_variadic_to_ccvaluevector] returns [true], everything the
    output held before the call is still there (map entries unchanged,
    vector elements as a prefix); whenever one of them returns [false],
    the output is empty.  A null or undefined argument makes
    [seval_to_ccvaluemap] clear the map and succeed.  Each of the three
    does fail: [seval_to_ccvaluevector] on an object that is not an
    array, and, where assertions are compiled out, [seval_to_ccvaluemap]
    on an object with an own key whose C string names none of its
    properties (a key cut short at a NUL), and
    [sevals_variadic_to_ccvaluevector] as soon as such an object is among
    the arguments. *)
Theorem containers_accumulate :
  (forall (o : se.Object) (ret R : gmap string Value) (ok : bool),
     seval_to_ccvaluemap (se.Obj o) ret = Returned (ok, R) ->
     if ok then ret ⊆ R else R = ∅) /\
  (forall (v : se.Value) (ret : gmap string Value),
     se.isNullOrUndefined v = true -> seval_to_ccvaluemap v ret = Returned (true, ∅)) /\
  (forall (v : se.Value) (ret R : list Value) (ok : bool),
     seval_to_ccvaluevector v ret = Returned (ok, R) ->
     if ok then ret `prefix_of` R else R = []) /\
  (forall (args : list se.Value) (ret R : list Value) (ok : bool),
     sevals_variadic_to_ccvaluevector args ret = Returned (ok, R) ->
     if ok then ret `prefix_of` R else R = []) /\
  (forall (props : list (string * se.Value)) (ret : list Value),
     seval_to_ccvaluevector (se.Obj (se.PlainObject props)) ret = Returned (false, [])) /\
  (COCOS2D_DEBUG = false ->
   forall (props : list (string * se.Value)) (key : string),
     key ∈ map fst props -> se.assoc (c_str key) props = None ->
     (forall ret : gmap string Value,
        seval_to_ccvaluemap (se.Obj (se.PlainObject props)) ret = Returned (false, ∅)) /\
     (forall (args1 args2 : list se.Value) (ret : list Value),
        sevals_variadic_to_ccvaluevector
          (args1 ++ se.Obj (se.PlainObject props) :: args2) ret
        = Returned (false, []))).
Proof.
  split; [| split; [| split; [| split; [| split]]]].
  - intros o ret R ok. unfold seval_to_ccvaluemap, seval_to_ccvaluemap_body. cbn.
    apply seval_to_ccvaluemap_loop_keeps.
  - intros v ret Hnull. unfold seval_to_ccvaluemap, seval_to_ccvaluemap_body.
    now rewrite Hnull.
  - intros v ret R ok. unfold seval_to_ccvaluevector, seval_to_ccvaluevector_body.
    destruct (assert_ (se.isObject v)); cbn; try discriminate.
    destruct (se.toObject v) as [obj| |]; cbn; try discriminate.
    destruct (se.isArray obj); cbn.
    + apply seval_to_ccvaluevector_loop_keeps.
    + now intros [= <- <-].
  - intros args ret R ok. apply sevals_variadic_to_ccvaluevector_loop_keeps.
  - intros props ret. reflexivity.
  - intros Hrel props key Hin Hnone.
    assert (Hmap : forall ret : gmap string Value,
              seval_to_ccvaluemap (se.Obj (se.PlainObject props)) ret = Returned (false, ∅)).
    { intros ret. unfold seval_to_ccvaluemap, seval_to_ccvaluemap_body. cbn.
      destruct (seval_to_ccvaluemap_loop_returns (se.PlainObject props) (map fst props)
                  Hrel se.Undefined NONE ret) as (ok & R & Hrun).
      rewrite Hrun.
      pose proof (seval_to_ccvaluemap_loop_unresolved (se.PlainObject props) (map fst props)
                    key Hin Hnone _ _ _ _ _ Hrun) as ->.
      apply seval_to_ccvaluemap_loop_keeps in Hrun. now subst R. }
    split; [exact Hmap |].
    intros args1 args2 ret. unfold sevals_variadic_to_ccvaluevector.
    apply sevals_variadic_to_ccvaluevector_loop_fails; [exact Hrel |].
    intros ccvalue. exists Value_Null. rewrite seval_to_ccvalue_unfold.
    unfold seval_to_ccvalue_body. cbn [se.isObject se.toObject mbind outcome_bind se.isArray negb].
    fold seval_to_ccvaluemap. rewrite Hmap. reflexivity.
Qed.

Lemma seval_to_ccvalue_null (nul : se.Value) (ccvalue : Value) :
  COCOS2D_DEBUG = false -> se.isNullOrUndefined nul = true ->
  seval_to_ccvalue nul ccvalue = Returned (true, ccvalue).
Proof.
  intros Hrel Hnul. destruct nul; try discriminate Hnul;
    unfold seval_to_ccvalue; cbn; unfold CCASSERT; now rewrite Hrel.
Qed.

Lemma seval_to_ccvaluevector_loop_nulls (l : list se.Value) :
  COCOS2D_DEBUG = false ->
  forall (pre : list se.Value) (ccvalue : Value) (ret R : list Value),
    seval_to_ccvaluevector_loop seval_to_ccvalue (se.ArrayObject (pre ++ l))
      (seq (length pre) (length l)) ccvalue ret = Returned (true, R) ->
    exists cs,
      R = ret ++ cs /\ length cs = length l /\
      forall (i : nat) (nul : se.Value),
        l !! i = Some nul -> se.isNullOrUndefined nul = true ->
        cs !! i = (ccvalue :: cs) !! i.
Proof.
  intros Hrel. induction l as [|x l IH]; intros pre ccvalue ret R Hrun.
  - cbn in Hrun. injection Hrun as <-. exists []. rewrite app_nil_r.
    repeat split. intros i nul Hi. now rewrite lookup_nil in Hi.
  - assert (Hstep : seval_to_ccvaluevector_loop seval_to_ccvalue
                      (se.ArrayObject (pre ++ x :: l))
                      (seq (length pre) (length (x :: l))) ccvalue ret
                    = '(ok, c1) ← seval_to_ccvalue x ccvalue;
                      JSB_PRECONDITION3 ok false []
                        (seval_to_ccvaluevector_loop seval_to_ccvalue
                           (se.ArrayObject (pre ++ x :: l))
                           (seq (S (length pre)) (length l)) c1 (ret ++ [c1]))).
    { cbn [length seq seval_to_ccvaluevector_loop se.getArrayElement].
      rewrite list_lookup_middle by reflexivity. reflexivity. }
    rewrite Hstep in Hrun. clear Hstep.
    destruct (seval_to_ccvalue x ccvalue) as [[[|] c1]| |] eqn:Hx;
      cbn [mbind outcome_bind JSB_PRECONDITION3] in Hrun; try discriminate Hrun.
    specialize (IH (pre ++ [x]) c1 (ret ++ [c1]) R).
    rewrite length_app, <- !app_assoc, Nat.add_1_r in IH. cbn [app length] in IH.
    destruct (IH Hrun) as (cs & -> & Hlen & Hnull).
    exists (c1 :: cs). rewrite <- app_assoc. cbn [app length].
    split; [reflexivity |]. split; [now rewrite Hlen |].
    intros [|i] nul Hi Hnul; cbn in Hi |- *.
    + injection Hi as ->. rewrite (seval_to_ccvalue_null nul ccvalue Hrel Hnul) in Hx.
      now injection Hx as ->.
    + exact (Hnull i nul Hi Hnul).
Qed.

(** X24.  In a build where [CCASSERT] is compiled out, a null or
    undefined element of a script array is not converted to a null value
    of its own: the element of the resulting vector at that position is a
    copy of the element before it (for the first position, the null
    value), because the conversion leaves the local it shares with the
    previous iteration untouched. *)
Theorem null_elements_repeat_previous (l : list se.Value) (out v : Value) :
  COCOS2D_DEBUG = false ->
  seval_to_ccvalue (se.Obj (se.ArrayObject l)) out = Returned (true, v) ->
  exists cs,
    v = VECTOR cs /\ length cs = length l /\
    forall (i : nat) (nul : se.Value),
      l !! i = Some nul -> se.isNullOrUndefined nul = true ->
      cs !! i = (Value_Null :: cs) !! i.
Proof.
  intros Hrel. rewrite seval_to_ccvalue_unfold.
  unfold seval_to_ccvalue_body, seval_to_ccvaluevector_body. cbn.
  destruct (seval_to_ccvaluevector_loop _ _ _ _ _) as [[[|] R]| |] eqn:Hloop;
    cbn; try discriminate.
  intros [= <-].
  destruct (seval_to_ccvaluevector_loop_nulls l Hrel [] NONE [] R Hloop)
    as (cs & -> & Hlen & Hnull).
  exists cs. auto.
Qed.

End container_facts.

(** An object whose only own key has a NUL after its first character:
    the property is looked up under that character alone, which the
    object does not have. *)
Lemma containers_accumulate_witness :
  (forall ret : gmap string cocos2d.Value,
     seval_to_ccvaluemap (cfg := release_build)
       (se.Obj (se.PlainObject
          [(String.String "a" (String.String Ascii.zero "b"), se.Number (double_of_Z 1))]))
       ret
     = Returned (false, ∅)) /\
  (forall (args1 args2 : list se.Value) (ret : list cocos2d.Value),
     sevals_variadic_to_ccvaluevector (cfg := release_build)
       (args1 ++ se.Obj (se.PlainObject
          [(String.String "a" (String.String Ascii.zero "b"), se.Number (double_of_Z 1))])
        :: args2) ret
     = Returned (false, [])).
Proof.
  apply (proj2 (proj2 (proj2 (proj2 (proj2 (containers_accumulate (cfg := release_build))))))
           eq_refl _ (String.String "a" (String.String Ascii.zero "b"))).
  - apply elem_of_cons. now left.
  - reflexivity.
Defined.

(** [[7, null, undefined, "a"]] becomes the vector (7, 7, 7, "a"). *)
Lemma null_elements_repeat_previous_witness :
  exists cs,
    cocos2d.VECTOR [cocos2d.DOUBLE (double_of_Z 7); cocos2d.DOUBLE (double_of_Z 7);
                    cocos2d.DOUBLE (double_of_Z 7); cocos2d.STRING "a"]
    = cocos2d.VECTOR cs /\ length cs = 4%nat /\
    forall (i : nat) (nul : se.Value),
      [se.Number (double_of_Z 7); se.Null; se.Undefined; se.String "a"] !! i = Some nul ->
      se.isNullOrUndefined nul = true ->
      cs !! i = (cocos2d.Value_Null :: cs) !! i.
Proof.
  apply (null_elements_repeat_previous (cfg := release_build)
           [se.Number (double_of_Z 7); se.Null; se.Undefined; se.String "a"]
           cocos2d.NONE); reflexivity.
Defined.

(* ===================================================================== *)
(** * Further properties: maps with integer keys *)
(* ===================================================================== *)

(** Decimal text and [atoi]. *)
Lemma isNumberString_string_of_uint (d : Decimal.uint) :
  isNumberString (DecimalString.NilEmpty.string_of_uint d) = true.
Proof. induction d; cbn; auto. Qed.

Lemma atoi_digits_string_of_uint (d : Decimal.uint) :
  (forall p, atoi_digits (DecimalString.NilEmpty.string_of_uint d) (Zpos p)
             = Zpos (Pos.of_uint_acc d p)) /\
  atoi_digits (DecimalString.NilEmpty.string_of_uint d) 0 = Z.of_N (Pos.of_uint d).
Proof.
  induction d as [|d [IHp IH0]|d [IHp IH0]|d [IHp IH0]|d [IHp IH0]|d [IHp IH0]
                  |d [IHp IH0]|d [IHp IH0]|d [IHp IH0]|d [IHp IH0]|d [IHp IH0]];
    (split; [intros p |]);
    cbn [DecimalString.NilEmpty.string_of_uint atoi_digits Pos.of_uint_acc Pos.of_uint];
    try reflexivity;
    match goal with
    | |- context [isdigit ?c] => change (isdigit c) with true
    end; cbv iota.
  all: try (rewrite <- IHp; f_equal; cbn; lia).
  all: try exact IH0.
  all: cbn [Z.of_N]; rewrite <- IHp; reflexivity.
Qed.

Lemma atoi_string_of_uint (d : Decimal.uint) :
  d <> Decimal.Nil ->
  atoi_value (DecimalString.NilEmpty.string_of_uint d) = Z.of_N (Pos.of_uint d).
Proof.
  intros Hd. rewrite <- (proj2 (atoi_digits_string_of_uint d)).
  destruct d; [contradiction | reflexivity ..].
Qed.

Lemma string_of_int_nonneg (i : Z) :
  0 <= i -> isNumberString (string_of_int i) = true /\ atoi_value (string_of_int i) = i.
Proof.
  intros Hi. unfold string_of_int. destruct i as [|p|p]; [split; reflexivity | | lia].
  cbn [Z.to_int DecimalString.NilZero.string_of_int].
  pose proof (DecimalPos.Unsigned.to_uint_nonnil p) as Hnn.
  assert (Hs : DecimalString.NilZero.string_of_uint (Pos.to_uint p)
               = DecimalString.NilEmpty.string_of_uint (Pos.to_uint p)).
  { unfold DecimalString.NilZero.string_of_uint.
    destruct (Pos.to_uint p); [contradiction | reflexivity ..]. }
  rewrite Hs. split; [apply isNumberString_string_of_uint |].
  rewrite atoi_string_of_uint by assumption.
  now rewrite DecimalPos.Unsigned.of_to.
Qed.

Lemma string_of_int_neg (i : Z) : i < 0 -> isNumberString (string_of_int i) = false.
Proof.
  intros Hi. unfold string_of_int. destruct i as [|p|p]; [lia | lia | reflexivity].
Qed.

Lemma printed_keys (P : Z -> Prop) (l : list string) :
  Forall (fun k => exists i, k = string_of_int i /\ P i) l ->
  exists ks, l = map string_of_int ks /\ Forall P ks.
Proof.
  induction 1 as [|k l (i & -> & Hi) _ (ks & -> & Hks)].
  - exists []. split; [reflexivity | constructor].
  - exists (i :: ks). split; [reflexivity | now constructor].
Qed.

Lemma foldl_printed_keys {A} (h : Z -> A) (ks : list Z) :
  forall dict : gmap Z A,
    foldl (fun acc key =>
             if isNumberString key
             then cocos2d.emplace (atoi_value key) (h (atoi_value key)) acc else acc)
      dict (map string_of_int ks)
    = foldl (fun acc i => cocos2d.emplace i (h i) acc) dict (filter (fun i => 0 <= i) ks).
Proof.
  induction ks as [|k ks IH]; intros dict; [reflexivity |].
  cbn [map foldl]. destruct (decide (0 <= k)) as [Hk | Hk].
  - rewrite filter_cons_True by assumption. cbn [foldl].
    destruct (string_of_int_nonneg k Hk) as [-> ->]. apply IH.
  - rewrite filter_cons_False by assumption.
    rewrite string_of_int_neg by lia. apply IH.
Qed.

Section intkey_facts.
Context {cfg : BuildConfig}.
Import cocos2d.

(** The object built from a map with integer keys: its keys are the keys
    of the map, printed. *)
Lemma INT_KEY_MAP_to_seval (m : gmap Z Value) (r : se.Value) :
  map_Forall (fun _ v => convertible v) m ->
  exists props',
    ccvalue_to_seval (INT_KEY_MAP m) r = (true, se.Obj (se.PlainObject props')) /\
    (forall i, se.assoc (string_of_int i) props'
               = (fun x => (ccvalue_to_seval x se.Undefined).2) <$> m !! i) /\
    (forall k, k ∈ map fst props' -> exists i, k = string_of_int i /\ is_Some (m !! i)).
Proof.
  intros Hm.
  set (conv := fun value => ccvalue_to_seval value se.Undefined).
  set (entries := map (fun e : Z * (bool * se.Value) => (string_of_int e.1, e.2))
                    (map_to_list (conv <$> m))).
  assert (Hok : Forall (fun e : string * (bool * se.Value) =>
                          e.1 <> EmptyString -> e.2.1 = true) entries).
  { apply Forall_map, Forall_forall. intros [k res] Hin.
    apply elem_of_map_to_list in Hin. rewrite lookup_fmap in Hin.
    apply fmap_Some in Hin as (x & Hx & ->). cbn. intros _.
    exact (convertible_succeeds x (Hm k x Hx) se.Undefined). }
  assert (Hcs : Forall (fun e : string * (bool * se.Value) => c_str e.1 = e.1) entries).
  { apply Forall_map, Forall_forall. intros [k res] _. apply c_str_string_of_int. }
  assert (Hnd : NoDup (map fst entries)).
  { unfold entries. rewrite map_map. cbn [fst].
    rewrite <- (map_map fst string_of_int).
    apply (NoDup_fmap_2 string_of_int), NoDup_fst_map_to_list. }
  assert (Hmap : (list_to_map entries : gmap string (bool * se.Value))
                 = kmap string_of_int (conv <$> m)) by reflexivity.
  destruct (ccvaluemap_to_seval_loop_assoc entries Hnd Hok Hcs [])
    as (props' & Hloop & Hassoc).
  exists props'. split; [| split].
  - cbn [ccvalue_to_seval]. fold conv. fold entries. unfold seobj.createPlainObject.
    now rewrite Hloop.
  - intros i. rewrite Hassoc, Hmap.
    destruct (String.eqb_spec (string_of_int i) EmptyString) as [E | _];
      [now apply string_of_int_nonempty in E |].
    rewrite lookup_kmap by apply _. rewrite lookup_fmap.
    now destruct (m !! i).
  - intros k Hk.
    destruct (se.assoc k props') as [sv|] eqn:Hsv;
      [| exfalso; revert Hk; now apply assoc_None].
    rewrite Hassoc, Hmap in Hsv. cbn [se.assoc] in Hsv.
    destruct (String.eqb k EmptyString); [discriminate Hsv |].
    destruct ((kmap string_of_int (conv <$> m) : gmap string (bool * se.Value)) !! k)
      as [res|] eqn:Hres; [| discriminate Hsv].
    apply lookup_kmap_Some in Hres as (i & -> & Hi); [| apply _].
    exists i. split; [reflexivity |].
    rewrite lookup_fmap in Hi. destruct (m !! i); [eauto | discriminate Hi].
Qed.

Lemma seval_to_ccvaluemapintkey_loop_converted (props : list (string * se.Value))
    (G : string -> Value) (allKeys : list string) :
  (forall key, key ∈ allKeys ->
     exists sv, se.assoc (c_str key) props = Some sv /\
       (isNumberString key = true ->
        INT_MIN <= atoi_value key <= INT_MAX /\
        forall out, seval_to_ccvalue sv out = Returned (true, G key))) ->
  forall (value : se.Value) (ccvalue : Value) (dict : gmap Z Value) (warnings : list string),
    seval_to_ccvaluemapintkey_loop (se.PlainObject props) allKeys value ccvalue dict warnings
    = (Returned (true,
         foldl (fun acc key =>
                  if isNumberString key then emplace (atoi_value key) (G key) acc else acc)
           dict allKeys),
       warnings ++ map c_str (List.filter (fun key => negb (isNumberString key)) allKeys)).
Proof.
  induction allKeys as [|key rest IH]; intros Hconv value ccvalue dict warnings.
  - cbn. now rewrite app_nil_r.
  - destruct (Hconv key) as (sv & Hsv & Hback); [apply elem_of_cons; now left |].
    assert (Hrest : forall key', key' ∈ rest ->
              exists sv', se.assoc (c_str key') props = Some sv' /\
                (isNumberString key' = true ->
                 INT_MIN <= atoi_value key' <= INT_MAX /\
                 forall out, seval_to_ccvalue sv' out = Returned (true, G key'))).
    { intros key' Hin. apply Hconv. apply elem_of_cons. now right. }
    cbn [foldl List.filter].
    destruct (isNumberString key) eqn:Hnum; cbn [negb map].
    + destruct (Hback eq_refl) as [Hint Hcv].
      rewrite (isNumberString_c_str key Hnum) in Hsv.
      rewrite (seval_to_ccvaluemapintkey_loop_numeric (se.PlainObject props) key rest
                 value ccvalue dict warnings sv (G key) Hnum Hint Hsv (Hcv ccvalue)).
      apply IH, Hrest.
    + rewrite (seval_to_ccvaluemapintkey_loop_skip (se.PlainObject props) key rest
                 value ccvalue dict warnings sv Hnum Hsv).
      rewrite (IH Hrest). now rewrite <- app_assoc.
Qed.

(** X25.  A map with integer keys, each an [int], whose values are
    convertible with no NUL in their keys, keeps its entries with
    non-negative keys on the round trip and loses those with negative
    keys: [ccvaluemapintkey_to_seval] prints each key in decimal, and on
    the way back [seval_to_ccvaluemapintkey] takes a key starting with a
    minus sign for a key that is not a number, skips the entry and warns
    about it.  The entries kept are merged into the output map, after
    those it already holds. *)
Theorem ccvaluemapintkey_roundtrip (m ret : gmap Z Value) (r : se.Value) :
  map_Forall (fun k v => INT_MIN <= k <= INT_MAX /\ convertible v /\ c_keys v) m ->
  exists warnings,
    seval_to_ccvaluemapintkey (ccvaluemapintkey_to_seval m r).2 ret
    = (Returned (true, ret ∪ (roundtrip_image <$> filter (fun kv => 0 <= kv.1) m)),
       warnings) /\
    forall w, In w warnings <->
              exists k, k < 0 /\ is_Some (m !! k) /\ w = string_of_int k.
Proof.
  intros Hall.
  assert (Hm : map_Forall (fun _ v => convertible v) m).
  { intros k x Hx. exact (proj1 (proj2 (Hall k x Hx))). }
  destruct (INT_KEY_MAP_to_seval m r Hm) as (props' & Hto & Hprinted & Hkeys).
  unfold ccvaluemapintkey_to_seval. rewrite Hto. cbn [snd].
  unfold seval_to_ccvaluemapintkey.
  cbn [se.isNullOrUndefined se.isObject assert_ se.toObject se.getAllKeys].
  destruct (printed_keys (fun i => is_Some (m !! i)) (map fst props')) as (ks & Hks & Hdom).
  { apply Forall_forall. exact Hkeys. }
  assert (Hks' : forall i, is_Some (m !! i) -> i ∈ ks).
  { intros i [x Hx].
    apply (list_elem_of_fmap_inj string_of_int). change (string_of_int <$> ks) with (map string_of_int ks).
    rewrite <- Hks.
    destruct (decide (string_of_int i ∈ map fst props')) as [Hin | Hnin]; [exact Hin |].
    apply assoc_None in Hnin. rewrite Hprinted, Hx in Hnin. discriminate Hnin. }
  set (h := fun z : Z => roundtrip_image (default NONE (m !! z))).
  rewrite (seval_to_ccvaluemapintkey_loop_converted props' (fun key => h (atoi_value key))).
  - exists (map c_str (List.filter (fun key => negb (isNumberString key)) (map fst props'))).
    split.
    + cbn [app]. f_equal. do 2 f_equal.
      rewrite Hks, (foldl_printed_keys h). apply map_eq. intros z.
      rewrite lookup_foldl_emplace.
      destruct (ret !! z) as [x|] eqn:Hret; [symmetry; now apply lookup_union_Some_l |].
      rewrite lookup_union_r by assumption. rewrite lookup_fmap.
      destruct (decide (z ∈ filter (fun i => 0 <= i) ks)) as [Hin | Hnin].
      * apply list_elem_of_filter in Hin as [Hz Hin].
        rewrite Forall_forall in Hdom. destruct (Hdom z Hin) as [x Hx].
        rewrite (map_lookup_filter_Some_2 _ m z x Hx) by exact Hz.
        unfold h. now rewrite Hx.
      * destruct (filter (fun kv : Z * Value => 0 <= kv.1) m !! z) as [x|] eqn:Hx;
          [| reflexivity].
        apply map_lookup_filter_Some in Hx as [Hx Hz]. exfalso. apply Hnin.
        apply list_elem_of_filter. split; [exact Hz | apply Hks'; eauto].
    + intros w. rewrite in_map_iff. split.
      * intros (key & <- & Hkey). apply filter_In in Hkey as [Hkey Hneg].
        rewrite Hks in Hkey. apply in_map_iff in Hkey as (k & <- & Hin).
        exists k. rewrite Forall_forall in Hdom. apply list_elem_of_In in Hin.
        split; [| split; [apply Hdom, Hin | apply c_str_string_of_int]].
        destruct (Z.lt_ge_cases k 0) as [Hlt | Hge]; [exact Hlt |].
        destruct (string_of_int_nonneg k Hge) as [Hnum _]. rewrite Hnum in Hneg.
        discriminate Hneg.
      * intros (k & Hk & Hsome & ->). exists (string_of_int k).
        split; [apply c_str_string_of_int |]. apply filter_In. split.
        -- rewrite Hks. apply in_map_iff. exists k. split; [reflexivity |].
           apply list_elem_of_In, Hks', Hsome.
        -- now rewrite string_of_int_neg.
  - intros key Hkey. destruct (Hkeys key Hkey) as (i & -> & [x Hx]).
    exists (ccvalue_to_seval x se.Undefined).2.
    split; [now rewrite c_str_string_of_int, Hprinted, Hx |].
    intros Hnum.
    assert (Hi : 0 <= i).
    { destruct (Z.lt_ge_cases i 0) as [Hlt | Hge]; [| exact Hge].
      rewrite string_of_int_neg in Hnum by assumption. discriminate Hnum. }
    destruct (string_of_int_nonneg i Hi) as [_ ->].
    destruct (Hall i x Hx) as (Hint & Hcx & Hkx).
    split; [exact Hint |]. intros out.
    unfold h. rewrite Hx. cbn [default].
    destruct (convertible_sent_and_back x Hcx Hkx se.Undefined) as (sv & Hsv & Hback).
    rewrite Hsv. apply Hback.
Qed.

End intkey_facts.

Lemma ccvaluemapintkey_roundtrip_witness :
  exists warnings,
    seval_to_ccvaluemapintkey (cfg := release_build)
      (ccvaluemapintkey_to_seval
         {[ 2 := cocos2d.STRING "a"; -1 := cocos2d.STRING "b" ]} se.Undefined).2 ∅
    = (Returned (true, ∅ ∪ (roundtrip_image <$>
                              filter (fun kv => 0 <= kv.1)
                                ({[ 2 := cocos2d.STRING "a"; -1 := cocos2d.STRING "b" ]}
                                 : gmap Z cocos2d.Value))),
       warnings) /\
    forall w, In w warnings <->
              exists k, k < 0 /\
                is_Some (({[ 2 := cocos2d.STRING "a"; -1 := cocos2d.STRING "b" ]}
                          : gmap Z cocos2d.Value) !! k) /\
                w = string_of_int k.
Proof.
  apply (ccvaluemapintkey_roundtrip (cfg := release_build)
           {[ 2 := cocos2d.STRING "a"; -1 := cocos2d.STRING "b" ]} ∅ se.Undefined).
  apply map_Forall_insert_2.
  - split; [unfold INT_MIN, INT_MAX; lia |].
    split; [constructor | now apply c_keys_scalar].
  - apply map_Forall_singleton.
    split; [unfold INT_MIN, INT_MAX; lia |].
    split; [constructor | now apply c_keys_scalar].
Defined.

(** The map [2 -> "a", -1 -> "b"] comes back as [2 -> "a"], with a
    warning about the key "-1". *)
Example ccvaluemapintkey_roundtrip_example :
  seval_to_ccvaluemapintkey (cfg := release_build)
    (ccvaluemapintkey_to_seval
       {[ 2 := cocos2d.STRING "a"; -1 := cocos2d.STRING "b" ]} se.Undefined).2 ∅
  = (Returned (true, {[ 2 := cocos2d.STRING "a" ]}), ["-1"%string]).
Proof. vm_compute. reflexivity. Qed.

(* ===================================================================== *)
(** * Further properties: font descriptions *)
(* ===================================================================== *)

Section font_facts.
Context {cfg : BuildConfig} {casts : IntegerCasts}.
Import cocos2d.

(** On an object [seval_to_Color3B] always returns; when it returns
    [false] the colour is black. *)
Lemma seval_to_Color3B_object (o : se.Object) (color : Color3B) :
  exists ok c, seval_to_Color3B (se.Obj o) color = Returned (ok, c) /\
               (ok = false -> c = Color3B_BLACK) /\
               (se.getProperty o "r" = None -> ok = false).
Proof.
  unfold seval_to_Color3B, seval.getProperty. cbn.
  destruct (se.getProperty o "r") as [r|]; cbn;
    [| exists false, Color3B_BLACK; auto].
  destruct (se.isNumber r); cbn; [| exists false, Color3B_BLACK; repeat split; discriminate].
  destruct (se.getProperty o "g") as [g|]; cbn;
    [| exists false, Color3B_BLACK; repeat split; discriminate].
  destruct (se.isNumber g); cbn; [| exists false, Color3B_BLACK; repeat split; discriminate].
  destruct (se.getProperty o "b") as [b|]; cbn;
    [| exists false, Color3B_BLACK; repeat split; discriminate].
  destruct (se.isNumber b); cbn; [| exists false, Color3B_BLACK; repeat split; discriminate].
  eexists true, _. repeat split; discriminate.
Qed.

Lemma seval_to_FontDefinition_stroke_returns (obj : se.Object) (tmp : se.Value)
    (stroke : FontStroke) :
  exists s, seval_to_FontDefinition_stroke obj tmp stroke = Returned s.
Proof.
  unfold seval_to_FontDefinition_stroke.
  destruct (seval.getProperty obj "strokeEnabled" tmp) as [ok1 tmp1].
  destruct (ok1 && se.isBoolean tmp1); [| eexists; reflexivity].
  destruct (seval.toBoolean tmp1); [| eexists; reflexivity].
  destruct (seval.getProperty obj "strokeStyle" tmp1) as [ok2 tmp2].
  destruct (ok2 && se.isObject tmp2) eqn:Hobj.
  - apply andb_prop in Hobj as [_ Hobj]. destruct tmp2; try discriminate Hobj.
    destruct (seval_to_Color3B_object o Color3B_BLUE) as (ok & c & Hc & _).
    rewrite Hc. cbn.
    destruct (seval.getProperty obj "lineWidth" _) as [ok3 tmp3].
    destruct (seval.getProperty obj "strokeAlpha" tmp3) as [ok4 tmp4].
    eexists; reflexivity.
  - cbn.
    destruct (seval.getProperty obj "lineWidth" _) as [ok3 tmp3].
    destruct (seval.getProperty obj "strokeAlpha" tmp3) as [ok4 tmp4].
    eexists; reflexivity.
Qed.

(** X26.  [seval_to_FontDefinition] cannot fail on an object: whatever
    properties the object has or lacks, and of whatever kinds, the call
    returns [true] (it neither aborts nor misreads a value).  A missing
    [fillStyle] leaves the text white, but a [fillStyle] object without a
    red channel makes it black: the failure of the nested colour
    conversion is not reported, only its fallback colour is kept. *)
Theorem seval_to_FontDefinition_total (o : se.Object) (ret : FontDefinition) :
  exists fd,
    seval_to_FontDefinition (se.Obj o) ret = Returned (true, fd) /\
    (se.getProperty o "fillStyle" = None -> _fontFillColor fd = Color3B_WHITE) /\
    (forall o', se.getProperty o "fillStyle" = Some (se.Obj o') ->
                se.getProperty o' "r" = None -> _fontFillColor fd = Color3B_BLACK).
Proof.
  unfold seval_to_FontDefinition.
  cbn [se.isObject assert_ se.toObject mbind outcome_bind].
  destruct (seval.getProperty o "fontName" se.Undefined) as [ok1 tmp1].
  destruct (seval.getProperty o "fontSize" tmp1) as [ok2 tmp2].
  destruct (seval.getProperty o "textAlign" tmp2) as [ok3 tmp3].
  destruct (seval.getProperty o "verticalAlign" tmp3) as [ok4 tmp4].
  unfold seval.getProperty at 1.
  destruct (se.getProperty o "fillStyle") as [fill|] eqn:Hfill.
  - destruct (true && se.isObject fill) eqn:Hobj.
    + cbn in Hobj. destruct fill as [| | | | |o']; try discriminate Hobj.
      destruct (seval_to_Color3B_object o' Color3B_WHITE) as (ok & c & Hc & Hblack & Hr).
      rewrite Hc. cbn [mbind outcome_bind mret outcome_ret].
      destruct (seval.getProperty o "boundingWidth" _) as [okw tmpw].
      destruct (if okw && se.isNumber tmpw then _ else _) as [okh tmph].
      destruct (seval_to_FontDefinition_shadow _ _ _ _) as [[shadow tmps] tmps2].
      destruct (seval_to_FontDefinition_stroke_returns o tmps
                  {| _strokeEnabled := false; _strokeColor := _strokeColor (_stroke ret);
                     _strokeAlpha := _strokeAlpha (_stroke ret);
                     _strokeSize := _strokeSize (_stroke ret) |}) as [s Hs].
      rewrite Hs. cbn [mbind outcome_bind].
      eexists. split; [reflexivity |]. cbn [_fontFillColor]. split; [discriminate |].
      intros o'' [= <-] Hnone. apply Hblack, Hr, Hnone.
    + cbn [mbind outcome_bind mret outcome_ret].
      destruct (seval.getProperty o "boundingWidth" _) as [okw tmpw].
      destruct (if okw && se.isNumber tmpw then _ else _) as [okh tmph].
      destruct (seval_to_FontDefinition_shadow _ _ _ _) as [[shadow tmps] tmps2].
      destruct (seval_to_FontDefinition_stroke_returns o tmps
                  {| _strokeEnabled := false; _strokeColor := _strokeColor (_stroke ret);
                     _strokeAlpha := _strokeAlpha (_stroke ret);
                     _strokeSize := _strokeSize (_stroke ret) |}) as [s Hs].
      rewrite Hs. cbn [mbind outcome_bind].
      eexists. split; [reflexivity |]. cbn [_fontFillColor]. split; [discriminate |].
      intros o'' [= ->]. discriminate Hobj.
  - cbn [andb mbind outcome_bind mret outcome_ret].
    destruct (seval.getProperty o "boundingWidth" _) as [okw tmpw].
    destruct (if okw && se.isNumber tmpw then _ else _) as [okh tmph].
    destruct (seval_to_FontDefinition_shadow _ _ _ _) as [[shadow tmps] tmps2].
    destruct (seval_to_FontDefinition_stroke_returns o tmps
                {| _strokeEnabled := false; _strokeColor := _strokeColor (_stroke ret);
                   _strokeAlpha := _strokeAlpha (_stroke ret);
                   _strokeSize := _strokeSize (_stroke ret) |}) as [s Hs].
    rewrite Hs. cbn [mbind outcome_bind].
    eexists. split; [reflexivity |]. cbn [_fontFillColor]. split; [reflexivity |].
    intros o'' Hbad. discriminate Hbad.
Qed.

(** X27.  A well-formed font description with a non-empty font name
    survives the round trip, provided the integer casts are exact on its
    integers: [FontDefinition_to_seval] succeeds and
    [seval_to_FontDefinition] gives back every field, except that the
    parameters of a disabled shadow or stroke are not transferred (the
    output keeps its own). *)
Theorem FontDefinition_roundtrip (v out : FontDefinition) (ret : se.Value) :
  FontDefinition_wf v ->
  _fontName v <> EmptyString ->
  (forall i, 0 <= i < 256 -> toUint16 (double_of_Z i) = i) ->
  toInt32 (double_of_Z (_fontSize v)) = _fontSize v ->
  toInt32 (double_of_Z (TextHAlignment_to_int (_alignment v)))
    = TextHAlignment_to_int (_alignment v) ->
  toInt32 (double_of_Z (TextVAlignment_to_int (_vertAlignment v)))
    = TextVAlignment_to_int (_vertAlignment v) ->
  toUint8 (double_of_Z (_strokeAlpha (_stroke v))) = _strokeAlpha (_stroke v) ->
  (FontDefinition_to_seval v ret).1 = true /\
  seval_to_FontDefinition (FontDefinition_to_seval v ret).2 out
  = Returned (true, FontDefinition_received v out).
Proof.
  intros (Hdw & Hdh & Hsx & Hsy & Hsb & Hso & Hss & (Hfr & Hfg & Hfb) & (Hkr & Hkg & Hkb)
          & Hha & Hva) Hname H16 Hsize Hh Hv Halpha.
  split; [reflexivity |].
  destruct v as [name size ha va [dw dh] [fr fg fb] [sen [sx sy] sb so] [ken [kr kg kb] ka ks]].
  cbn [_fontName _fontSize _alignment _vertAlignment _dimensions _fontFillColor _shadow
       _stroke _shadowEnabled _shadowOffset _shadowBlur _shadowOpacity _strokeEnabled
       _strokeColor _strokeAlpha _strokeSize cocos2d.width cocos2d.height
       cocos2d.r cocos2d.g cocos2d.b] in *.
  unfold FontDefinition_received, seval_to_FontDefinition, seval_to_FontDefinition_shadow,
    seval_to_FontDefinition_stroke, seval_to_Color3B.
  cbn -[toFloat double_of_float double_of_Z TextHAlignment_to_int TextVAlignment_to_int
        TextHAlignment_of_int TextVAlignment_of_int].
  destruct (String.eqb_spec name EmptyString) as [E | _]; [contradiction |].
  rewrite Hsize, Hh, Hv, Hha, Hva.
  rewrite !H16 by assumption. unfold to_GLubyte. rewrite !Z.mod_small by assumption.
  rewrite !toFloat_double_of_float by assumption.
  destruct sen, ken;
    cbn -[toFloat double_of_float double_of_Z];
    rewrite ?H16 by assumption; rewrite ?Z.mod_small by assumption;
    rewrite ?toFloat_double_of_float by assumption; rewrite ?Halpha; reflexivity.
Qed.

End font_facts.

Lemma FontDefinition_roundtrip_witness :
  let fd := {| cocos2d._fontName := "Courier"; cocos2d._fontSize := 24;
               cocos2d._alignment := cocos2d.CENTER; cocos2d._vertAlignment := cocos2d.TOP;
               cocos2d._dimensions := {| cocos2d.width := float_of_Z 200;
                                         cocos2d.height := float_of_Z 50 |};
               cocos2d._fontFillColor := cocos2d.Color3B_BLUE;
               cocos2d._shadow := {| cocos2d._shadowEnabled := true;
                                     cocos2d._shadowOffset :=
                                       {| cocos2d.width := float_of_Z 2;
                                          cocos2d.height := float_of_Z 3 |};
                                     cocos2d._shadowBlur := float_of_Z 1;
                                     cocos2d._shadowOpacity := float_of_Z 1 |};
               cocos2d._stroke := {| cocos2d._strokeEnabled := true;
                                     cocos2d._strokeColor := cocos2d.Color3B_WHITE;
                                     cocos2d._strokeAlpha := 255;
                                     cocos2d._strokeSize := float_of_Z 2 |} |} in
  let blank := {| cocos2d._fontName := EmptyString; cocos2d._fontSize := 0;
                  cocos2d._alignment := cocos2d.LEFT; cocos2d._vertAlignment := cocos2d.TOP;
                  cocos2d._dimensions := Size_ZERO;
                  cocos2d._fontFillColor := cocos2d.Color3B_BLACK;
                  cocos2d._shadow := {| cocos2d._shadowEnabled := false;
                                        cocos2d._shadowOffset := Size_ZERO;
                                        cocos2d._shadowBlur := float_of_Z 0;
                                        cocos2d._shadowOpacity := float_of_Z 0 |};
                  cocos2d._stroke := {| cocos2d._strokeEnabled := false;
                                        cocos2d._strokeColor := cocos2d.Color3B_BLACK;
                                        cocos2d._strokeAlpha := 0;
                                        cocos2d._strokeSize := float_of_Z 0 |} |} in
  seval_to_FontDefinition (cfg := debug_build) (casts := wrapping_casts)
    (FontDefinition_to_seval fd se.Undefined).2 blank
  = Returned (true, fd).
Proof.
  intros fd blank.
  refine (proj2 (FontDefinition_roundtrip (cfg := debug_build) (casts := wrapping_casts)
                   fd blank se.Undefined _ _ wrapping_casts_toUint16_exact
                   eq_refl eq_refl eq_refl eq_refl)).
  - unfold FontDefinition_wf, Color3B_wf. cbn. repeat split; lia.
  - discriminate.
Defined.
